(** * Write-back trie node cache and background pruner

    A shallow embedding of [trie/database.go] (the dirty-node cache with its
    reference counting, flush list, [Cap] and [Commit]) and of the pruner
    ([commitStart], [addKey], [filterRecords], [removeRecord], [pruning] and
    the signal loop), together with the properties stated about them.

    Conventions.
    - A Go [[]byte] is a [list byte]; a Go [string] (the key type of the
      [dirties] map) is a [string], obtained with [string_of_list_byte].
    - [uint16], [uint32] and [uint64] values are [Z] with the wrap-around
      written out ([wrap16], [wrap32], [wrap64]).
    - [common.StorageSize] values only ever hold sums and differences of
      integers here, and are kept as [Z].
    - A Go map is a [gmap]; a map field that may be [nil] is an [option].
    - A run of Go code ends normally ([Ok]), dies ([Panic]: a nil
      dereference, a slice out of range, [log.Crit]) or exhausts the budget
      of the recursive functions ([OutOfFuel]). *)

From Stdlib Require Import ZArith List Lia Strings.String Strings.Byte Bool.
From stdpp Require Import base option decidable gmap list strings fin_maps sorting.

Set Warnings "-register-all".
Local Open Scope Z_scope.

(** ** Bytes and hashes *)

Module Common.

#[global] Instance byte_eq_dec : EqDecision byte.
Proof.
  intros a b. destruct (Byte.eqb a b) eqn:E.
  - left. now apply Byte.byte_dec_bl.
  - right. intros ->. rewrite (Byte.byte_dec_lb eq_refl) in E. discriminate.
Defined.

(** Modelled from the spec: [common.HashLength]; a hash is 32 bytes. *)
Definition HashLength : Z := 32.

(** Modelled from the spec: [common.Hash], a 32-byte hash ([[32]byte]); the
    value is kept as the list of its bytes. *)
Definition Hash := list byte.

(** [common.Hash{}] *)
Definition zeroHash : Hash := repeat x00 32.

Definition is_hash (h : Hash) : Prop := length h = 32%nat.

Definition wrap16 (z : Z) : Z := z mod 65536.
Definition wrap32 (z : Z) : Z := z mod 4294967296.
Definition wrap64 (z : Z) : Z := z mod 18446744073709551616.

(** Go's [string(b)] for a byte slice [b]. *)
Definition gostring (b : list byte) : string := string_of_list_byte b.

End Common.
Import Common.

(** ** The node key codec *)

Module NodeKey.

(** Modelled from the spec: [EncodeNodeKey] and [DecodeNodeKey] are not among
    the sources; the on-disk key format is
    [ownerHash(32B) ++ nibblePath(variable) ++ nodeHash(32B)]. *)
Definition encode (owner : Hash) (path : list byte) (hash : Hash) : list byte :=
  owner ++ path ++ hash.

(** Modelled from the spec: the inverse of the format above: the first 32
    bytes are the owner, the last 32 the node hash, the rest the path. *)
Definition decode (key : list byte) : Hash * list byte * Hash :=
  let n := length key in
  (take 32 key, take (n - 64) (drop 32 key), drop (n - 32) key).

End NodeKey.

(** ** Outcomes of a run *)

Inductive Outcome (A : Type) : Type :=
| Ok (a : A)
| Panic
| OutOfFuel.
Arguments Ok {A} a.
Arguments Panic {A}.
Arguments OutOfFuel {A}.

#[global] Instance Outcome_ret : MRet Outcome := fun A a => Ok a.
#[global] Instance Outcome_bind : MBind Outcome := fun A B f m =>
  match m with
  | Ok a => f a
  | Panic => Panic
  | OutOfFuel => OutOfFuel
  end.

(** A Go [error] value; [None] is [nil]. *)
Definition error := option string.

(** Dereferencing the pointer a map lookup returned: a missing entry is a nil
    pointer, and reading or writing a field through it panics. *)
Definition deref {A} (o : option A) : Outcome A :=
  match o with
  | Some a => Ok a
  | None => Panic
  end.

(** ** Trie nodes *)

(** The [node] interface with the implementations the cache meets:
    the collapsed forms [rawShortNode] and [rawFullNode], [hashNode],
    [valueNode], the nil interface, and the expanded [shortNode] and
    [fullNode] (their flags are not modelled).  A [[17]node] array is the
    list of its entries; an entry the list does not have is nil. *)
Inductive node : Type :=
| rawShortNode (Key : list byte) (Val : node)
| rawFullNode (Children : list node)
| hashNode (h : list byte)
| valueNode (v : list byte)
| nilNode
| shortNode (Key : list byte) (Val : node)
| fullNode (Children : list node).

(** One step of the walk [iterateRefs] makes: a call of the callback on a
    hash node, or the [default] arm of the type switch, which panics. *)
Inductive refStep : Type :=
| Visit (path : list byte) (hash : Hash)
| Unknown.

(** [byte(i)] for the loop index of a full node. *)
Definition nibble (i : nat) : byte :=
  match Byte.of_nat i with
  | Some b => b
  | None => x00
  end.

(** ** The disk store and its batches *)

(** Modelled from the spec: the disk store contract ([ethdb.KeyValueStore],
    not among the sources): the content of the store, and the outcomes of the
    coming [batch.Write()] calls ([true]: the write fails with an I/O error
    and stores nothing). *)
Record Disk : Type := mkDisk {
  store : gmap string (list byte);
  faults : list bool
}.

(** Modelled from the spec: an [ethdb.Batch], the queued [Put]s, oldest
    first. *)
Definition Batch := list (list byte * list byte).

Definition applyBatch (b : Batch) (s : gmap string (list byte)) : gmap string (list byte) :=
  foldl (fun s kv => <[gostring kv.1 := kv.2]> s) s b.

(** Modelled from the spec: [batch.Write()], the durable flush; it stores
    every queued entry, or fails and stores none. *)
Definition batchWrite (b : Batch) (d : Disk) : error * Disk :=
  match faults d with
  | true :: fs => (Some "write failed"%string, mkDisk (store d) fs)
  | false :: fs => (None, mkDisk (applyBatch b (store d)) fs)
  | [] => (None, mkDisk (applyBatch b (store d)) [])
  end.

(** ** Commit records and the pruner state *)

(** Modelled from the spec: the type [CommitRecord] is not among the sources;
    a commit record is {blockNumber, blockHash, writtenKeys}.  The fields
    [number], [hash] and [Keys] are the ones the pruner reads. *)
Record CommitRecord : Type := mkCommitRecord {
  number : Z;
  hash : Hash;
  Keys : list (list byte)
}.

(** Modelled from the spec: [newCommitRecord]; a record created when a commit
    window opens has no keys yet. *)
Definition newCommitRecord (n : Z) (h : Hash) : CommitRecord := mkCommitRecord n h [].

(** The fields of [pruner] the modelled methods touch; [MaximumRecords] is
    [config.MaximumRecords].  The channels and the wait group belong to the
    loop, below. *)
Record pruner : Type := mkPruner {
  MaximumRecords : Z;
  partialKeys : list (list byte);
  cleanKeys : list (list byte);
  current : option CommitRecord;
  records : list CommitRecord;
  minRecord : Z;
  written : Z;
  iterated : Z;
  filtered : Z;
  resurrected : Z
}.

Definition set_partialKeys (v : list (list byte)) (x : pruner) : pruner :=
  {| MaximumRecords := MaximumRecords x;
     partialKeys := v;
     cleanKeys := cleanKeys x;
     current := current x;
     records := records x;
     minRecord := minRecord x;
     written := written x;
     iterated := iterated x;
     filtered := filtered x;
     resurrected := resurrected x |}.

Definition set_cleanKeys (v : list (list byte)) (x : pruner) : pruner :=
  {| MaximumRecords := MaximumRecords x;
     partialKeys := partialKeys x;
     cleanKeys := v;
     current := current x;
     records := records x;
     minRecord := minRecord x;
     written := written x;
     iterated := iterated x;
     filtered := filtered x;
     resurrected := resurrected x |}.

Definition set_current (v : option CommitRecord) (x : pruner) : pruner :=
  {| MaximumRecords := MaximumRecords x;
     partialKeys := partialKeys x;
     cleanKeys := cleanKeys x;
     current := v;
     records := records x;
     minRecord := minRecord x;
     written := written x;
     iterated := iterated x;
     filtered := filtered x;
     resurrected := resurrected x |}.

Definition set_records (v : list CommitRecord) (x : pruner) : pruner :=
  {| MaximumRecords := MaximumRecords x;
     partialKeys := partialKeys x;
     cleanKeys := cleanKeys x;
     current := current x;
     records := v;
     minRecord := minRecord x;
     written := written x;
     iterated := iterated x;
     filtered := filtered x;
     resurrected := resurrected x |}.

Definition set_minRecord (v : Z) (x : pruner) : pruner :=
  {| MaximumRecords := MaximumRecords x;
     partialKeys := partialKeys x;
     cleanKeys := cleanKeys x;
     current := current x;
     records := records x;
     minRecord := v;
     written := written x;
     iterated := iterated x;
     filtered := filtered x;
     resurrected := resurrected x |}.

Definition set_written (v : Z) (x : pruner) : pruner :=
  {| MaximumRecords := MaximumRecords x;
     partialKeys := partialKeys x;
     cleanKeys := cleanKeys x;
     current := current x;
     records := records x;
     minRecord := minRecord x;
     written := v;
     iterated := iterated x;
     filtered := filtered x;
     resurrected := resurrected x |}.

Definition set_iterated (v : Z) (x : pruner) : pruner :=
  {| MaximumRecords := MaximumRecords x;
     partialKeys := partialKeys x;
     cleanKeys := cleanKeys x;
     current := current x;
     records := records x;
     minRecord := minRecord x;
     written := written x;
     iterated := v;
     filtered := filtered x;
     resurrected := resurrected x |}.

Definition set_filtered (v : Z) (x : pruner) : pruner :=
  {| MaximumRecords := MaximumRecords x;
     partialKeys := partialKeys x;
     cleanKeys := cleanKeys x;
     current := current x;
     records := records x;
     minRecord := minRecord x;
     written := written x;
     iterated := iterated x;
     filtered := v;
     resurrected := resurrected x |}.

(** What [CommitRecord.finalize] hands back: its four results, the record
    as it leaves it, and what it stored. *)
Record Finalized : Type := mkFinalized {
  fin_iterated : Z;
  fin_filtered : Z;
  fin_exist : bool;
  fin_err : error;
  fin_record : CommitRecord;
  fin_puts : Batch
}.

(** ** What the cache takes from its collaborators

    Functions and constants the sources call but do not define. *)
Class Env : Type := {
  (** [EncodeNodeKey] and [DecodeNodeKey] *)
  EncodeNodeKey : Hash -> list byte -> Hash -> list byte;
  DecodeNodeKey : list byte -> Hash * list byte * Hash;
  (** [common.BytesToHash] *)
  BytesToHash : list byte -> Hash;
  (** [compactToHex] *)
  compactToHex : list byte -> list byte;
  (** [rlp.EncodeToBytes] on a cached node *)
  rlpEncode : node -> list byte;
  (** [reflect.TypeOf(cachedNode{}).Size()] *)
  cachedNodeSize : Z;
  (** [ethdb.IdealBatchSize] *)
  IdealBatchSize : Z;
  (** what one [Put] adds to [batch.ValueSize()] *)
  putSize : list byte -> list byte -> Z;
  (** the database key [rawdb.WriteTrieNode] stores a node under, and
      [rawdb.IsStateTrieNodeKey], which recognises such a key *)
  trieNodeKey : list byte -> list byte;
  IsStateTrieNodeKey : list byte -> bool * list byte;
  (** the database key [rawdb.WritePreimages] stores a preimage under *)
  preimageKey : list byte -> list byte;
  (** the database key of a commit record, for [rawdb.DeleteCommitRecord] *)
  commitRecordKey : Z -> Hash -> list byte;
  (** [PrunerConfig.IsCanonical] *)
  IsCanonical : Z -> Hash -> bool;
  (** [CommitRecord.add] *)
  recordAdd : CommitRecord -> list byte -> CommitRecord;
  (** [CommitRecord.finalize], given the partial and the clean keys and the
      content of the disk *)
  finalize : CommitRecord -> list (list byte) -> list (list byte) ->
             gmap string (list byte) -> Finalized;
  (** [readCommitRecord]; [None] is a record that fails to read back *)
  readCommitRecord : gmap string (list byte) -> Z -> Hash -> option CommitRecord;
  (** the keys [CommitRecord.deleteStale] finds superseded *)
  staleKeys : CommitRecord -> gmap string (list byte) -> list (list byte);
  (** [pruner.flushMarker]: an error, or the entries it queues *)
  flushMarker : pruner -> error * Batch
}.

(** ** The pruner *)

Module Pruner.
Section WithEnv.
Context `{E : Env}.

(** [minBlockConfirms] *)
Definition minBlockConfirms : Z := 3600.

(** The test of [checkRecords]: no record is followed by one whose number
    is not larger.  [false] is the [log.Crit] arm. *)
Fixpoint checkRecords (rs : list CommitRecord) : bool :=
  match rs with
  | [] => true
  | cur :: rest =>
      match rest with
      | [] => true
      | next :: _ => if number next <=? number cur then false else checkRecords rest
      end
  end.

(** The order [checkRecords] asks of neighbours. *)
Definition before (a b : CommitRecord) : Prop := number a < number b.

(** Modelled from the spec: [sort.Sort(commitRecordsByNumber(rs))]; records
    are kept sorted by blockNumber.  An insertion sort: on records whose
    numbers all differ, the only ones [checkRecords] lets through, every
    sort gives this order. *)
Fixpoint insertByNumber (r : CommitRecord) (rs : list CommitRecord) : list CommitRecord :=
  match rs with
  | [] => [r]
  | x :: rest => if number r <? number x then r :: x :: rest else x :: insertByNumber r rest
  end.

Definition sortByNumber (rs : list CommitRecord) : list CommitRecord :=
  foldr insertByNumber [] rs.

(** [commitStart]: [Panic] is the [log.Crit] on a record still open. *)
Definition commitStart (n : Z) (h : Hash) (p : pruner) : Outcome pruner :=
  match current p with
  | Some _ => Panic
  | None =>
      let live := Z.of_nat (length (records p)) in
      if MaximumRecords p <=? live then Ok p
      else Ok (set_current (Some (newCommitRecord n h)) p)
  end.

(** [addKey] *)
Definition addKey (key : list byte) (partial : bool) (p : pruner) : error * pruner :=
  let p := set_written (wrap64 (written p + 1)) p in
  if negb partial then
    match current p with
    | Some c => (None, set_current (Some (recordAdd c key)) p)
    | None => (None, set_cleanKeys (cleanKeys p ++ [key]) p)
    end
  else (None, set_partialKeys (partialKeys p ++ [key]) p).

(** [commitEnd] *)
Definition commitEnd (p : pruner) (d : Disk) : Outcome (error * pruner * Disk) :=
  match current p with
  | None => Ok (None, p, d)
  | Some c =>
      let f := finalize c (partialKeys p) (cleanKeys p) (store d) in
      let d := mkDisk (applyBatch (fin_puts f) (store d)) (faults d) in
      let p := set_current (Some (fin_record f)) p in
      match fin_err f with
      | Some e => Ok (Some e, p, d)
      | None =>
          let p := set_iterated (wrap64 (iterated p + wrap64 (fin_iterated f))) p in
          let p := set_filtered (wrap64 (filtered p + wrap64 (fin_filtered f))) p in
          p ← (if fin_exist f then
                 let rs := sortByNumber (records p ++ [fin_record f]) in
                 match rs with
                 | [] => Panic
                 | r0 :: _ =>
                     if checkRecords rs
                     then Ok (set_minRecord (number r0) (set_records rs p))
                     else Panic
                 end
               else Ok p);
          Ok (None, set_cleanKeys [] (set_partialKeys [] (set_current None p)), d)
      end
  end.

(** [filterRecords] *)
Definition filterRecords (n : Z) (p : pruner) : list CommitRecord :=
  List.filter (fun r => number r <? n) (records p).

Definition sameRecord (r record : CommitRecord) : bool :=
  (number r =? number record) && bool_decide (hash r = hash record).

(** The loop of [removeRecord].  It ranges over the slice [p.records] had
    when the loop began, so over the [n] cells of its backing array [arr],
    while the body shortens and sorts [p.records], which shares those
    cells and holds the first [m] of them.  [i] is the index, [k] the
    number of cells still to visit. *)
Fixpoint removeLoop (record : CommitRecord) (k i : nat)
    (arr : list CommitRecord) (m : nat) (found : bool)
    : Outcome (list CommitRecord * nat * bool) :=
  match k with
  | O => Ok (arr, m, found)
  | S k' =>
      r ← deref (arr !! i);
      if sameRecord r record then
        if (m <? i + 1)%nat then Panic
        else
          let arr1 := take i arr ++ drop (i + 1) (take m arr) ++ drop (m - 1) arr in
          let m1 := (m - 1)%nat in
          let arr2 := sortByNumber (take m1 arr1) ++ drop m1 arr1 in
          removeLoop record k' (S i) arr2 m1 true
      else removeLoop record k' (S i) arr m found
  end.

(** Modelled from the spec: [rawdb.DeleteCommitRecord] deletes the metadata
    of the record, stored under its identity. *)
Definition DeleteCommitRecord (d : Disk) (n : Z) (h : Hash) : Disk :=
  mkDisk (delete (gostring (commitRecordKey n h)) (store d)) (faults d).

(** [removeRecord]: [Panic] is a slice out of range or one of the two
    [log.Crit] arms. *)
Definition removeRecord (record : CommitRecord) (st : pruner * Disk) : Outcome (pruner * Disk) :=
  let '(p, d) := st in
  let n := length (records p) in
  '(arr, m, found) ← removeLoop record n 0 (records p) n false;
  if negb found then Panic
  else if negb (checkRecords (take m arr)) then Panic
  else Ok (set_records (take m arr) p, DeleteCommitRecord d (number record) (hash record)).

(** Modelled from the spec: [CommitRecord.deleteStale] is not among the
    sources; it physically deletes exactly the superseded keys from the
    disk store, then deletes the record (through the callback it is given,
    [removeRecord]). *)
Definition deleteStale (record : CommitRecord) (st : pruner * Disk) : Outcome (pruner * Disk) :=
  let '(p, d) := st in
  let gone := staleKeys record (store d) in
  let d := mkDisk (foldl (fun s k => delete (gostring (trieNodeKey k)) s) (store d) gone) (faults d) in
  removeRecord record (p, d).

(** [pruning].  [interrupt j] is what the atomic load before the [j]-th
    record reads; [i] counts the records already handled.  The run is taken
    on its own, without a commit interleaved. *)
Fixpoint pruning (rs : list CommitRecord) (interrupt : nat -> bool) (i : nat)
    (st : pruner * Disk) : Outcome (pruner * Disk) :=
  match rs with
  | [] => Ok st
  | r :: rest =>
      if interrupt i then Ok st
      else if negb (IsCanonical (number r) (hash r)) then
        st ← removeRecord r st; pruning rest interrupt (S i) st
      else
        match readCommitRecord (store st.2) (number r) (hash r) with
        | None => st ← removeRecord r st; pruning rest interrupt (S i) st
        | Some record => st ← deleteStale record st; pruning rest interrupt (S i) st
        end
  end.

(** *** The loop *)

(** The three variables of [loop]: [paused]; [done], nil or a channel that
    is open ([Some false]) or closed by the run that ended ([Some true]);
    [interrupt], nil or the flag it points to. *)
Record loopState : Type := mkLoop {
  paused : bool;
  done : option bool;
  interrupt : option bool
}.

(** What the loop selects on. *)
Inductive event : Type :=
| Signal (n : Z)
| PauseReq
| ResumeReq
| DoneClosed.

(** The [p.signal] arm: the new state of the loop and the records of the
    run it starts, if it starts one. *)
Definition onSignal (n : Z) (p : pruner) (s : loopState) : loopState * option (list CommitRecord) :=
  if paused s then (s, None)
  else if bool_decide (done s <> None) then (s, None)
  else if n <? minBlockConfirms then (s, None)
  else
    let ret := filterRecords (wrap64 (n - minBlockConfirms)) p in
    match ret with
    | [] => (s, None)
    | _ => (mkLoop (paused s) (Some false) (Some false), Some ret)
    end.

(** One turn of the [select]; [Panic] is a [log.Crit] arm.  A pause that
    finds a run in flight raises the flag and waits for [done] to be
    closed. *)
Definition step (ev : event) (p : pruner) (s : loopState)
    : Outcome (loopState * option (list CommitRecord)) :=
  match ev with
  | Signal n => Ok (onSignal n p s)
  | PauseReq =>
      if paused s then Panic
      else match interrupt s with
           | Some false => Ok (mkLoop true (Some true) (Some true), None)
           | _ => Ok (mkLoop true (done s) (interrupt s), None)
           end
  | ResumeReq =>
      if negb (paused s) then Panic
      else match interrupt s with
           | Some false => Panic
           | _ => Ok (mkLoop false (done s) (interrupt s), None)
           end
  | DoneClosed => Ok (mkLoop (paused s) None None, None)
  end.

End WithEnv.
End Pruner.

(** ** The node cache *)

(** [metaRoot] *)
Definition metaRoot : string := ""%string.

(** [cachedNodeChildrenSize] *)
Definition cachedNodeChildrenSize : Z := 48.

(** [cachedNode]; [cnode] and [csize] are its fields [node] and [size], and
    [children] is [None] for a nil map. *)
Record cachedNode : Type := mkCachedNode {
  cnode : node;
  csize : Z;
  parents : Z;
  children : option (gmap string Z);
  flushPrev : string;
  flushNext : string
}.

Definition set_parents (v : Z) (x : cachedNode) : cachedNode :=
  {| cnode := cnode x;
     csize := csize x;
     parents := v;
     children := children x;
     flushPrev := flushPrev x;
     flushNext := flushNext x |}.

Definition set_children (v : option (gmap string Z)) (x : cachedNode) : cachedNode :=
  {| cnode := cnode x;
     csize := csize x;
     parents := parents x;
     children := v;
     flushPrev := flushPrev x;
     flushNext := flushNext x |}.

Definition set_flushPrev (v : string) (x : cachedNode) : cachedNode :=
  {| cnode := cnode x;
     csize := csize x;
     parents := parents x;
     children := children x;
     flushPrev := v;
     flushNext := flushNext x |}.

Definition set_flushNext (v : string) (x : cachedNode) : cachedNode :=
  {| cnode := cnode x;
     csize := csize x;
     parents := parents x;
     children := children x;
     flushPrev := flushPrev x;
     flushNext := v |}.

(** [Database]; [db_pruner] is its field [pruner], a [fastcache.Cache] is the
    map of what it holds, and [preimages] is keyed by the bytes of the hash.
    The two durations and the lock are left out. *)
Record Database : Type := mkDatabase {
  diskdb : Disk;
  cleans : option (gmap string (list byte));
  dirties : gmap string cachedNode;
  oldest : string;
  newest : string;
  preimages : option (gmap string (list byte));
  gcnodes : Z;
  gcsize : Z;
  flushnodes : Z;
  flushsize : Z;
  dirtiesSize : Z;
  childrenSize : Z;
  preimagesSize : Z;
  db_pruner : pruner
}.

Definition set_diskdb (v : Disk) (x : Database) : Database :=
  {| diskdb := v;
     cleans := cleans x;
     dirties := dirties x;
     oldest := oldest x;
     newest := newest x;
     preimages := preimages x;
     gcnodes := gcnodes x;
     gcsize := gcsize x;
     flushnodes := flushnodes x;
     flushsize := flushsize x;
     dirtiesSize := dirtiesSize x;
     childrenSize := childrenSize x;
     preimagesSize := preimagesSize x;
     db_pruner := db_pruner x |}.

Definition set_cleans (v : option (gmap string (list byte))) (x : Database) : Database :=
  {| diskdb := diskdb x;
     cleans := v;
     dirties := dirties x;
     oldest := oldest x;
     newest := newest x;
     preimages := preimages x;
     gcnodes := gcnodes x;
     gcsize := gcsize x;
     flushnodes := flushnodes x;
     flushsize := flushsize x;
     dirtiesSize := dirtiesSize x;
     childrenSize := childrenSize x;
     preimagesSize := preimagesSize x;
     db_pruner := db_pruner x |}.

Definition set_dirties (v : gmap string cachedNode) (x : Database) : Database :=
  {| diskdb := diskdb x;
     cleans := cleans x;
     dirties := v;
     oldest := oldest x;
     newest := newest x;
     preimages := preimages x;
     gcnodes := gcnodes x;
     gcsize := gcsize x;
     flushnodes := flushnodes x;
     flushsize := flushsize x;
     dirtiesSize := dirtiesSize x;
     childrenSize := childrenSize x;
     preimagesSize := preimagesSize x;
     db_pruner := db_pruner x |}.

Definition set_oldest (v : string) (x : Database) : Database :=
  {| diskdb := diskdb x;
     cleans := cleans x;
     dirties := dirties x;
     oldest := v;
     newest := newest x;
     preimages := preimages x;
     gcnodes := gcnodes x;
     gcsize := gcsize x;
     flushnodes := flushnodes x;
     flushsize := flushsize x;
     dirtiesSize := dirtiesSize x;
     childrenSize := childrenSize x;
     preimagesSize := preimagesSize x;
     db_pruner := db_pruner x |}.

Definition set_newest (v : string) (x : Database) : Database :=
  {| diskdb := diskdb x;
     cleans := cleans x;
     dirties := dirties x;
     oldest := oldest x;
     newest := v;
     preimages := preimages x;
     gcnodes := gcnodes x;
     gcsize := gcsize x;
     flushnodes := flushnodes x;
     flushsize := flushsize x;
     dirtiesSize := dirtiesSize x;
     childrenSize := childrenSize x;
     preimagesSize := preimagesSize x;
     db_pruner := db_pruner x |}.

Definition set_preimages (v : option (gmap string (list byte))) (x : Database) : Database :=
  {| diskdb := diskdb x;
     cleans := cleans x;
     dirties := dirties x;
     oldest := oldest x;
     newest := newest x;
     preimages := v;
     gcnodes := gcnodes x;
     gcsize := gcsize x;
     flushnodes := flushnodes x;
     flushsize := flushsize x;
     dirtiesSize := dirtiesSize x;
     childrenSize := childrenSize x;
     preimagesSize := preimagesSize x;
     db_pruner := db_pruner x |}.

Definition set_gcnodes (v : Z) (x : Database) : Database :=
  {| diskdb := diskdb x;
     cleans := cleans x;
     dirties := dirties x;
     oldest := oldest x;
     newest := newest x;
     preimages := preimages x;
     gcnodes := v;
     gcsize := gcsize x;
     flushnodes := flushnodes x;
     flushsize := flushsize x;
     dirtiesSize := dirtiesSize x;
     childrenSize := childrenSize x;
     preimagesSize := preimagesSize x;
     db_pruner := db_pruner x |}.

Definition set_gcsize (v : Z) (x : Database) : Database :=
  {| diskdb := diskdb x;
     cleans := cleans x;
     dirties := dirties x;
     oldest := oldest x;
     newest := newest x;
     preimages := preimages x;
     gcnodes := gcnodes x;
     gcsize := v;
     flushnodes := flushnodes x;
     flushsize := flushsize x;
     dirtiesSize := dirtiesSize x;
     childrenSize := childrenSize x;
     preimagesSize := preimagesSize x;
     db_pruner := db_pruner x |}.

Definition set_flushnodes (v : Z) (x : Database) : Database :=
  {| diskdb := diskdb x;
     cleans := cleans x;
     dirties := dirties x;
     oldest := oldest x;
     newest := newest x;
     preimages := preimages x;
     gcnodes := gcnodes x;
     gcsize := gcsize x;
     flushnodes := v;
     flushsize := flushsize x;
     dirtiesSize := dirtiesSize x;
     childrenSize := childrenSize x;
     preimagesSize := preimagesSize x;
     db_pruner := db_pruner x |}.

Definition set_flushsize (v : Z) (x : Database) : Database :=
  {| diskdb := diskdb x;
     cleans := cleans x;
     dirties := dirties x;
     oldest := oldest x;
     newest := newest x;
     preimages := preimages x;
     gcnodes := gcnodes x;
     gcsize := gcsize x;
     flushnodes := flushnodes x;
     flushsize := v;
     dirtiesSize := dirtiesSize x;
     childrenSize := childrenSize x;
     preimagesSize := preimagesSize x;
     db_pruner := db_pruner x |}.

Definition set_dirtiesSize (v : Z) (x : Database) : Database :=
  {| diskdb := diskdb x;
     cleans := cleans x;
     dirties := dirties x;
     oldest := oldest x;
     newest := newest x;
     preimages := preimages x;
     gcnodes := gcnodes x;
     gcsize := gcsize x;
     flushnodes := flushnodes x;
     flushsize := flushsize x;
     dirtiesSize := v;
     childrenSize := childrenSize x;
     preimagesSize := preimagesSize x;
     db_pruner := db_pruner x |}.

Definition set_childrenSize (v : Z) (x : Database) : Database :=
  {| diskdb := diskdb x;
     cleans := cleans x;
     dirties := dirties x;
     oldest := oldest x;
     newest := newest x;
     preimages := preimages x;
     gcnodes := gcnodes x;
     gcsize := gcsize x;
     flushnodes := flushnodes x;
     flushsize := flushsize x;
     dirtiesSize := dirtiesSize x;
     childrenSize := v;
     preimagesSize := preimagesSize x;
     db_pruner := db_pruner x |}.

Definition set_preimagesSize (v : Z) (x : Database) : Database :=
  {| diskdb := diskdb x;
     cleans := cleans x;
     dirties := dirties x;
     oldest := oldest x;
     newest := newest x;
     preimages := preimages x;
     gcnodes := gcnodes x;
     gcsize := gcsize x;
     flushnodes := flushnodes x;
     flushsize := flushsize x;
     dirtiesSize := dirtiesSize x;
     childrenSize := childrenSize x;
     preimagesSize := v;
     db_pruner := db_pruner x |}.

Definition set_db_pruner (v : pruner) (x : Database) : Database :=
  {| diskdb := diskdb x;
     cleans := cleans x;
     dirties := dirties x;
     oldest := oldest x;
     newest := newest x;
     preimages := preimages x;
     gcnodes := gcnodes x;
     gcsize := gcsize x;
     flushnodes := flushnodes x;
     flushsize := flushsize x;
     dirtiesSize := dirtiesSize x;
     childrenSize := childrenSize x;
     preimagesSize := preimagesSize x;
     db_pruner := v |}.

Module Trie.
Section WithEnv.
Context `{E : Env}.

(** [len(m)] for a map that may be nil *)
Definition lenChildren (c : option (gmap string Z)) : Z :=
  match c with
  | Some m => Z.of_nat (size m)
  | None => 0
  end.

(** [m[k]] for a map that may be nil: a missing key reads as zero *)
Definition childCount (c : option (gmap string Z)) (k : string) : Z :=
  match c with
  | Some m => default 0 (m !! k)
  | None => 0
  end.

(** A loop body run over a list, left at the first error. *)
Fixpoint forEach {A S : Type} (l : list A) (f : A -> S -> Outcome (error * S)) (s : S)
    : Outcome (error * S) :=
  match l with
  | [] => Ok (None, s)
  | a :: rest =>
      '(err, s) ← f a s;
      match err with
      | Some e => Ok (Some e, s)
      | None => forEach rest f s
      end
  end.

(** The loop of [iterateRefs] over a full node, given the walk of a
    child: the first sixteen entries, each with its index added to the
    path. *)
Definition walkChildren (walk : node -> list byte -> list refStep) (path : list byte)
    : list node -> nat -> list refStep :=
  fix go (cs : list node) (i : nat) : list refStep :=
    match cs with
    | [] => []
    | c :: rest =>
        if (16 <=? i)%nat then []
        else walk c (path ++ [nibble i]) ++ go rest (S i)
    end.

(** The walk of [iterateRefs] over a node: the hash nodes it calls the
    callback on, in order, with their paths. *)
Fixpoint walkRefs (n : node) (path : list byte) : list refStep :=
  match n with
  | rawShortNode k v => walkRefs v (path ++ k)
  | rawFullNode cs => walkChildren walkRefs path cs 0%nat
  | hashNode h => [Visit path (BytesToHash h)]
  | valueNode _ => []
  | nilNode => []
  | shortNode _ _ => [Unknown]
  | fullNode _ => [Unknown]
  end.

(** [iterateRefs]: the callback is run along the walk, which ends at the
    first error, and panics where the type switch does. *)
Definition iterateRefs {S : Type} (n : node) (path : list byte)
    (onHashNode : list byte -> Hash -> S -> Outcome (error * S)) (s : S)
    : Outcome (error * S) :=
  forEach (walkRefs n path)
    (fun st s => match st with
                 | Visit p h => onHashNode p h s
                 | Unknown => Panic
                 end) s.

(** The loop of [simplifyNode] over the children of a full node: the
    entries that are not nil are simplified. *)
Definition simplifyChildren (simplify : node -> option node)
    : list node -> option (list node) :=
  fix go (cs : list node) : option (list node) :=
    match cs with
    | [] => Some []
    | c :: rest =>
        match (match c with
               | nilNode => Some nilNode
               | _ => simplify c
               end), go rest with
        | Some c', Some rest' => Some (c' :: rest')
        | _, _ => None
        end
    end.

(** [simplifyNode]; [None] is the panic of the [default] arm. *)
Fixpoint simplifyNode (n : node) : option node :=
  match n with
  | shortNode k v =>
      match simplifyNode v with
      | Some v' => Some (rawShortNode (compactToHex k) v')
      | None => None
      end
  | fullNode cs =>
      match simplifyChildren simplifyNode cs with
      | Some cs' => Some (rawFullNode cs')
      | None => None
      end
  | valueNode _ => Some n
  | hashNode _ => Some n
  | _ => None
  end.

(** [NewDatabaseWithConfig], given the disk, the clean cache, whether
    preimages are recorded, and the pruner [newPruner] returns. *)
Definition NewDatabase (d : Disk) (cl : option (gmap string (list byte)))
    (withPreimages : bool) (p : pruner) : Database :=
  {| diskdb := d;
     cleans := cl;
     dirties := {[ metaRoot := mkCachedNode nilNode 0 0 (Some ∅) metaRoot metaRoot ]};
     oldest := metaRoot;
     newest := metaRoot;
     preimages := if withPreimages then Some ∅ else None;
     gcnodes := 0; gcsize := 0; flushnodes := 0; flushsize := 0;
     dirtiesSize := 0; childrenSize := 0; preimagesSize := 0;
     db_pruner := p |}.

(** A write through the pointer [db.dirties[k]]. *)
Definition update (k : string) (f : cachedNode -> cachedNode) (db : Database) : Outcome Database :=
  c ← deref (dirties db !! k);
  Ok (set_dirties (<[k := f c]> (dirties db)) db).

(** The callback of [insert]: one more parent for a resident child. *)
Definition addParent (owner : Hash) (childPath : list byte) (child : Hash) (db : Database)
    : Outcome (error * Database) :=
  let key := gostring (EncodeNodeKey owner childPath child) in
  match dirties db !! key with
  | Some c => Ok (None, set_dirties (<[key := set_parents (wrap32 (parents c + 1)) c]> (dirties db)) db)
  | None => Ok (None, db)
  end.

(** The keys of the hash nodes of a walk, as [insert] looks them up, and
    the number of times a key is among them. *)
Definition refKeys (owner : Hash) (steps : list refStep) : list string :=
  omap (fun st => match st with
                  | Visit p h => Some (gostring (EncodeNodeKey owner p h))
                  | Unknown => None
                  end) steps.

Definition occurrences (k : string) (ks : list string) : nat :=
  length (List.filter (fun x => bool_decide (x = k)) ks).

(** An entry after [times] runs of [parents++]. *)
Definition bumped (times : nat) (c : cachedNode) : cachedNode :=
  set_parents (Nat.iter times (fun p => wrap32 (p + 1)) (parents c)) c.

(** [insert]; the meter is not modelled. *)
Definition insert (owner : Hash) (path : list byte) (hash : Hash) (size : Z) (n : node)
    (db : Database) : Outcome Database :=
  let key := gostring (EncodeNodeKey owner path hash) in
  match dirties db !! key with
  | Some _ => Ok db
  | None =>
      n' ← deref (simplifyNode n);
      let entry := mkCachedNode n' (wrap16 size) 0 None (newest db) metaRoot in
      '(_, db) ← iterateRefs n' path (addParent owner) db;
      let db := set_dirties (<[key := entry]> (dirties db)) db in
      db ← (if decide (oldest db = metaRoot)
            then Ok (set_newest key (set_oldest key db))
            else db ← update (newest db) (set_flushNext key) db;
                 Ok (set_newest key db));
      Ok (set_dirtiesSize (dirtiesSize db + wrap16 (HashLength + csize entry)) db)
  end.

(** [reference] *)
Definition reference (owner child parent : Hash) (parentPath : list byte) (db : Database)
    : Outcome Database :=
  let childKey := gostring (EncodeNodeKey owner [] child) in
  match dirties db !! childKey with
  | None => Ok db
  | Some _ =>
      let parentKey := gostring (EncodeNodeKey zeroHash parentPath parent) in
      p ← deref (dirties db !! parentKey);
      let bump (db : Database) : Outcome Database :=
        db ← update childKey (fun c => set_parents (wrap32 (parents c + 1)) c) db;
        db ← update parentKey
               (fun c => set_children
                           (Some (<[childKey := wrap16 (childCount (children c) childKey + 1)]>
                                    (default ∅ (children c)))) c) db;
        p ← deref (dirties db !! parentKey);
        if childCount (children p) childKey =? 1
        then Ok (set_childrenSize (childrenSize db + (HashLength + 2)) db)
        else Ok db in
      match children p with
      | None =>
          db ← update parentKey (set_children (Some ∅)) db;
          bump (set_childrenSize (childrenSize db + cachedNodeChildrenSize) db)
      | Some cs =>
          if bool_decide (is_Some (cs !! childKey)) && bool_decide (parent <> zeroHash)
          then Ok db
          else bump db
      end
  end.

(** [Reference] *)
Definition Reference (owner child parent : Hash) (parentPath : list byte) (db : Database)
    : Outcome Database :=
  reference owner child parent parentPath db.

(** The [switch] that takes a node out of the flush-list, the same in
    [dereference] and in [cleaner.Put]. *)
Definition unlink (key : string) (n : cachedNode) (db : Database) : Outcome Database :=
  if decide (key = oldest db) then
    update (flushNext n) (set_flushPrev metaRoot) (set_oldest (flushNext n) db)
  else if decide (key = newest db) then
    update (flushPrev n) (set_flushNext metaRoot) (set_newest (flushPrev n) db)
  else
    db ← update (flushPrev n) (set_flushNext (flushNext n)) db;
    update (flushNext n) (set_flushPrev (flushPrev n)) db.

(** The first step of [dereference]: one reference less from the parent
    to the child, the entry gone from its [children] when none is left. *)
Definition dropEdge (parentKey childKey : string) (db : Database) : Outcome Database :=
  parent ← deref (dirties db !! parentKey);
  match children parent with
  | Some cs =>
      if 0 <? childCount (Some cs) childKey then
        let c := childCount (Some cs) childKey - 1 in
        if c =? 0 then
          Ok (set_childrenSize (childrenSize db - (HashLength + 2))
                (set_dirties (<[parentKey := set_children (Some (delete childKey cs)) parent]>
                                (dirties db)) db))
        else
          Ok (set_dirties (<[parentKey := set_children (Some (<[childKey := c]> cs)) parent]>
                             (dirties db)) db)
      else Ok db
  | None => Ok db
  end.

(** What [dereference] leaves of a parent count: one less, and zero stays
    zero. *)
Definition decParents (p : Z) : Z := if 0 <? p then p - 1 else p.

(** The end of a cascade in [dereference]: the node leaves the map and
    the counters. *)
Definition dropNode (childKey : string) (child : cachedNode) (db : Database) : Database :=
  let db := set_dirties (delete childKey (dirties db)) db in
  let db := set_dirtiesSize (dirtiesSize db - (HashLength + csize child)) db in
  match children child with
  | Some _ => set_childrenSize (childrenSize db - cachedNodeChildrenSize) db
  | None => db
  end.

(** [dereference].  The size of the child and whether it has a
    [children] map, read after the cascade in the source, are read from the
    entry before it: neither changes on the way. *)
Fixpoint dereference (fuel : nat) (childOwner childHash : Hash) (childPath : list byte)
    (parentOwner parentHash : Hash) (parentPath : list byte) (db : Database)
    : Outcome Database :=
  match fuel with
  | O => OutOfFuel
  | S fuel' =>
      let parentKey := gostring (EncodeNodeKey parentOwner parentPath parentHash) in
      let childKey := gostring (EncodeNodeKey childOwner childPath childHash) in
      db ← dropEdge parentKey childKey db;
      match dirties db !! childKey with
      | None => Ok db
      | Some child =>
          let child := set_parents (decParents (parents child)) child in
          let db := set_dirties (<[childKey := child]> (dirties db)) db in
          if parents child =? 0 then
            db ← unlink childKey child db;
            '(_, db) ← iterateRefs (cnode child) childPath
                         (fun innerPath innerHash db =>
                            db ← dereference fuel' childOwner innerHash innerPath
                                   childOwner childHash childPath db;
                            Ok (None, db)) db;
            Ok (dropNode childKey child db)
          else Ok db
      end
  end.

(** [Dereference]; the log lines and the timers are not modelled. *)
Definition Dereference (fuel : nat) (root : Hash) (db : Database) : Outcome Database :=
  if decide (root = zeroHash) then Ok db
  else
    let nodes := Z.of_nat (size (dirties db)) in
    let storage := dirtiesSize db in
    db ← dereference fuel zeroHash root [] zeroHash zeroHash [] db;
    let db := set_gcnodes (wrap64 (gcnodes db + wrap64 (nodes - Z.of_nat (size (dirties db))))) db in
    Ok (set_gcsize (gcsize db + (storage - dirtiesSize db)) db).

(** [Size] *)
Definition Size (db : Database) : Outcome (Z * Z) :=
  meta ← deref (dirties db !! metaRoot);
  let metadataSize := (Z.of_nat (size (dirties db)) - 1) * cachedNodeSize in
  let metarootRefs := lenChildren (children meta) * (HashLength + 2) in
  Ok (dirtiesSize db + childrenSize db + metadataSize - metarootRefs, preimagesSize db).

(** *** Flushing to disk *)

(** Modelled from the spec: [batch.ValueSize()], the bytes queued. *)
Definition ValueSize (b : Batch) : Z :=
  foldr (fun kv acc => putSize kv.1 kv.2 + acc) 0 b.

(** Modelled from the spec: [rawdb.WritePreimages] into an empty batch; one
    [Put] for each entry of the map, in the order [map_to_list] gives. *)
Definition WritePreimages (pre : gmap string (list byte)) : Batch :=
  (fun kv => (preimageKey (list_byte_of_string kv.1), kv.2)) <$> map_to_list pre.

(** [writeNode], on the batch and the pruner *)
Definition writeNode (b : Batch) (owner : Hash) (path : list byte) (hash : Hash)
    (blob : list byte) (partial : bool) (p : pruner) : error * Batch * pruner :=
  let key := EncodeNodeKey owner path hash in
  let '(err, p) := Pruner.addKey key partial p in
  match err with
  | Some e => (Some e, b, p)
  | None => (None, b ++ [(trieNodeKey key, blob)], p)
  end.

(** [flushMarker] followed by [batch.Write()], as [Cap] and [commit] run
    them on a full batch and at their end. *)
Definition flushBatch (b : Batch) (p : pruner) (d : Disk) : error * Batch * Disk :=
  let '(err, extra) := flushMarker p in
  match err with
  | Some e => (Some e, b, d)
  | None =>
      let b := b ++ extra in
      let '(err, d) := batchWrite b d in
      (err, b, d)
  end.

(** What leaving the dirty cache takes off the running total of [Cap] *)
Definition childrenCost (n : cachedNode) : Z :=
  match children n with
  | Some m => cachedNodeChildrenSize + Z.of_nat (size m) * (HashLength + 2)
  | None => 0
  end.

(** The state of the first loop of [Cap]: the running [size], the node
    reached, the batch, the pruner and the disk. *)
Record capState : Type := mkCapState {
  cap_size : Z;
  cap_oldest : string;
  cap_batch : Batch;
  cap_pruner : pruner;
  cap_disk : Disk
}.

(** The first loop of [Cap]: nodes are queued from the head of the
    flush-list until the total is within the limit or the list ends. *)
Fixpoint capWalk (fuel : nat) (limit : Z) (d : gmap string cachedNode) (s : capState)
    : Outcome (error * capState) :=
  match fuel with
  | O => OutOfFuel
  | S fuel' =>
      if (limit <? cap_size s) && negb (bool_decide (cap_oldest s = metaRoot)) then
        n ← deref (d !! cap_oldest s);
        let '(owner, path, hash) := DecodeNodeKey (list_byte_of_string (cap_oldest s)) in
        let '(err, b, p) := writeNode (cap_batch s) owner path hash (rlpEncode (cnode n)) true
                              (cap_pruner s) in
        match err with
        | Some e => Ok (Some e, mkCapState (cap_size s) (cap_oldest s) b p (cap_disk s))
        | None =>
            let '(err, b, dk) :=
              if IdealBatchSize <=? ValueSize b then
                let '(err, b, dk) := flushBatch b p (cap_disk s) in
                match err with
                | Some e => (Some e, b, dk)
                | None => (None, [], dk)
                end
              else (None, b, cap_disk s) in
            match err with
            | Some e => Ok (Some e, mkCapState (cap_size s) (cap_oldest s) b p dk)
            | None =>
                let total := cap_size s - (HashLength + csize n + cachedNodeSize) - childrenCost n in
                capWalk fuel' limit d (mkCapState total (flushNext n) b p dk)
            end
        end
      else Ok (None, s)
  end.

(** The second loop of [Cap]: what was written leaves the cache. *)
Fixpoint capUncache (fuel : nat) (target : string) (db : Database) : Outcome Database :=
  match fuel with
  | O => OutOfFuel
  | S fuel' =>
      if bool_decide (oldest db = target) then Ok db
      else
        n ← deref (dirties db !! oldest db);
        let db := set_dirties (delete (oldest db) (dirties db)) db in
        let db := set_oldest (flushNext n) db in
        let db := set_dirtiesSize (dirtiesSize db - (HashLength + csize n)) db in
        let db := set_childrenSize (childrenSize db - childrenCost n) db in
        capUncache fuel' target db
  end.

(** The start of [Cap]: a preimage cache that got large goes into the
    batch, which is written at once if that fills it. *)
Definition capPreimages (flushPreimages : bool) (db : Database) : error * Batch * Disk :=
  match flushPreimages, preimages db with
  | true, Some pre =>
      let b := WritePreimages pre in
      if IdealBatchSize <? ValueSize b then
        let '(err, dk) := batchWrite b (diskdb db) in
        match err with
        | Some e => (Some e, b, dk)
        | None => (None, [], dk)
        end
      else (None, b, diskdb db)
  | _, _ => (None, [], diskdb db)
  end.

(** [Cap]; a returned error comes with the database as the call leaves
    it.  The log lines and the timers are not modelled. *)
Definition Cap (fuel : nat) (limit : Z) (db : Database) : Outcome (error * Database) :=
  let nodes := Z.of_nat (size (dirties db)) in
  let storage := dirtiesSize db in
  meta ← deref (dirties db !! metaRoot);
  let total := dirtiesSize db + (nodes - 1) * cachedNodeSize in
  let total := total + (childrenSize db - lenChildren (children meta) * (HashLength + 2)) in
  let flushPreimages := 4 * 1024 * 1024 <? preimagesSize db in
  let '(err, b, dk) := capPreimages flushPreimages db in
  match err with
  | Some e => Ok (Some e, set_diskdb dk db)
  | None =>
      '(err, s) ← capWalk fuel limit (dirties db)
                    (mkCapState total (oldest db) b (db_pruner db) dk);
      let db := set_db_pruner (cap_pruner s) (set_diskdb (cap_disk s) db) in
      match err with
      | Some e => Ok (Some e, db)
      | None =>
          let '(err, _, dk) := flushBatch (cap_batch s) (cap_pruner s) (cap_disk s) in
          let db := set_diskdb dk db in
          match err with
          | Some e => Ok (Some e, db)
          | None =>
              let db :=
                match flushPreimages, preimages db with
                | true, Some _ => set_preimagesSize 0 (set_preimages (Some ∅) db)
                | _, _ => db
                end in
              db ← capUncache fuel (cap_oldest s) db;
              db ← (if bool_decide (oldest db = metaRoot) then Ok db
                    else update (oldest db) (set_flushPrev metaRoot) db);
              let db := set_flushnodes
                          (wrap64 (flushnodes db + wrap64 (nodes - Z.of_nat (size (dirties db))))) db in
              Ok (None, set_flushsize (flushsize db + (storage - dirtiesSize db)) db)
          end
      end
  end.

(** [cleaner.Put] *)
Definition cleanerPut (key rlp : list byte) (db : Database) : Outcome (error * Database) :=
  let '(ok, rawKey) := IsStateTrieNodeKey key in
  if negb ok then Ok (Some "unexpected data"%string, db)
  else
    let nodeKey := gostring rawKey in
    match dirties db !! nodeKey with
    | None => Ok (None, db)
    | Some n =>
        db ← unlink nodeKey n db;
        let db := set_dirties (delete nodeKey (dirties db)) db in
        let db := set_dirtiesSize (dirtiesSize db - (HashLength + csize n)) db in
        let db := set_dirtiesSize (dirtiesSize db - childrenCost n) db in
        Ok (None, match cleans db with
                  | Some cl => set_cleans (Some (<[gostring rawKey := rlp]> cl)) db
                  | None => db
                  end)
    end.

(** [batch.Replay(uncacher)]: the queued entries are handed to
    [cleaner.Put] in order, up to the first one it refuses. *)
Definition Replay (b : Batch) (db : Database) : Outcome (error * Database) :=
  forEach b (fun kv db => cleanerPut kv.1 kv.2 db) db.

(** [commit], on the batch and the database.  The external children are
    visited in the order [map_to_list] gives; the callback handed to
    [Commit] is not modelled. *)
Fixpoint commit (fuel : nat) (owner : Hash) (path : list byte) (hash : Hash)
    (st : Batch * Database) : Outcome (error * (Batch * Database)) :=
  match fuel with
  | O => OutOfFuel
  | S fuel' =>
      let byteKey := EncodeNodeKey owner path hash in
      match dirties st.2 !! gostring byteKey with
      | None => Ok (None, st)
      | Some n =>
          '(err, st) ← iterateRefs (cnode n) path
                         (fun childPath childHash st => commit fuel' owner childPath childHash st) st;
          match err with
          | Some e => Ok (Some e, st)
          | None =>
              '(err, st) ← forEach (map_to_list (default ∅ (children n))).*1
                             (fun child st =>
                                let '(o, p, h) := DecodeNodeKey (list_byte_of_string child) in
                                commit fuel' o p h st) st;
              match err with
              | Some e => Ok (Some e, st)
              | None =>
                  let '(b, db) := st in
                  let '(err, b, p) := writeNode b owner path hash (rlpEncode (cnode n)) false
                                        (db_pruner db) in
                  let db := set_db_pruner p db in
                  match err with
                  | Some e => Ok (Some e, (b, db))
                  | None =>
                      if IdealBatchSize <=? ValueSize b then
                        let '(err, b, dk) := flushBatch b p (diskdb db) in
                        let db := set_diskdb dk db in
                        match err with
                        | Some e => Ok (Some e, (b, db))
                        | None =>
                            '(_, db) ← Replay b db;
                            Ok (None, ([], db))
                        end
                      else Ok (None, (b, db))
                  end
              end
          end
      end
  end.

(** [CommitWithMetadata]; [report] and [callback] are not modelled. *)
Definition CommitWithMetadata (fuel : nat) (number : Z) (hash root : Hash) (db : Database)
    : Outcome (error * Database) :=
  let '(err, dk) :=
    match preimages db with
    | Some pre => batchWrite (WritePreimages pre) (diskdb db)
    | None => (None, diskdb db)
    end in
  let db := set_diskdb dk db in
  match err with
  | Some e => Ok (Some e, db)
  | None =>
      let writeMeta := negb (number =? 0) && bool_decide (hash <> zeroHash) in
      p ← (if writeMeta then Pruner.commitStart number hash (db_pruner db)
           else Ok (db_pruner db));
      let db := set_db_pruner p db in
      '(err, (b, db)) ← commit fuel zeroHash [] root ([], db);
      match err with
      | Some e => Ok (Some e, db)
      | None =>
          let '(err, b, dk) := flushBatch b (db_pruner db) (diskdb db) in
          let db := set_diskdb dk db in
          match err with
          | Some e => Ok (Some e, db)
          | None =>
              '(_, db) ← Replay b db;
              '(err, db) ← (if writeMeta then
                              '(err, p, dk) ← Pruner.commitEnd (db_pruner db) (diskdb db);
                              Ok (err, set_diskdb dk (set_db_pruner p db))
                            else Ok (None, db));
              match err with
              | Some e => Ok (Some e, db)
              | None =>
                  let db := match preimages db with
                            | Some _ => set_preimagesSize 0 (set_preimages (Some ∅) db)
                            | None => db
                            end in
                  let db := set_gcsize 0 (set_gcnodes 0 db) in
                  Ok (None, set_flushsize 0 (set_flushnodes 0 db))
              end
          end
      end
  end.

(** [Commit] *)
Definition Commit (fuel : nat) (root : Hash) (db : Database) : Outcome (error * Database) :=
  CommitWithMetadata fuel 0 zeroHash root db.

(** *** Stating what [Cap] reaches *)

(** The flush-list from the node [k] on is the list [l] of keys, each
    with an entry whose [flushNext] is the next one, and ends at the meta
    root. *)
Fixpoint flushChain (d : gmap string cachedNode) (k : string) (l : list string) : Prop :=
  match l with
  | [] => k = metaRoot
  | x :: rest =>
      k = x /\ x <> metaRoot /\
      match d !! x with
      | Some c => flushChain d (flushNext c) rest
      | None => False
      end
  end.

(** What one node adds to the total [Cap] compares with its limit, and
    the sum over a list of keys. *)
Definition nodeCost (c : cachedNode) : Z :=
  HashLength + csize c + cachedNodeSize + childrenCost c.

Definition chainCost (d : gmap string cachedNode) (l : list string) : Z :=
  foldr (fun k acc => from_option nodeCost 0 (d !! k) + acc) 0 l.

(** The total of [Size], without the share of the meta root. *)
Definition tracked (db : Database) : Z :=
  dirtiesSize db + childrenSize db + Z.of_nat (size (dirties db)) * cachedNodeSize.

(** *** Stating what a flush leaves behind *)

(** The disk holds a trie node entry for the key of a cached node. *)
Definition durable (s : gmap string (list byte)) (k : string) : Prop :=
  exists dk raw,
    IsStateTrieNodeKey dk = (true, raw) /\ gostring raw = k /\ is_Some (s !! gostring dk).

(** From [db] to [db'], every node that left the dirty map is on the
    disk, and the disk has lost no key. *)
Definition flushedOnly (db db' : Database) : Prop :=
  (forall k, is_Some (dirties db !! k) -> dirties db' !! k = None ->
             durable (store (diskdb db')) k) /\
  (forall dk, is_Some (store (diskdb db) !! dk) -> is_Some (store (diskdb db') !! dk)).

End WithEnv.
End Trie.

(** ** A concrete setting

    Instances of the collaborators and small databases, on which the model
    runs. *)

Module Examples.

(** [common.BytesToHash]: the last 32 bytes, padded with zeros on the
    left. *)
Definition bytesToHash (b : list byte) : Hash :=
  let b := drop (length b - 32) b in
  repeat x00 (32 - length b) ++ b.

(** The key format of the spec, with the meta root on the empty key: this
    is the key [Dereference] looks the parent of a root up under, and the
    one [NewDatabaseWithConfig] stores the meta root under. *)
Definition encodeKey (owner : Hash) (path : list byte) (h : Hash) : list byte :=
  if bool_decide (owner = zeroHash /\ path = [] /\ h = zeroHash) then []
  else NodeKey.encode owner path h.

Definition decodeKey (key : list byte) : Hash * list byte * Hash :=
  match key with
  | [] => (zeroHash, [], zeroHash)
  | _ => NodeKey.decode key
  end.

(** The eight bytes of a block number, most significant first. *)
Definition be64 (n : Z) : list byte :=
  (fun i => nibble (Z.to_nat ((n / 256 ^ Z.of_nat i) mod 256))) <$> rev (seq 0 8).

(** A stand-in for the RLP encoding: the content of a value node, the
    hash of a hash node, and one byte for every other node. *)
Definition blob (n : node) : list byte :=
  match n with
  | valueNode v => v
  | hashNode h => h
  | _ => [x80]
  end.

(** A [finalize] that persists the record when it has keys, or fails when
    [bad] is set. *)
Definition finalizeWith (bad : bool) (c : CommitRecord) (partial clean : list (list byte))
    (s : gmap string (list byte)) : Finalized :=
  if bad then mkFinalized 0 0 false (Some "record not persisted"%string) c []
  else mkFinalized 0 0 (negb (bool_decide (Keys c = []))) None c
         [("r"%byte :: be64 (number c) ++ hash c, concat (Keys c))].

(** Collaborators for the examples: [canon] is the canonicality oracle,
    [ideal] the batch size that triggers a write, [bad] makes persisting a
    commit record fail. *)
Definition env (canon : Z -> Hash -> bool) (ideal : Z) (bad : bool) : Env :=
  {| EncodeNodeKey := encodeKey;
     DecodeNodeKey := decodeKey;
     BytesToHash := bytesToHash;
     compactToHex := fun k => k;
     rlpEncode := blob;
     cachedNodeSize := 64;
     IdealBatchSize := ideal;
     putSize := fun _ v => Z.of_nat (length v);
     trieNodeKey := fun k => "t"%byte :: k;
     IsStateTrieNodeKey := fun k => match k with
                                    | "t"%byte :: raw => (true, raw)
                                    | _ => (false, [])
                                    end;
     preimageKey := fun h => "s"%byte :: h;
     commitRecordKey := fun n h => "r"%byte :: be64 n ++ h;
     IsCanonical := canon;
     recordAdd := fun c k => mkCommitRecord (number c) (hash c) (Keys c ++ [k]);
     finalize := finalizeWith bad;
     readCommitRecord := fun s n h =>
       match s !! gostring ("r"%byte :: be64 n ++ h) with
       | Some _ => Some (mkCommitRecord n h [])
       | None => None
       end;
     staleKeys := fun _ _ => [];
     flushMarker := fun _ => (None, []) |}.

(** [ethdb.IdealBatchSize] is 100 KiB. *)
Definition stdEnv : Env := env (fun _ _ => true) (100 * 1024) false.

Definition hashOf (b : byte) : Hash := repeat b 32.

Definition emptyDisk : Disk := mkDisk ∅ [].

Definition prunerOf (maxRecords : Z) (rs : list CommitRecord) : pruner :=
  mkPruner maxRecords [] [] None rs
    (match rs with r :: _ => number r | [] => 18446744073709551615 end) 0 0 0 0.

(** Records of the blocks 10 and 20, and a disk that holds both. *)
Definition rec10 : CommitRecord := mkCommitRecord 10 (hashOf "1") [].
Definition rec20 : CommitRecord := mkCommitRecord 20 (hashOf "2") [].

Definition recordDisk : Disk :=
  mkDisk (<[gostring ("r"%byte :: be64 10 ++ hashOf "1") := []]>
            (<[gostring ("r"%byte :: be64 20 ++ hashOf "2") := []]> ∅)) [].

(** Block 10 has left the canonical chain. *)
Definition sideEnv : Env := env (fun n _ => negb (n =? 10)) (100 * 1024) false.

(** A fresh database, without a clean cache and without preimages. *)
Definition db0 : Database :=
  @Trie.NewDatabase emptyDisk None false (prunerOf 10 []).


(** The database an outcome holds ([db0] when there is none). *)
Definition run (o : Outcome Database) : Database :=
  match o with
  | Ok db => db
  | _ => db0
  end.

(** Two roots that share a leaf: [hR1] and [hR2] are full nodes whose
    first child is the hash of the leaf [hX]; both roots are referenced
    from the meta root. *)
Definition hX : Hash := hashOf "x".
Definition hR1 : Hash := hashOf "1".
Definition hR2 : Hash := hashOf "2".

Definition sharedDb : Database :=
  run (db ← @Trie.insert stdEnv zeroHash [x00] hX 10 (valueNode [x2a]) db0;
       db ← @Trie.insert stdEnv zeroHash [] hR1 40 (fullNode [hashNode hX; valueNode [x01]]) db;
       db ← @Trie.insert stdEnv zeroHash [] hR2 40 (fullNode [hashNode hX; valueNode [x02]]) db;
       db ← @Trie.reference stdEnv zeroHash hR1 zeroHash [] db;
       @Trie.reference stdEnv zeroHash hR2 zeroHash [] db).

(** The entry a key has in a database (an empty one when it has none). *)
Definition entryOf (k : string) (db : Database) : cachedNode :=
  default (mkCachedNode nilNode 0 0 None metaRoot metaRoot) (dirties db !! k).

Definition keyOf (owner : Hash) (path : list byte) (h : Hash) : string :=
  gostring (encodeKey owner path h).

(** A leaf [hA] that the meta root references once. *)
Definition hA : Hash := hashOf "a".

Definition rootedDb : Database :=
  run (db ← @Trie.insert stdEnv zeroHash [] hA 10 (valueNode [x01; x02]) db0;
       @Trie.reference stdEnv zeroHash hA zeroHash [] db).

(** A root with eleven leaves of 10000 bytes each, on a disk whose first
    write succeeds and whose second fails.  The eleventh leaf takes the
    batch over [IdealBatchSize]. *)
Definition letter (i : nat) : byte := nibble (97 + i).
Definition leafHash (i : nat) : Hash := hashOf (letter i).
Definition leafBlob (i : nat) : list byte := repeat (letter i) (Z.to_nat 10000).
Definition hRoot : Hash := hashOf "R".

Definition leafyDb : Database :=
  run (db ← foldl (fun o i =>
                     db ← o;
                     @Trie.insert stdEnv zeroHash [nibble i] (leafHash i) 10000
                       (valueNode (leafBlob i)) db)
             (Ok (set_diskdb (mkDisk ∅ [false; true]) db0)) (seq 0 11);
       db ← @Trie.insert stdEnv zeroHash [] hRoot 400
              (fullNode (hashNode ∘ leafHash <$> seq 0 11)) db;
       @Trie.reference stdEnv zeroHash hRoot zeroHash [] db).

(** What [Commit] of that root leaves. *)
Definition leafyAfter : Database :=
  match @Trie.Commit stdEnv 10 hRoot leafyDb with
  | Ok (_, db) => db
  | _ => db0
  end.

(** An account leaf [hP] at the root of the state trie, with the root
    [hC] of its storage trie as an external child; the account trie is
    referenced from the meta root, then dereferenced. *)
Definition hP : Hash := hashOf "p".
Definition hC : Hash := hashOf "c".
Definition hO : Hash := hashOf "o".

(** The account leaf with its external child, before any root is set. *)
Definition linkedDb : Database :=
  run (db ← @Trie.insert stdEnv hO [] hC 40 (valueNode [x01]) db0;
       db ← @Trie.insert stdEnv zeroHash [] hP 70 (valueNode [x02]) db;
       @Trie.reference stdEnv hO hC hP [] db).

(** The same, with the account leaf referenced from the meta root. *)
Definition accountDb : Database :=
  run (@Trie.reference stdEnv zeroHash hP zeroHash [] linkedDb).

(** [accountDb] after [Dereference] of the account leaf. *)
Definition orphanDb : Database :=
  run (db ← @Trie.insert stdEnv hO [] hC 40 (valueNode [x01]) db0;
       db ← @Trie.insert stdEnv zeroHash [] hP 70 (valueNode [x02]) db;
       db ← @Trie.reference stdEnv hO hC hP [] db;
       db ← @Trie.reference stdEnv zeroHash hP zeroHash [] db;
       @Trie.Dereference stdEnv 10 hP db).

(** A leaf whose blob takes 65535 bytes, the only node of the database,
    referenced from the meta root. *)
Definition hugeDb : Database :=
  run (db ← @Trie.insert stdEnv zeroHash [] hA 65535 (valueNode [x01]) db0;
       @Trie.reference stdEnv zeroHash hA zeroHash [] db).

(** The leaf [hX] and the root [hR1] above it, referenced from the meta
    root: [sharedDb] before its second root comes in. *)
Definition singleDb : Database :=
  run (db ← @Trie.insert stdEnv zeroHash [x00] hX 10 (valueNode [x2a]) db0;
       db ← @Trie.insert stdEnv zeroHash [] hR1 40 (fullNode [hashNode hX; valueNode [x01]]) db;
       @Trie.reference stdEnv zeroHash hR1 zeroHash [] db).

(** What [Cap] leaves of a database ([db0] when it does not return). *)
Definition capped (limit : Z) (db : Database) : Database :=
  match @Trie.Cap stdEnv 10 limit db with
  | Ok (_, db) => db
  | _ => db0
  end.

End Examples.

(** ** The start of the pruner and the runs of its loop *)

Module PrunerRun.
Section WithEnv.
Context `{E : Env}.
Import Pruner.

(** [newPruner], given what [rawdb.ReadAllCommitRecords] returns.  [Panic]
    is the index out of range on a list of hashes that is too short, or the
    [log.Crit] of [checkRecords].  The loop it starts is [step]. *)
Definition newPruner (maxRecords : Z) (numbers : list Z) (hashes : list Hash) : Outcome pruner :=
  if (length hashes <? length numbers)%nat then Panic
  else
    let records := sortByNumber (zip_with newCommitRecord numbers hashes) in
    let minRecord := match records with
                     | r :: _ => number r
                     | [] => 18446744073709551615
                     end in
    if checkRecords records
    then Ok (mkPruner maxRecords [] [] None records minRecord 0 0 0 0)
    else Panic.

(** Whether the [select] of [loop] can take an arm: the receive from
    [done] proceeds only once the channel has been closed, never on a nil
    channel nor on an open one (nothing is ever sent on it). *)
Definition enabled (ev : event) (s : loopState) : bool :=
  match ev with
  | DoneClosed => bool_decide (done s = Some true)
  | _ => true
  end.

(** The states [loop] is in between two turns of its [select], whatever
    the pruner holds at each turn.  [reach_step] is a turn of the loop;
    [reach_close] is the goroutine of [pruning] coming to its end on its
    own while the loop waits: its [defer close(done)] closes the open
    channel and leaves the flag as it is. *)
Inductive reachable : loopState -> Prop :=
| reach_start : reachable (mkLoop false None None)
| reach_step ev p s s' r :
    reachable s -> enabled ev s = true -> step ev p s = Ok (s', r) -> reachable s'
| reach_close s :
    reachable s -> done s = Some false ->
    reachable (mkLoop (paused s) (Some true) (interrupt s)).

(** The calls of [addKey] a flush makes, in order. *)
Definition addKeys (ks : list (list byte * bool)) (p : pruner) : pruner :=
  foldl (fun p kb => (addKey kb.1 kb.2 p).2) p ks.

End WithEnv.
End PrunerRun.

(** ** Reading the cache *)

Module TrieAccess.
Section WithEnv.
Context `{E : Env}.
Import Trie.

(** The loop of [expandNode] over the children of a full node: the
    entries that are not nil are expanded. *)
Definition expandChildren (expand : node -> option node)
    : list node -> option (list node) :=
  fix go (cs : list node) : option (list node) :=
    match cs with
    | [] => Some []
    | c :: rest =>
        match (match c with
               | nilNode => Some nilNode
               | _ => expand c
               end), go rest with
        | Some c', Some rest' => Some (c' :: rest')
        | _, _ => None
        end
    end.

(** [expandNode]; [None] is the panic of the [default] arm.  The hash
    only goes into the flags of the node, which are not modelled. *)
Fixpoint expandNode (hash : list byte) (n : node) : option node :=
  match n with
  | rawShortNode k v =>
      match expandNode [] v with
      | Some v' => Some (shortNode k v')
      | None => None
      end
  | rawFullNode cs =>
      match expandChildren (expandNode []) cs with
      | Some cs' => Some (fullNode cs')
      | None => None
      end
  | valueNode _ => Some n
  | hashNode _ => Some n
  | _ => None
  end.

(** [cachedNode.obj] *)
Definition obj (n : cachedNode) (hash : Hash) : option node := expandNode hash (cnode n).

(** [cachedNode.rlp] *)
Definition rlp (n : cachedNode) : list byte := rlpEncode (cnode n).

(** [insertPreimage] *)
Definition insertPreimage (hash : Hash) (preimage : list byte) (db : Database) : Database :=
  match preimages db with
  | None => db
  | Some pre =>
      match pre !! gostring hash with
      | Some _ => db
      | None =>
          set_preimagesSize (preimagesSize db + (HashLength + Z.of_nat (length preimage)))
            (set_preimages (Some (<[gostring hash := preimage]> pre)) db)
      end
  end.

(** Modelled from the spec: [rawdb.ReadTrieNode], a read of the disk store
    at the key [rawdb.WriteTrieNode] stores a node under; a missing entry
    reads as nil. *)
Definition ReadTrieNode (d : Disk) (key : list byte) : list byte :=
  default [] (store d !! gostring (trieNodeKey key)).

(** [db.cleans.Get(nil, key)] on a clean cache that may be nil: what the
    cache holds under the key, nil when it holds nothing. *)
Definition cleanGet (c : option (gmap string (list byte))) (key : list byte) : list byte :=
  match c with
  | Some cl => default [] (cl !! gostring key)
  | None => []
  end.

(** [NodeByKey]: the blob, the error, and the database with the clean
    cache as the call leaves it.  The meters are not modelled. *)
Definition NodeByKey (byteKey : list byte) (db : Database) : list byte * error * Database :=
  match cleanGet (cleans db) byteKey with
  | (_ :: _) as enc => (enc, None, db)
  | [] =>
      match dirties db !! gostring byteKey with
      | Some dirty => (rlp dirty, None, db)
      | None =>
          match ReadTrieNode (diskdb db) byteKey with
          | (_ :: _) as enc =>
              (enc, None,
               match cleans db with
               | Some cl => set_cleans (Some (<[gostring byteKey := enc]> cl)) db
               | None => db
               end)
          | [] => ([], Some "not found"%string, db)
          end
      end
  end.

(** [Node] *)
Definition Node (owner : Hash) (path : list byte) (hash : Hash) (db : Database)
    : list byte * error * Database :=
  if decide (hash = zeroHash) then ([], Some "not found"%string, db)
  else NodeByKey (EncodeNodeKey owner path hash) db.

(** [Nodes]; the keys come in the order [map_to_list] gives. *)
Definition Nodes (db : Database) : list string :=
  filter (fun k => k <> metaRoot) (map_to_list (dirties db)).*1.

(** *** Stating that the flush-list is well formed *)

(** The flush-list of [db] is the list [l]: it runs from [oldest] through
    the keys of [l], which are distinct and are the resident nodes other
    than the meta root, and [newest] is the last of them. *)
Definition wellFormed (db : Database) (l : list string) : Prop :=
  flushChain (dirties db) (oldest db) l /\
  NoDup l /\
  (l <> [] -> last l = Some (newest db)) /\
  (forall k, is_Some (dirties db !! k) <-> k = metaRoot \/ k ∈ l).

(** *** Stating what a flush has written *)

(** Decoding the key of a node and encoding the result gives the key
    back. *)
Definition reencodes (k : string) : Prop :=
  let '(o, p, h) := DecodeNodeKey (list_byte_of_string k) in
  gostring (EncodeNodeKey o p h) = k.

(** The node with key [k] is on the disk or waits in the batch. *)
Definition queued (b : Batch) (s : gmap string (list byte)) (k : string) : Prop :=
  durable s k \/
  exists dk v raw, (dk, v) ∈ b /\ IsStateTrieNodeKey dk = (true, raw) /\ gostring raw = k.

(** From [db] to [db'] no node has been added to the dirty map, and the
    disk, the clean cache, the preimages and the pruner are the same. *)
Definition dropsOnly (db db' : Database) : Prop :=
  diskdb db' = diskdb db /\ cleans db' = cleans db /\ preimages db' = preimages db /\
  preimagesSize db' = preimagesSize db /\ db_pruner db' = db_pruner db /\
  forall j, dirties db !! j = None -> dirties db' !! j = None.

(** Every entry of the batch is a trie node. *)
Definition nodesOnly (b : Batch) : Prop :=
  Forall (fun kv => (IsStateTrieNodeKey kv.1).1 = true) b.

End WithEnv.
End TrieAccess.

(** ** More settings *)

Module MoreExamples.
Import Examples.

(** A pruner that tracks the blocks 10 and 20 and has the record of block
    30 open, with one key. *)
Definition rec30 : CommitRecord := mkCommitRecord 30 (hashOf "3") [[x01]].

Definition openPruner : pruner := set_current (Some rec30) (prunerOf 10 [rec10; rec20]).

(** The loop after a signal that started a run and a pause that waited
    for it. *)
Definition pausedLoop : Pruner.loopState := Pruner.mkLoop true (Some true) (Some true).

(** Collaborators whose [finalize] fails. *)
Definition badEnv : Env := env (fun _ _ => true) (100 * 1024) true.

(** A fresh database with a clean cache and with preimages recorded. *)
Definition cachingDb : Database :=
  @Trie.NewDatabase emptyDisk (Some ∅) true (prunerOf 10 []).

(** A fresh database over a disk that holds the leaf [hA]. *)
Definition storedDb : Database :=
  @Trie.NewDatabase
    (mkDisk {[ gostring ("t"%byte :: encodeKey zeroHash [] hA) := [x01; x02] ]} [])
    (Some ∅) false (prunerOf 10 []).

(** The leaf [hA], dirty but not referenced yet. *)
Definition leafDb : Database :=
  run (@Trie.insert stdEnv zeroHash [] hA 10 (valueNode [x01; x02]) db0).

(** The pair a call returns ([db0] when it does not return). *)
Definition ran (o : Outcome (error * Database)) : Database :=
  match o with
  | Ok (_, db) => db
  | _ => db0
  end.

End MoreExamples.

(** * Properties *)

(** ** Bytes and keys *)

Module CommonFacts.

Lemma gostring_inj b1 b2 : gostring b1 = gostring b2 -> b1 = b2.
Proof.
  unfold gostring. intros H.
  rewrite <- (list_byte_of_string_of_list_byte b1),
          <- (list_byte_of_string_of_list_byte b2).
  now rewrite H.
Qed.

Lemma wrap16_small z : 0 <= z < 65536 -> wrap16 z = z.
Proof. intros. unfold wrap16. now apply Z.mod_small. Qed.

Lemma wrap32_small z : 0 <= z < 4294967296 -> wrap32 z = z.
Proof. intros. unfold wrap32. now apply Z.mod_small. Qed.

Lemma wrap64_small z : 0 <= z < 18446744073709551616 -> wrap64 z = z.
Proof. intros. unfold wrap64. now apply Z.mod_small. Qed.

End CommonFacts.

Module NodeKeyFacts.
Import NodeKey.

Lemma decode_encode owner path h :
  is_hash owner -> is_hash h -> decode (encode owner path h) = (owner, path, h).
Proof.
  unfold is_hash, decode, encode. intros Ho Hh.
  rewrite !length_app, Ho, Hh.
  replace (32 + (length path + 32) - 64)%nat with (length path) by lia.
  replace (32 + (length path + 32) - 32)%nat with (32 + length path)%nat by lia.
  rewrite take_app_length' by done.
  rewrite drop_app_length' by done.
  rewrite take_app_length.
  rewrite drop_app_add' by done.
  now rewrite drop_app_length.
Qed.

(** C4.  Decoding an encoded node key gives back the owner, the path and
    the hash, for every 32-byte owner and hash and every path, the zero
    owner and the empty path included; and two triples with the same
    encoding are the same triple. *)
Theorem key_roundtrip_injective (owner : Hash) (path : list byte) (h : Hash) :
  is_hash owner -> is_hash h ->
  decode (encode owner path h) = (owner, path, h) /\
  (forall owner' path' h', is_hash owner' -> is_hash h' ->
     encode owner path h = encode owner' path' h' ->
     (owner, path, h) = (owner', path', h')).
Proof.
  intros Ho Hh. split.
  - now apply decode_encode.
  - intros owner' path' h' Ho' Hh' Heq.
    rewrite <- (decode_encode owner path h), <- (decode_encode owner' path' h') by done.
    now rewrite Heq.
Qed.

Lemma key_roundtrip_injective_witness :
  decode (encode zeroHash [] zeroHash) = (zeroHash, [], zeroHash) /\
  (forall owner' path' h', is_hash owner' -> is_hash h' ->
     encode zeroHash [] zeroHash = encode owner' path' h' ->
     (zeroHash, [], zeroHash) = (owner', path', h')).
Proof. apply (key_roundtrip_injective zeroHash [] zeroHash); reflexivity. Defined.

End NodeKeyFacts.

(** ** The pruner *)

Module PrunerFacts.
Section WithEnv.
Context `{E : Env}.
Import Pruner.

Lemma checkRecords_sorted rs :
  checkRecords rs = true <-> StronglySorted before rs.
Proof.
  induction rs as [|a [|b rest] IH]; simpl.
  - split; [constructor | done].
  - split; [repeat constructor | done].
  - destruct (Z.leb_spec (number b) (number a)) as [Hle|Hlt].
    + split; [done|]. intros Hs. apply StronglySorted_inv in Hs as [_ Hall].
      apply Forall_cons in Hall as [Hab _]. unfold before in Hab. lia.
    + rewrite IH. split.
      * intros Hs. constructor; [done|].
        apply StronglySorted_inv in Hs as [Hs Hall]. constructor; [done|].
        eapply Forall_impl; [exact Hall|]. unfold before. simpl. intros; lia.
      * intros Hs. now apply StronglySorted_inv in Hs as [Hs _].
Qed.

Lemma sortByNumber_sorted rs : StronglySorted before rs -> sortByNumber rs = rs.
Proof.
  induction 1 as [|a l Hs IH Hall]; [done|].
  unfold sortByNumber in *. simpl. rewrite IH.
  destruct l as [|b l]; [done|]. simpl.
  apply Forall_cons in Hall as [Hab _]. unfold before in Hab.
  destruct (Z.ltb_spec (number a) (number b)); [done | lia].
Qed.

Lemma sameRecord_true r record :
  sameRecord r record = true <-> number r = number record /\ hash r = hash record.
Proof.
  unfold sameRecord. rewrite andb_true_iff, Z.eqb_eq, bool_decide_eq_true. tauto.
Qed.

(** A stretch of cells without the record leaves the loop as it is. *)
Lemma removeLoop_skip record k1 k2 i arr m found :
  (forall j r, (i <= j < i + k1)%nat -> arr !! j = Some r -> sameRecord r record = false) ->
  (i + k1 <= length arr)%nat ->
  removeLoop record (k1 + k2) i arr m found = removeLoop record k2 (i + k1) arr m found.
Proof.
  revert i. induction k1 as [|k1 IH]; intros i Hno Hlen.
  - now rewrite Nat.add_0_r.
  - simpl. destruct (arr !! i) as [r|] eqn:Hr.
    + simpl. rewrite (Hno i r) by (done || lia).
      rewrite IH; [f_equal; lia | | lia].
      intros j r' Hj. apply Hno. lia.
    + apply lookup_ge_None in Hr. lia.
Qed.

(** [removeRecord] on a record that is tracked, the records being in
    strictly increasing order: the record leaves the list, and its
    metadata the disk. *)
Lemma removeRecord_tracked record p d l1 x l2 :
  records p = l1 ++ x :: l2 ->
  checkRecords (records p) = true ->
  sameRecord x record = true ->
  removeRecord record (p, d)
  = Ok (set_records (l1 ++ l2) p, DeleteCommitRecord d (number record) (hash record)).
Proof.
  intros Hrs Hchk Hx. unfold removeRecord. rewrite Hrs in *.
  apply checkRecords_sorted in Hchk.
  apply sameRecord_true in Hx as [Hn Hh].
  assert (Hl1 : forall y, y ∈ l1 -> sameRecord y record = false).
  { intros y Hy. apply not_true_is_false. rewrite sameRecord_true. intros [Hy' _].
    pose proof (StronglySorted_app_1_elem_of _ _ _ y x Hchk Hy ltac:(left)) as Hb.
    unfold before in Hb. lia. }
  assert (Hl2 : forall y, y ∈ l2 -> sameRecord y record = false).
  { intros y Hy. apply not_true_is_false. rewrite sameRecord_true. intros [Hy' _].
    apply StronglySorted_app_1_r, StronglySorted_inv in Hchk as [_ Hall].
    rewrite Forall_forall in Hall. apply Hall in Hy. unfold before in Hy. lia. }
  assert (Hs12 : StronglySorted before (l1 ++ l2)).
  { apply StronglySorted_app. split_and!.
    - intros a b Ha Hb.
      apply (StronglySorted_app_1_elem_of _ l1 (x :: l2) a b Hchk Ha). now right.
    - eapply StronglySorted_app_1_l, Hchk.
    - apply StronglySorted_app_1_r, StronglySorted_inv in Hchk as [? _]. done. }
  assert (Hmid : (l1 ++ x :: l2) !! length l1 = Some x) by (now apply list_lookup_middle).
  assert (Hlen : length (l1 ++ x :: l2) = (length l1 + S (length l2))%nat).
  { rewrite length_app. simpl. lia. }
  rewrite Hlen.
  rewrite (removeLoop_skip record (length l1) (S (length l2)) 0); cycle 1.
  { intros j r Hj Hr. apply Hl1.
    rewrite lookup_app_l in Hr by lia. eapply list_elem_of_lookup_2, Hr. }
  { lia. }
  rewrite Nat.add_0_l.
  cbn [removeLoop]. rewrite Hmid. cbn [deref mbind Outcome_bind].
  assert (Hsame : sameRecord x record = true) by (now apply sameRecord_true).
  rewrite Hsame.
  destruct (Nat.ltb_spec (length l1 + S (length l2)) (length l1 + 1)) as [?|_]; [lia|].
  rewrite (take_ge (l1 ++ x :: l2) (length l1 + S (length l2))) by lia.
  assert (Harr1 : take (length l1) (l1 ++ x :: l2) ++ drop (length l1 + 1) (l1 ++ x :: l2)
                    ++ drop (length l1 + S (length l2) - 1) (l1 ++ x :: l2)
                  = (l1 ++ l2) ++ drop (length (l1 ++ l2)) (l1 ++ x :: l2)).
  { rewrite take_app_length.
    rewrite (drop_app_add' l1 (x :: l2) (length l1) 1) by done. simpl. rewrite drop_0.
    rewrite <- app_assoc. do 3 f_equal. rewrite length_app. lia. }
  rewrite Harr1.
  replace (length l1 + S (length l2) - 1)%nat with (length (l1 ++ l2))
    by (rewrite length_app; lia).
  rewrite take_app_length, drop_app_length, sortByNumber_sorted by done.
  replace (removeLoop record (length l2)) with (removeLoop record (length l2 + 0))
    by (f_equal; lia).
  rewrite (removeLoop_skip record (length l2) 0 (S (length l1))); cycle 1.
  { intros j r Hj Hr. apply Hl2.
    destruct (Nat.lt_ge_cases j (length (l1 ++ l2))) as [Hlt|Hge].
    - rewrite lookup_app_l in Hr by done. rewrite length_app in Hlt.
      rewrite lookup_app_r in Hr by lia. eapply list_elem_of_lookup_2, Hr.
    - rewrite lookup_app_r in Hr by done. rewrite lookup_drop in Hr.
      rewrite length_app in *.
      rewrite lookup_app_r in Hr by lia.
      destruct (length l1 + length l2 + (j - (length l1 + length l2)) - length l1)%nat
        as [|q] eqn:Hq; [lia|].
      simpl in Hr. eapply list_elem_of_lookup_2, Hr. }
  { rewrite length_app, length_drop, !length_app. simpl. lia. }
  cbn [removeLoop mbind Outcome_bind negb]. rewrite take_app_length.
  apply checkRecords_sorted in Hs12. rewrite Hs12. reflexivity.
Qed.

(** C9.  [commitStart], called with no record open, creates a fresh record
    exactly when the number of tracked records is below
    [MaximumRecords]; at the cap it leaves the pruner as it was, and a key
    written afterwards goes to the clean keys, no record holding it. *)
Theorem commitStart_cap (n : Z) (h : Hash) (p : pruner) :
  current p = None ->
  exists p',
    commitStart n h p = Ok p' /\
    (current p' = Some (newCommitRecord n h)
     <-> Z.of_nat (length (records p)) < MaximumRecords p) /\
    (MaximumRecords p <= Z.of_nat (length (records p)) ->
     p' = p /\
     forall key,
       (addKey key false p').1 = None /\
       current (addKey key false p').2 = None /\
       records (addKey key false p').2 = records p /\
       cleanKeys (addKey key false p').2 = cleanKeys p ++ [key]).
Proof.
  intros Hcur. unfold commitStart. rewrite Hcur.
  destruct (Z.leb_spec (MaximumRecords p) (Z.of_nat (length (records p)))) as [Hle|Hlt].
  - exists p. split; [done|]. split.
    + rewrite Hcur. split; [done | lia].
    + intros _. split; [done|]. intros key.
      unfold addKey. simpl. rewrite Hcur. simpl. done.
  - eexists. split; [done|]. split.
    + simpl. split; [lia | done].
    + lia.
Qed.

(** C7.  A block-height signal is ignored while the loop is paused, while
    a run is in flight, and when the height is below [minBlockConfirms].
    Otherwise the records to prune are exactly the tracked records whose
    number is strictly below the height less [minBlockConfirms]; a run is
    started over them, unless there is none, in which case the loop stays
    as it is. *)
Theorem signal_handling (n : Z) (p : pruner) (s : loopState) :
  0 <= n < 18446744073709551616 ->
  let wanted := List.filter (fun r => number r <? n - minBlockConfirms) (records p) in
  (paused s = true \/ done s <> None \/ n < minBlockConfirms ->
   onSignal n p s = (s, None)) /\
  (paused s = false -> done s = None -> minBlockConfirms <= n ->
   (forall r, r ∈ wanted <-> r ∈ records p /\ number r < n - minBlockConfirms) /\
   (wanted = [] -> onSignal n p s = (s, None)) /\
   (wanted <> [] ->
    onSignal n p s = (mkLoop false (Some false) (Some false), Some wanted))).
Proof.
  intros Hn wanted. split.
  - intros Hcase. unfold onSignal.
    destruct (paused s); [done|].
    case_bool_decide; [done|].
    destruct (Z.ltb_spec n minBlockConfirms); [done|].
    destruct Hcase as [?|[?|?]]; [done | done | lia].
  - intros Hp Hd Hmin. split; [|split].
    + intros r. unfold wanted. rewrite !list_elem_of_In, filter_In, Z.ltb_lt. tauto.
    + intros Hw. unfold onSignal. rewrite Hp, Hd.
      rewrite bool_decide_eq_false_2 by (now intros []).
      destruct (Z.ltb_spec n minBlockConfirms); [lia|].
      unfold filterRecords. rewrite CommonFacts.wrap64_small by (unfold minBlockConfirms in *; lia).
      fold wanted. now rewrite Hw.
    + intros Hw. unfold onSignal. rewrite Hp, Hd.
      rewrite bool_decide_eq_false_2 by (now intros []).
      destruct (Z.ltb_spec n minBlockConfirms); [lia|].
      unfold filterRecords. rewrite CommonFacts.wrap64_small by (unfold minBlockConfirms in *; lia).
      fold wanted. destruct wanted; done.
Qed.

(** C8.  In a pruning run that is not interrupted, a record the oracle
    reports as non-canonical, and a record that fails to read back, are
    handed to [removeRecord] and the run goes on with the next record.
    [removeRecord] deletes the metadata of the record from the disk and
    nothing else, and takes the record off the list when it is tracked. *)
Theorem pruning_discards (r : CommitRecord) (rest : list CommitRecord)
    (intr : nat -> bool) (i : nat) (st : pruner * Disk) :
  intr i = false ->
  IsCanonical (number r) (hash r) = false
  \/ readCommitRecord (store st.2) (number r) (hash r) = None ->
  pruning (r :: rest) intr i st
  = (st' ← removeRecord r st; pruning rest intr (S i) st') /\
  (forall st', removeRecord r st = Ok st' ->
     store st'.2 = delete (gostring (commitRecordKey (number r) (hash r))) (store st.2) /\
     forall k, k <> gostring (commitRecordKey (number r) (hash r)) ->
               store st'.2 !! k = store st.2 !! k) /\
  (forall l1 l2, records st.1 = l1 ++ r :: l2 -> checkRecords (records st.1) = true ->
     removeRecord r st
     = Ok (set_records (l1 ++ l2) st.1, DeleteCommitRecord st.2 (number r) (hash r))).
Proof.
  intros Hi Hcase. split; [|split].
  - cbn [pruning]. rewrite Hi.
    destruct (IsCanonical (number r) (hash r)); simpl; [|done].
    destruct Hcase as [?|Hr]; [done|]. now rewrite Hr.
  - intros st' Hrm. destruct st as [p d]. unfold removeRecord in Hrm.
    destruct (removeLoop r _ _ _ _ _) as [[[arr m] found]| |]; simpl in Hrm; try done.
    destruct found; simpl in Hrm; [|done].
    destruct (checkRecords (take m arr)); simpl in Hrm; [|done].
    injection Hrm as <-. simpl. split; [done|].
    intros k Hk. now rewrite lookup_delete_ne.
  - intros l1 l2 Hrs Hchk. destruct st as [p d]. simpl in *.
    eapply removeRecord_tracked; [exact Hrs | exact Hchk |].
    now apply sameRecord_true.
Qed.

End WithEnv.
End PrunerFacts.

Module PrunerWitnesses.
Import Pruner Examples.

Lemma commitStart_cap_witness :
  current (prunerOf 1 [rec10]) = None /\
  exists p',
    commitStart 7 (hashOf "7") (prunerOf 1 [rec10]) = Ok p' /\
    (current p' = Some (newCommitRecord 7 (hashOf "7"))
     <-> Z.of_nat (length (records (prunerOf 1 [rec10]))) < MaximumRecords (prunerOf 1 [rec10])) /\
    (MaximumRecords (prunerOf 1 [rec10]) <= Z.of_nat (length (records (prunerOf 1 [rec10]))) ->
     p' = prunerOf 1 [rec10] /\
     forall key,
       (@addKey stdEnv key false p').1 = None /\
       current (@addKey stdEnv key false p').2 = None /\
       records (@addKey stdEnv key false p').2 = records (prunerOf 1 [rec10]) /\
       cleanKeys (@addKey stdEnv key false p').2 = cleanKeys (prunerOf 1 [rec10]) ++ [key]).
Proof.
  split; [reflexivity|].
  apply (@PrunerFacts.commitStart_cap stdEnv 7 (hashOf "7") (prunerOf 1 [rec10])).
  reflexivity.
Defined.

(** Records for the blocks 10 and 20, a signal 15 blocks above
    [minBlockConfirms]: the run covers the record of block 10 alone. *)
Lemma signal_handling_witness :
  0 <= 3615 < 18446744073709551616 /\
  onSignal 3615 (prunerOf 10 [rec10; rec20]) (mkLoop false None None)
  = (mkLoop false (Some false) (Some false), Some [rec10]).
Proof.
  split; [lia|].
  apply (PrunerFacts.signal_handling 3615 (prunerOf 10 [rec10; rec20])
           (mkLoop false None None)); try reflexivity; try (unfold minBlockConfirms; lia).
  simpl. discriminate.
Defined.

Lemma pruning_discards_witness :
  (fun _ : nat => false) 0%nat = false /\
  (@IsCanonical sideEnv (number rec10) (hash rec10) = false
   \/ @readCommitRecord sideEnv (store recordDisk) (number rec10) (hash rec10) = None) /\
  @pruning sideEnv [rec10; rec20] (fun _ => false) 0 (prunerOf 10 [rec10; rec20], recordDisk)
  = (st' ← @removeRecord sideEnv rec10 (prunerOf 10 [rec10; rec20], recordDisk);
     @pruning sideEnv [rec20] (fun _ => false) 1 st').
Proof.
  split; [reflexivity|]. split; [left; reflexivity|].
  apply (@PrunerFacts.pruning_discards sideEnv rec10 [rec20] (fun _ => false) 0%nat
           (prunerOf 10 [rec10; rec20], recordDisk)).
  - reflexivity.
  - left. reflexivity.
Defined.

(** The run over the record of block 10, no longer canonical: the record
    leaves the list, its metadata leaves the disk, that of block 20 stays. *)
Example pruning_side_record :
  @pruning sideEnv [rec10] (fun _ => false) 0 (prunerOf 10 [rec10; rec20], recordDisk)
  = Ok (set_records [rec20] (prunerOf 10 [rec10; rec20]),
        mkDisk (<[gostring ("r"%byte :: be64 20 ++ hashOf "2") := []]> ∅) []).
Proof. vm_compute. reflexivity. Qed.

End PrunerWitnesses.

(** ** The node cache *)

Module TrieFacts.
Section WithEnv.
Context `{E : Env}.
Import Trie.

Lemma update_Some k f db c :
  dirties db !! k = Some c ->
  update k f db = Ok (set_dirties (<[k := f c]> (dirties db)) db).
Proof. intros H. unfold update. now rewrite H. Qed.

(** C10.  [reference] on a child that is not in the dirty map returns
    with the database as it was. *)
Theorem reference_missing_child (owner child parent : Hash) (parentPath : list byte)
    (db : Database) :
  dirties db !! gostring (EncodeNodeKey owner [] child) = None ->
  reference owner child parent parentPath db = Ok db.
Proof. intros H. unfold reference. now rewrite H. Qed.

(** C5.  When the child is resident and the parent already references
    it, a further [reference] with the same arguments changes nothing if
    the parent hash is not the zero hash; if it is, the parent count of
    the child and the count of the edge both go up by one, as [++] on a
    [uint32] and on a [uint16] does. *)
Theorem reference_duplicate (owner child parent : Hash) (parentPath : list byte)
    (db : Database) (c p : cachedNode) (cs : gmap string Z) (m : Z) :
  let childKey := gostring (EncodeNodeKey owner [] child) in
  let parentKey := gostring (EncodeNodeKey zeroHash parentPath parent) in
  dirties db !! childKey = Some c ->
  dirties db !! parentKey = Some p ->
  children p = Some cs ->
  cs !! childKey = Some m ->
  (parent <> zeroHash -> reference owner child parent parentPath db = Ok db) /\
  (parent = zeroHash ->
   exists db' c' p',
     reference owner child parent parentPath db = Ok db' /\
     dirties db' !! childKey = Some c' /\
     parents c' = wrap32 (parents c + 1) /\
     dirties db' !! parentKey = Some p' /\
     childCount (children p') childKey = wrap16 (m + 1)).
Proof.
  intros childKey parentKey Hc Hp Hcs Hm. split.
  - intros Hne. unfold reference. fold childKey parentKey.
    rewrite Hc, Hp. simpl. rewrite Hcs, Hm.
    rewrite bool_decide_eq_true_2 by eauto.
    now rewrite bool_decide_eq_true_2.
  - intros Hz. unfold reference. fold childKey parentKey.
    rewrite Hc, Hp. simpl. rewrite Hcs, Hm.
    rewrite (bool_decide_eq_false_2 (parent <> zeroHash)) by tauto.
    rewrite andb_false_r.
    rewrite (update_Some _ _ _ _ Hc). simpl.
    destruct (decide (childKey = parentKey)) as [Heq|Hne].
    + assert (c = p) by congruence. subst p.
      rewrite (update_Some parentKey _ _ (set_parents (wrap32 (parents c + 1)) c))
        by (simpl; rewrite <- Heq; apply lookup_insert_eq).
      simpl. rewrite <- Heq, insert_insert_eq, lookup_insert_eq. simpl.
      rewrite Hcs. simpl. rewrite Hm, lookup_insert_eq. simpl.
      destruct (wrap16 (m + 1) =? 1); eexists _, _, _; (split; [reflexivity|]); simpl;
        rewrite lookup_insert_eq; (split; [reflexivity|]); simpl;
        (split; [reflexivity|]); (split; [reflexivity|]); simpl;
        now rewrite lookup_insert_eq.
    + rewrite (update_Some parentKey _ _ p)
        by (simpl; rewrite lookup_insert_ne by done; exact Hp).
      simpl. rewrite lookup_insert_eq. simpl.
      rewrite Hcs. simpl. rewrite Hm, lookup_insert_eq. simpl.
      destruct (wrap16 (m + 1) =? 1); eexists _, _, _; (split; [reflexivity|]); simpl;
        rewrite lookup_insert_ne by done; rewrite lookup_insert_eq;
        (split; [reflexivity|]); simpl; (split; [reflexivity|]);
        rewrite lookup_insert_eq; (split; [reflexivity|]); simpl;
        now rewrite lookup_insert_eq.
Qed.

Lemma node_nested_ind (P : node -> Prop) :
  (forall k v, P v -> P (rawShortNode k v)) ->
  (forall cs, Forall P cs -> P (rawFullNode cs)) ->
  (forall h, P (hashNode h)) ->
  (forall v, P (valueNode v)) ->
  P nilNode ->
  (forall k v, P v -> P (shortNode k v)) ->
  (forall cs, Forall P cs -> P (fullNode cs)) ->
  forall n, P n.
Proof.
  intros H1 H2 H3 H4 H5 H6 H7. fix IH 1. intros [k v|cs|h|v| |k v|cs].
  - apply H1, IH.
  - apply H2. induction cs as [|c cs IHcs]; constructor; [apply IH | exact IHcs].
  - apply H3.
  - apply H4.
  - apply H5.
  - apply H6, IH.
  - apply H7. induction cs as [|c cs IHcs]; constructor; [apply IH | exact IHcs].
Qed.

Lemma walkChildren_cons walk path c rest i :
  walkChildren walk path (c :: rest) i
  = if (16 <=? i)%nat then []
    else walk c (path ++ [nibble i]) ++ walkChildren walk path rest (S i).
Proof. reflexivity. Qed.

Lemma walkChildren_clean cs :
  Forall (fun n => forall path, Unknown ∉ walkRefs n path) cs ->
  forall path i, Unknown ∉ walkChildren walkRefs path cs i.
Proof.
  induction 1 as [|c cs Hc Hcs IH]; intros path i.
  - apply not_elem_of_nil.
  - rewrite walkChildren_cons.
    destruct (16 <=? i)%nat; [apply not_elem_of_nil|].
    rewrite elem_of_app. intros [?|?]; [by eapply Hc | by eapply IH].
Qed.

Lemma simplifyNode_clean n :
  forall n', simplifyNode n = Some n' -> forall path, Unknown ∉ walkRefs n' path.
Proof.
  induction n as [k v IH|cs IH|h|v| |k v IH|cs IH] using node_nested_ind;
    intros n' Hs; simpl in Hs; try discriminate.
  - injection Hs as <-. intros path. simpl.
    intros Hin%list_elem_of_singleton. discriminate.
  - injection Hs as <-. intros path. apply not_elem_of_nil.
  - destruct (simplifyNode v) as [v'|]; [|discriminate].
    injection Hs as <-. intros path. simpl. by apply IH.
  - destruct (simplifyChildren simplifyNode cs) as [cs'|] eqn:Hcs; [|discriminate].
    injection Hs as <-. intros path. simpl. apply walkChildren_clean.
    clear path. revert cs' Hcs. induction IH as [|c cs Hc _ IHcs]; intros cs' Hcs; simpl in Hcs.
    + injection Hcs as <-. constructor.
    + destruct (match c with nilNode => Some nilNode | _ => simplifyNode c end) as [c'|] eqn:Hc';
        [|discriminate].
      destruct (simplifyChildren simplifyNode cs) as [rest'|]; [|discriminate].
      injection Hcs as <-. constructor; [|by apply IHcs].
      destruct c; try (by apply Hc).
      injection Hc' as <-. intros path. simpl. apply not_elem_of_nil.
Qed.

Lemma bumped_0 c : bumped 0 c = c.
Proof. now destruct c. Qed.

Lemma bumped_S n c :
  bumped n (set_parents (wrap32 (parents c + 1)) c) = bumped (S n) c.
Proof. unfold bumped. rewrite Nat.iter_succ_r. now destruct c. Qed.

Lemma addParent_eq owner p h db :
  addParent owner p h db
  = Ok (None,
        match dirties db !! gostring (EncodeNodeKey owner p h) with
        | Some c => set_dirties (<[gostring (EncodeNodeKey owner p h)
                                   := set_parents (wrap32 (parents c + 1)) c]> (dirties db)) db
        | None => db
        end).
Proof. unfold addParent. now destruct (dirties db !! _). Qed.

(** The callbacks of [insert] along a walk: every resident entry gains one
    parent for each time its key is among the hash nodes, and nothing else
    changes. *)
Lemma addParents_lookup owner steps : Unknown ∉ steps ->
  forall db, exists d',
    forEach steps (fun st s => match st with
                               | Visit p h => addParent owner p h s
                               | Unknown => Panic
                               end) db = Ok (None, set_dirties d' db) /\
    forall k, d' !! k = bumped (occurrences k (refKeys owner steps)) <$> dirties db !! k.
Proof.
  induction steps as [|[p h|] steps IH]; intros Hclean db.
  - exists (dirties db). split; [by destruct db|].
    intros k. simpl. destruct (dirties db !! k) as [c|]; simpl; [|done].
    by rewrite bumped_0.
  - assert (Hrest : Unknown ∉ steps) by (intros ?; apply Hclean; by right).
    cbn [forEach]. rewrite addParent_eq. cbn [mbind Outcome_bind].
    set (key := gostring (EncodeNodeKey owner p h)).
    destruct (dirties db !! key) as [c|] eqn:Hc.
    + destruct (IH Hrest (set_dirties (<[key := set_parents (wrap32 (parents c + 1)) c]>
                                        (dirties db)) db)) as (d' & Hrun & Hd').
      exists d'. split; [rewrite Hrun; reflexivity|].
      intros k. rewrite Hd'. simpl. unfold occurrences. simpl. fold key.
      destruct (decide (key = k)) as [<-|Hne].
      * rewrite lookup_insert_eq, Hc, bool_decide_eq_true_2 by done. simpl.
        by rewrite bumped_S.
      * rewrite lookup_insert_ne by done.
        by rewrite bool_decide_eq_false_2 by done.
    + destruct (IH Hrest db) as (d' & Hrun & Hd').
      exists d'. split; [exact Hrun|].
      intros k. rewrite Hd'. unfold occurrences. simpl. fold key.
      destruct (decide (key = k)) as [<-|Hne].
      * by rewrite Hc.
      * by rewrite bool_decide_eq_false_2 by done.
  - exfalso. apply Hclean. by left.
Qed.

(** X28.  [insert] of a key that is dirty already leaves the database as
    it is.  For a key that is not, every resident entry gains one parent
    for each embedded hash node that carries its key, and no other entry
    changes its count; the new entry goes to the tail of the flush-list
    (it is the newest, its predecessor is the old tail, whose successor it
    becomes, and it is the oldest too when the list was empty); and the
    dirty size grows by the [uint16] sum [HashLength + entry.size] of the
    source, which is the size of the entry with its hash only while the
    blob is shorter than 65504 bytes. *)
Theorem insert_spec (owner : Hash) (path : list byte) (hash : Hash) (size : Z) (n : node)
    (db : Database) :
  let key := gostring (EncodeNodeKey owner path hash) in
  (is_Some (dirties db !! key) -> insert owner path hash size n db = Ok db) /\
  (dirties db !! key = None ->
   forall n', simplifyNode n = Some n' ->
   (oldest db = metaRoot \/ newest db = key \/ is_Some (dirties db !! newest db)) ->
   let ks := refKeys owner (walkRefs n' path) in
   let entry := mkCachedNode n' (wrap16 size) 0 None (newest db) metaRoot in
   let linked := bool_decide (oldest db <> metaRoot) in
   let relink k c := if linked && bool_decide (k = newest db) then set_flushNext key c else c in
   exists db',
     insert owner path hash size n db = Ok db' /\
     (forall k, k <> key ->
        dirties db' !! k = relink k <$> (bumped (occurrences k ks) <$> dirties db !! k)) /\
     dirties db' !! key = Some (relink key entry) /\
     newest db' = key /\
     oldest db' = (if linked then oldest db else key) /\
     dirtiesSize db' = dirtiesSize db + wrap16 (HashLength + csize entry) /\
     childrenSize db' = childrenSize db /\
     preimages db' = preimages db /\
     cleans db' = cleans db /\
     diskdb db' = diskdb db /\
     db_pruner db' = db_pruner db).
Proof.
  intros key. split.
  - intros [c Hc]. unfold insert. fold key. now rewrite Hc.
  - intros Hnone n' Hn' Htail ks entry linked relink.
    unfold insert. fold key. rewrite Hnone, Hn'. cbn [deref mbind Outcome_bind].
    unfold iterateRefs.
    destruct (addParents_lookup owner (walkRefs n' path) (simplifyNode_clean n n' Hn' path) db)
      as (d' & Hrun & Hd').
    rewrite Hrun. cbn [mbind Outcome_bind]. fold entry. fold ks in Hd'.
    assert (Hd'key : d' !! key = None) by (now rewrite Hd', Hnone).
    subst relink linked. cbv beta.
    destruct (decide (oldest db = metaRoot)) as [Hold|Hold].
    + simpl. rewrite decide_True by done. simpl.
      rewrite (bool_decide_eq_false_2 (oldest db <> metaRoot)) by tauto. simpl.
      eexists. split; [reflexivity|]. simpl. split_and!; try done.
      * intros k Hk. rewrite lookup_insert_ne by done. rewrite Hd'.
        by destruct (dirties db !! k).
      * by rewrite lookup_insert_eq.
    + simpl. rewrite decide_False by done.
      rewrite (bool_decide_eq_true_2 (oldest db <> metaRoot)) by done. simpl.
      destruct Htail as [?|[Hnk|[t Ht]]]; [done| |].
      * rewrite (update_Some _ _ _ entry) by (simpl; rewrite Hnk; apply lookup_insert_eq).
        simpl. eexists. split; [reflexivity|]. simpl. split_and!; try done.
        -- intros k Hk. rewrite Hnk. rewrite !lookup_insert_ne by done.
           rewrite bool_decide_eq_false_2 by done. rewrite Hd'.
           by destruct (dirties db !! k).
        -- rewrite Hnk, bool_decide_eq_true_2 by done.
           by rewrite insert_insert_eq, lookup_insert_eq.
      * assert (Hne : newest db <> key) by (intros Heq; rewrite Heq, Hnone in Ht; done).
        rewrite (update_Some _ _ _ (bumped (occurrences (newest db) ks) t)); cycle 1.
        { simpl. rewrite lookup_insert_ne by done. by rewrite Hd', Ht. }
        simpl. eexists. split; [reflexivity|]. simpl. split_and!; try done.
        -- intros k Hk. destruct (decide (k = newest db)) as [->|Hkn].
           ++ rewrite lookup_insert_eq, Ht, bool_decide_eq_true_2 by done. done.
           ++ rewrite !lookup_insert_ne by done. rewrite bool_decide_eq_false_2 by done.
              rewrite Hd'. by destruct (dirties db !! k).
        -- rewrite lookup_insert_ne by done. rewrite lookup_insert_eq.
           by rewrite bool_decide_eq_false_2 by done.
Qed.


(** One call of [dereference], on a child that is resident once the
    parent has given up its reference ([dropEdge]): the parent count of the
    child goes down by one, a count of zero staying zero.  If the count is
    positive afterwards, the call ends there, and nothing but that count
    has changed.  If it is zero, the child is taken out of the flush-list,
    [dereference] runs on each of its embedded hash nodes in turn, and the
    child leaves the dirty map.  [Dereference] of a root other than the
    zero hash is this call on the root, with the meta root as the parent. *)
Theorem dereference_step (fuel : nat) (childOwner childHash : Hash) (childPath : list byte)
    (parentOwner parentHash : Hash) (parentPath : list byte)
    (db db1 : Database) (child : cachedNode) :
  let parentKey := gostring (EncodeNodeKey parentOwner parentPath parentHash) in
  let childKey := gostring (EncodeNodeKey childOwner childPath childHash) in
  dropEdge parentKey childKey db = Ok db1 ->
  dirties db1 !! childKey = Some child ->
  let count := decParents (parents child) in
  let child' := set_parents count child in
  let db2 := set_dirties (<[childKey := child']> (dirties db1)) db1 in
  (0 < parents child -> count = parents child - 1) /\
  (parents child = 0 -> count = 0) /\
  (count <> 0 ->
   dereference (S fuel) childOwner childHash childPath parentOwner parentHash parentPath db
   = Ok db2 /\
   dirties db2 !! childKey = Some child' /\
   (forall k, k <> childKey -> dirties db2 !! k = dirties db1 !! k) /\
   oldest db2 = oldest db1 /\ newest db2 = newest db1 /\
   dirtiesSize db2 = dirtiesSize db1 /\ childrenSize db2 = childrenSize db1) /\
  (count = 0 ->
   dereference (S fuel) childOwner childHash childPath parentOwner parentHash parentPath db
   = (db3 ← unlink childKey child' db2;
      '(_, db4) ← iterateRefs (cnode child) childPath
                    (fun innerPath innerHash db =>
                       db ← dereference fuel childOwner innerHash innerPath
                              childOwner childHash childPath db;
                       Ok (None, db)) db3;
      Ok (dropNode childKey child' db4)) /\
   forall db',
     dereference (S fuel) childOwner childHash childPath parentOwner parentHash parentPath db
     = Ok db' ->
     dirties db' !! childKey = None) /\
  (forall root, root <> zeroHash ->
     Dereference fuel root db
     = (db' ← dereference fuel zeroHash root [] zeroHash zeroHash [] db;
        Ok (set_gcsize (gcsize db' + (dirtiesSize db - dirtiesSize db'))
              (set_gcnodes (wrap64 (gcnodes db' + wrap64 (Z.of_nat (size (dirties db))
                                                          - Z.of_nat (size (dirties db')))))
                 db')))).
Proof.
  intros parentKey childKey Hedge Hchild count child' db2.
  assert (Hstep : dereference (S fuel) childOwner childHash childPath
                    parentOwner parentHash parentPath db
                  = if parents child' =? 0 then
                      db3 ← unlink childKey child' db2;
                      '(_, db4) ← iterateRefs (cnode child) childPath
                                    (fun innerPath innerHash db =>
                                       db ← dereference fuel childOwner innerHash innerPath
                                              childOwner childHash childPath db;
                                       Ok (None, db)) db3;
                      Ok (dropNode childKey child' db4)
                    else Ok db2).
  { cbn [dereference]. fold parentKey childKey. rewrite Hedge.
    cbn [mbind Outcome_bind]. rewrite Hchild. reflexivity. }
  split_and!.
  - intros Hpos. unfold count, decParents.
    destruct (Z.ltb_spec 0 (parents child)); [done | lia].
  - intros Hz. unfold count, decParents. rewrite Hz. done.
  - intros Hne. rewrite Hstep. simpl.
    destruct (Z.eqb_spec count 0); [done|]. split_and!; try done.
    + apply lookup_insert_eq.
    + intros k Hk. by apply lookup_insert_ne.
  - intros Hz. rewrite Hstep. simpl. rewrite Hz. simpl. split; [done|].
    intros db' Hrun.
    destruct (unlink childKey child' db2) as [db3| |]; simpl in Hrun; try done.
    destruct (iterateRefs _ _ _ db3) as [[e db4]| |]; simpl in Hrun; try done.
    injection Hrun as <-. unfold dropNode.
    destruct (children child'); simpl; apply lookup_delete_eq.
  - intros root Hroot. unfold Dereference. rewrite decide_False by done. reflexivity.
Qed.

(** A call of [dereference] on a child that is not resident ends when the
    parent has given up its reference. *)
Lemma dereference_absent fuel childOwner childHash childPath parentOwner parentHash parentPath
    db db1 :
  dropEdge (gostring (EncodeNodeKey parentOwner parentPath parentHash))
           (gostring (EncodeNodeKey childOwner childPath childHash)) db = Ok db1 ->
  dirties db1 !! gostring (EncodeNodeKey childOwner childPath childHash) = None ->
  dereference (S fuel) childOwner childHash childPath parentOwner parentHash parentPath db
  = Ok db1.
Proof. intros Hedge Hnone. cbn [dereference]. rewrite Hedge. simpl. now rewrite Hnone. Qed.

Lemma forEach_ext {A S} (f g : A -> S -> Outcome (error * S)) l :
  (forall a s r, f a s = Ok r -> g a s = Ok r) ->
  forall s r, forEach l f s = Ok r -> forEach l g s = Ok r.
Proof.
  intros Hfg. induction l as [|a l IH]; intros s r Hrun; [done|].
  cbn [forEach] in *.
  destruct (f a s) as [[e1 s1]| |] eqn:Hf; simpl in Hrun; try done.
  rewrite (Hfg _ _ _ Hf). simpl. destruct e1; [done|]. by apply IH.
Qed.

Lemma dereference_S fuel childOwner childHash childPath parentOwner parentHash parentPath db :
  dereference (S fuel) childOwner childHash childPath parentOwner parentHash parentPath db
  = (db ← dropEdge (gostring (EncodeNodeKey parentOwner parentPath parentHash))
            (gostring (EncodeNodeKey childOwner childPath childHash)) db;
     match dirties db !! gostring (EncodeNodeKey childOwner childPath childHash) with
     | None => Ok db
     | Some child =>
         let child := set_parents (decParents (parents child)) child in
         let db := set_dirties (<[gostring (EncodeNodeKey childOwner childPath childHash)
                                  := child]> (dirties db)) db in
         if parents child =? 0 then
           db ← unlink (gostring (EncodeNodeKey childOwner childPath childHash)) child db;
           '(_, db) ← iterateRefs (cnode child) childPath
                        (fun innerPath innerHash db =>
                           db ← dereference fuel childOwner innerHash innerPath
                                  childOwner childHash childPath db;
                           Ok (None, db)) db;
           Ok (dropNode (gostring (EncodeNodeKey childOwner childPath childHash)) child db)
         else Ok db
     end).
Proof. reflexivity. Qed.

(** A call of [dereference] that returns returns the same with more fuel. *)
Lemma dereference_fuel_mono fuel :
  forall childOwner childHash childPath parentOwner parentHash parentPath db db',
    dereference fuel childOwner childHash childPath parentOwner parentHash parentPath db = Ok db' ->
    dereference (S fuel) childOwner childHash childPath parentOwner parentHash parentPath db
    = Ok db'.
Proof.
  induction fuel as [|fuel IH];
    intros childOwner childHash childPath parentOwner parentHash parentPath db db' Hrun; [done|].
  rewrite dereference_S in Hrun. rewrite dereference_S.
  destruct (dropEdge _ _ db) as [db1| |]; cbn [mbind Outcome_bind] in Hrun |- *; try done.
  destruct (dirties db1 !! _) as [child|]; [|done]. cbv zeta in Hrun |- *.
  destruct (parents (set_parents (decParents (parents child)) child) =? 0); [|done].
  destruct (unlink _ _ _) as [db2| |]; cbn [mbind Outcome_bind] in Hrun |- *; try done.
  unfold iterateRefs in *.
  match type of Hrun with
  | (forEach ?l ?f ?s ≫= _) = _ => destruct (forEach l f s) as [r| |] eqn:Hrefs; try done
  end.
  eapply forEach_ext in Hrefs; [rewrite Hrefs; exact Hrun|].
  intros [p h|] s r' Hstep; [|done]. cbv beta in Hstep |- *.
  destruct (dereference fuel _ _ _ _ _ _ s) as [s1| |] eqn:Hd;
    cbn [mbind Outcome_bind] in Hstep; try done.
  by rewrite (IH _ _ _ _ _ _ _ _ Hd).
Qed.

End WithEnv.
End TrieFacts.

Module TrieWitnesses.
Import Trie Examples.

Lemma reference_missing_child_witness :
  dirties db0 !! gostring (@EncodeNodeKey stdEnv zeroHash [] hX) = None /\
  @reference stdEnv zeroHash hX zeroHash [] db0 = Ok db0.
Proof.
  split; [reflexivity|].
  apply (@TrieFacts.reference_missing_child stdEnv zeroHash hX zeroHash [] db0).
  reflexivity.
Defined.


(** A second [Reference] of a root from the meta root is counted again. *)
Lemma reference_duplicate_witness :
  dirties rootedDb !! gostring (@EncodeNodeKey stdEnv zeroHash [] hA)
  = Some (entryOf (keyOf zeroHash [] hA) rootedDb) /\
  dirties rootedDb !! gostring (@EncodeNodeKey stdEnv zeroHash [] zeroHash)
  = Some (entryOf metaRoot rootedDb) /\
  children (entryOf metaRoot rootedDb) = Some {[ keyOf zeroHash [] hA := 1 ]} /\
  ({[ keyOf zeroHash [] hA := 1 ]} : gmap string Z)
    !! gostring (@EncodeNodeKey stdEnv zeroHash [] hA) = Some 1 /\
  exists db' c' p',
    @reference stdEnv zeroHash hA zeroHash [] rootedDb = Ok db' /\
    dirties db' !! keyOf zeroHash [] hA = Some c' /\
    parents c' = wrap32 (parents (entryOf (keyOf zeroHash [] hA) rootedDb) + 1) /\
    dirties db' !! metaRoot = Some p' /\
    childCount (children p') (keyOf zeroHash [] hA) = wrap16 (1 + 1).
Proof.
  assert (H1 : dirties rootedDb !! gostring (@EncodeNodeKey stdEnv zeroHash [] hA)
               = Some (entryOf (keyOf zeroHash [] hA) rootedDb)) by (vm_compute; reflexivity).
  assert (H2 : dirties rootedDb !! gostring (@EncodeNodeKey stdEnv zeroHash [] zeroHash)
               = Some (entryOf metaRoot rootedDb)) by (vm_compute; reflexivity).
  assert (H3 : children (entryOf metaRoot rootedDb) = Some {[ keyOf zeroHash [] hA := 1 ]})
    by (vm_compute; reflexivity).
  assert (H4 : ({[ keyOf zeroHash [] hA := 1 ]} : gmap string Z)
                 !! gostring (@EncodeNodeKey stdEnv zeroHash [] hA) = Some 1)
    by (vm_compute; reflexivity).
  split_and!; try assumption.
  exact (proj2 (@TrieFacts.reference_duplicate stdEnv zeroHash hA zeroHash [] rootedDb
                  _ _ _ _ H1 H2 H3 H4) eq_refl).
Defined.

(** The second root of [sharedDb] comes in: the leaf it shares with the
    first gains a parent, the first root, the tail so far, gets the new
    node as its successor, and the dirty size grows by the 32 bytes of the
    hash and the 40 of the blob. *)
Lemma insert_spec_witness :
  dirties singleDb !! gostring (@EncodeNodeKey stdEnv zeroHash [] hR2) = None /\
  @simplifyNode stdEnv (fullNode [hashNode hX; valueNode [x02]])
  = Some (rawFullNode [hashNode hX; valueNode [x02]]) /\
  is_Some (dirties singleDb !! newest singleDb) /\
  exists db',
    @insert stdEnv zeroHash [] hR2 40 (fullNode [hashNode hX; valueNode [x02]]) singleDb
    = Ok db' /\
    dirties db' !! keyOf zeroHash [x00] hX
    = Some (set_parents 2 (entryOf (keyOf zeroHash [x00] hX) singleDb)) /\
    dirties db' !! keyOf zeroHash [] hR1
    = Some (set_flushNext (keyOf zeroHash [] hR2) (entryOf (keyOf zeroHash [] hR1) singleDb)) /\
    dirties db' !! metaRoot = dirties singleDb !! metaRoot /\
    dirties db' !! keyOf zeroHash [] hR2
    = Some (mkCachedNode (rawFullNode [hashNode hX; valueNode [x02]]) 40 0 None
              (keyOf zeroHash [] hR1) metaRoot) /\
    newest db' = keyOf zeroHash [] hR2 /\
    oldest db' = keyOf zeroHash [x00] hX /\
    dirtiesSize singleDb = 114 /\
    dirtiesSize db' = 186.
Proof.
  assert (H1 : dirties singleDb !! gostring (@EncodeNodeKey stdEnv zeroHash [] hR2) = None)
    by (vm_compute; reflexivity).
  assert (H2 : is_Some (dirties singleDb !! newest singleDb))
    by (vm_compute; eexists; reflexivity).
  split; [exact H1|]. split; [reflexivity|]. split; [exact H2|].
  destruct (proj2 (@TrieFacts.insert_spec stdEnv zeroHash [] hR2 40
                     (fullNode [hashNode hX; valueNode [x02]]) singleDb)
              H1 (rawFullNode [hashNode hX; valueNode [x02]]) eq_refl
              (or_intror (or_intror H2)))
    as (db' & Hrun & Hrest & Hkey & Hnew & Hold & Hsize & _).
  exists db'. split; [exact Hrun|].
  split; [rewrite (Hrest (keyOf zeroHash [x00] hX)) by (vm_compute; discriminate);
          vm_compute; reflexivity|].
  split; [rewrite (Hrest (keyOf zeroHash [] hR1)) by (vm_compute; discriminate);
          vm_compute; reflexivity|].
  split; [rewrite (Hrest metaRoot) by (vm_compute; discriminate);
          vm_compute; reflexivity|].
  split; [refine (eq_trans Hkey _); vm_compute; reflexivity|].
  split; [exact Hnew|].
  split; [refine (eq_trans Hold _); vm_compute; reflexivity|].
  split; [vm_compute; reflexivity|].
  refine (eq_trans Hsize _). vm_compute. reflexivity.
Defined.

(** The leaf two roots share keeps one parent when the first root goes. *)
Lemma dereference_step_witness :
  dropEdge (keyOf zeroHash [] hR1) (keyOf zeroHash [x00] hX) sharedDb = Ok sharedDb /\
  dirties sharedDb !! keyOf zeroHash [x00] hX = Some (entryOf (keyOf zeroHash [x00] hX) sharedDb) /\
  parents (entryOf (keyOf zeroHash [x00] hX) sharedDb) = 2 /\
  @dereference stdEnv 1 zeroHash hX [x00] zeroHash hR1 [] sharedDb
  = Ok (set_dirties (<[keyOf zeroHash [x00] hX
                       := set_parents 1 (entryOf (keyOf zeroHash [x00] hX) sharedDb)]>
                       (dirties sharedDb)) sharedDb).
Proof.
  assert (H1 : dropEdge (gostring (@EncodeNodeKey stdEnv zeroHash [] hR1))
                 (gostring (@EncodeNodeKey stdEnv zeroHash [x00] hX)) sharedDb = Ok sharedDb)
    by (vm_compute; reflexivity).
  assert (H2 : dirties sharedDb !! gostring (@EncodeNodeKey stdEnv zeroHash [x00] hX)
               = Some (entryOf (keyOf zeroHash [x00] hX) sharedDb))
    by (vm_compute; reflexivity).
  split; [exact H1|]. split; [exact H2|]. split; [vm_compute; reflexivity|].
  destruct (@TrieFacts.dereference_step stdEnv 0 zeroHash hX [x00] zeroHash hR1 []
              sharedDb sharedDb _ H1 H2) as (_ & _ & Hpos & _).
  apply Hpos. vm_compute. discriminate.
Defined.

(** Both roots dereferenced, one after the other: after the first the
    shared leaf is still there, with one parent; after the second the dirty
    map holds the meta root alone and the dirty size is zero. *)
Example shared_subtree_retained :
  (db ← @Dereference stdEnv 5 hR1 sharedDb;
   Ok (parents <$> dirties db !! keyOf zeroHash [x00] hX,
       dirties db !! keyOf zeroHash [] hR1,
       size (dirties db)))
  = Ok (Some 1, None, 3%nat) /\
  (db ← @Dereference stdEnv 5 hR1 sharedDb;
   db ← @Dereference stdEnv 5 hR2 db;
   Ok (dom (dirties db), dirtiesSize db, childrenSize db))
  = Ok ({[ metaRoot ]}, 0, 0).
Proof. split; vm_compute; reflexivity. Qed.

(** A second [Reference] from a parent other than the meta root changes
    nothing. *)
Example reference_twice_from_node :
  parents (entryOf (keyOf hO [] hC) linkedDb) = 1 /\
  @reference stdEnv hO hC hP [] linkedDb = Ok linkedDb.
Proof. split; vm_compute; reflexivity. Qed.

(** C6.  [insert] of a leaf whose blob takes 65535 bytes into the fresh
    database: the entry records the 65535 bytes, but the dirty size grows
    by 31, not by the size of the entry, since the sum
    [HashLength + entry.size] is taken on [uint16].  [dereference] takes
    [HashLength + int(child.size)], 65567 bytes, off again: once the leaf
    has been referenced from the meta root and dereferenced, the dirty map
    holds the meta root alone and the dirty size is -65536, which is what
    [Size] then reports. *)
Theorem insert_size_wraps :
  dirties db0 !! keyOf zeroHash [] hA = None /\
  dirtiesSize db0 = 0 /\
  (db ← @insert stdEnv zeroHash [] hA 65535 (valueNode [x01]) db0;
   Ok (csize (entryOf (keyOf zeroHash [] hA) db), dirtiesSize db))
  = Ok (65535, 31) /\
  dirtiesSize hugeDb = 31 /\
  (db ← @Dereference stdEnv 10 hA hugeDb;
   Ok (dom (dirties db), dirtiesSize db, @Size stdEnv db))
  = Ok ({[ metaRoot ]}, -65536, Ok (-65536, 0)).
Proof. split_and!; vm_compute; reflexivity. Qed.

(** C3.  [Dereference] of the account leaf [hP] of [accountDb], whose only
    parent is the meta root and whose children map holds the storage root
    [hC]: the count of [hP] reaches zero, and it leaves the flush-list and
    the dirty map; but [dereference] runs on the embedded hash nodes of
    [hP] alone, not on the entries of its children map.  The storage root
    stays dirty with the one parent it had, though that parent is gone,
    and of the 82 bytes that tracked the children of [hP] the 34 of that
    entry stay in [childrenSize]. *)
Theorem Dereference_keeps_external_child :
  parents (entryOf (keyOf zeroHash [] hP) accountDb) = 1 /\
  children (entryOf (keyOf zeroHash [] hP) accountDb) = Some {[ keyOf hO [] hC := 1 ]} /\
  parents (entryOf (keyOf hO [] hC) accountDb) = 1 /\
  childrenSize accountDb = 116 /\
  @Dereference stdEnv 10 hP accountDb = Ok orphanDb /\
  dom (dirties orphanDb) = {[ metaRoot; keyOf hO [] hC ]} /\
  oldest orphanDb = keyOf hO [] hC /\
  newest orphanDb = keyOf hO [] hC /\
  parents (entryOf (keyOf hO [] hC) orphanDb) = 1 /\
  children (entryOf metaRoot orphanDb) = Some ∅ /\
  childrenSize orphanDb = 34 /\
  @Size stdEnv orphanDb = Ok (170, 0).
Proof. split_and!; vm_compute; reflexivity. Qed.

End TrieWitnesses.

Module FlushFacts.
Section WithEnv.
Context `{E : Env}.
Import Trie.

Lemma flushedOnly_refl db : flushedOnly db db.
Proof.
  split; [|done]. intros k [c Hc] Hn. rewrite Hn in Hc. discriminate.
Qed.

Lemma flushedOnly_trans db1 db2 db3 :
  flushedOnly db1 db2 -> flushedOnly db2 db3 -> flushedOnly db1 db3.
Proof.
  intros [Ha Hb] [Hc Hd]. split.
  - intros k Hk Hn. destruct (dirties db2 !! k) as [c|] eqn:Hk2.
    + apply Hc; [by eexists | done].
    + destruct (Ha k Hk Hk2) as (dk & raw & ? & ? & ?).
      exists dk, raw. split_and!; [done | done |]. by apply Hd.
  - intros dk Hdk. by apply Hd, Hb.
Qed.

(** Two databases with the same dirty keys, the second on a disk that
    has lost no key. *)
Lemma flushedOnly_same_keys db db' :
  (forall k, is_Some (dirties db !! k) -> is_Some (dirties db' !! k)) ->
  (forall dk, is_Some (store (diskdb db) !! dk) -> is_Some (store (diskdb db') !! dk)) ->
  flushedOnly db db'.
Proof.
  intros Hk Hd. split; [|done].
  intros k Hin Hn. apply Hk in Hin. rewrite Hn in Hin. by destruct Hin.
Qed.

Lemma applyBatch_keeps b s dk : is_Some (s !! dk) -> is_Some (applyBatch b s !! dk).
Proof.
  unfold applyBatch. revert s. induction b as [|[k v] b IH]; intros s Hs; [done|].
  simpl. apply IH. destruct (decide (gostring k = dk)) as [<-|Hne].
  - rewrite lookup_insert_eq. by eexists.
  - by rewrite lookup_insert_ne.
Qed.

Lemma applyBatch_has b s kv : kv ∈ b -> is_Some (applyBatch b s !! gostring kv.1).
Proof.
  unfold applyBatch. revert s. induction b as [|[k v] b IH]; intros s Hin.
  - by apply elem_of_nil in Hin.
  - apply elem_of_cons in Hin as [->|Hin]; simpl.
    + apply (applyBatch_keeps b). rewrite lookup_insert_eq. by eexists.
    + by apply IH.
Qed.

Lemma batchWrite_keeps b d dk :
  is_Some (store d !! dk) -> is_Some (store (batchWrite b d).2 !! dk).
Proof.
  intros Hs. unfold batchWrite. destruct (faults d) as [|[] fs]; simpl;
    try done; by apply applyBatch_keeps.
Qed.

Lemma batchWrite_has b d kv :
  (batchWrite b d).1 = None -> kv ∈ b -> is_Some (store (batchWrite b d).2 !! gostring kv.1).
Proof.
  unfold batchWrite. destruct (faults d) as [|[] fs]; simpl; try done;
    intros _ Hin; by apply applyBatch_has.
Qed.

Lemma flushBatch_keeps b p d dk :
  is_Some (store d !! dk) -> is_Some (store (flushBatch b p d).2 !! dk).
Proof.
  intros Hs. unfold flushBatch. destruct (flushMarker p) as [[e|] extra]; simpl; [done|].
  pose proof (batchWrite_keeps (b ++ extra) d dk Hs) as Hk.
  by destruct (batchWrite (b ++ extra) d).
Qed.

Lemma flushBatch_has b p d kv :
  (flushBatch b p d).1.1 = None -> kv ∈ (flushBatch b p d).1.2 ->
  is_Some (store (flushBatch b p d).2 !! gostring kv.1).
Proof.
  unfold flushBatch. destruct (flushMarker p) as [[e|] extra]; simpl; [done|].
  pose proof (batchWrite_has (b ++ extra) d kv) as Hh.
  destruct (batchWrite (b ++ extra) d) as [err d']. simpl in *. done.
Qed.

Lemma update_keys k f db db' :
  update k f db = Ok db' ->
  diskdb db' = diskdb db /\ forall j, is_Some (dirties db' !! j) <-> is_Some (dirties db !! j).
Proof.
  unfold update. destruct (dirties db !! k) as [c|] eqn:Hc; simpl; [|done].
  intros [= <-]. split; [done|]. intros j. simpl.
  destruct (decide (k = j)) as [<-|Hne].
  - rewrite lookup_insert_eq, Hc. split; by eexists.
  - by rewrite lookup_insert_ne.
Qed.

Lemma unlink_keys key n db db' :
  unlink key n db = Ok db' ->
  diskdb db' = diskdb db /\ forall j, is_Some (dirties db' !! j) <-> is_Some (dirties db !! j).
Proof.
  unfold unlink. repeat case_decide.
  - intros Hu%update_keys. exact Hu.
  - intros Hu%update_keys. exact Hu.
  - destruct (update (flushPrev n) _ db) as [db1| |] eqn:H1; simpl; try done.
    intros [Hd Hk]%update_keys. apply update_keys in H1 as [Hd1 Hk1].
    split; [congruence|]. intros j. by rewrite Hk, Hk1.
Qed.

Lemma cleanerPut_flushed key rlp db e db' :
  cleanerPut key rlp db = Ok (e, db') ->
  is_Some (store (diskdb db) !! gostring key) ->
  diskdb db' = diskdb db /\ flushedOnly db db'.
Proof.
  unfold cleanerPut. destruct (IsStateTrieNodeKey key) as [ok raw] eqn:Hkey.
  destruct ok; simpl; [|intros [= <- <-] _; split; [done | apply flushedOnly_refl]].
  destruct (dirties db !! gostring raw) as [n|] eqn:Hn;
    [|intros [= <- <-] _; split; [done | apply flushedOnly_refl]].
  destruct (unlink (gostring raw) n db) as [db1| |] eqn:Hu; simpl; try done.
  apply unlink_keys in Hu as [Hd1 Hk1].
  intros Hrun Hdisk.
  assert (Hdb' : diskdb db' = diskdb db /\
                 forall j, j <> gostring raw -> is_Some (dirties db !! j) ->
                           is_Some (dirties db' !! j)).
  { destruct (cleans db1); injection Hrun as <- <-; simpl; (split; [done|]);
      intros j Hj Hin; rewrite lookup_delete_ne by done; by apply Hk1. }
  destruct Hdb' as [Hd Hk]. split; [done|]. split.
  - intros k Hin Hout. destruct (decide (k = gostring raw)) as [->|Hne].
    + exists key, raw. rewrite Hd. done.
    + apply Hk in Hin; [|done]. rewrite Hout in Hin. by destruct Hin.
  - intros dk. by rewrite Hd.
Qed.

Lemma Replay_flushed b : forall db e db',
  Replay b db = Ok (e, db') ->
  (forall kv, kv ∈ b -> is_Some (store (diskdb db) !! gostring kv.1)) ->
  diskdb db' = diskdb db /\ flushedOnly db db'.
Proof.
  unfold Replay. induction b as [|[k v] b IH]; intros db e db' Hrun Hdisk.
  - injection Hrun as <- <-. split; [done | apply flushedOnly_refl].
  - cbn [forEach fst snd] in Hrun.
    destruct (cleanerPut k v db) as [[e1 db1]| |] eqn:Hput; simpl in Hrun; try done.
    apply cleanerPut_flushed in Hput as [Hd1 Hf1]; [|apply (Hdisk (k, v)); by left].
    destruct e1 as [e1|]; simpl in Hrun.
    + injection Hrun as <- <-. done.
    + apply IH in Hrun as [Hd Hf].
      * split; [congruence|]. by eapply flushedOnly_trans.
      * intros kv Hin. rewrite Hd1. apply Hdisk. by right.
Qed.

(** A loop whose every turn is a step of a preorder is one. *)
Lemma forEach_preorder {A S} (R : S -> S -> Prop) (f : A -> S -> Outcome (error * S)) l :
  (forall s, R s s) ->
  (forall s1 s2 s3, R s1 s2 -> R s2 s3 -> R s1 s3) ->
  (forall a s e s', a ∈ l -> f a s = Ok (e, s') -> R s s') ->
  forall s e s', forEach l f s = Ok (e, s') -> R s s'.
Proof.
  intros Hrefl Htrans. induction l as [|a l IH]; intros Hf s e s' Hrun.
  - injection Hrun as <- <-. apply Hrefl.
  - cbn [forEach] in Hrun.
    destruct (f a s) as [[e1 s1]| |] eqn:Hfa; simpl in Hrun; try done.
    apply Hf in Hfa; [|by left].
    destruct e1 as [e1|]; simpl in Hrun.
    + by injection Hrun as <- <-.
    + eapply Htrans; [exact Hfa|]. eapply IH; [|exact Hrun].
      intros a' s2 e2 s2' Hin. apply Hf. by right.
Qed.

Lemma writeNode_spec b owner path hash blob partial p :
  exists p', writeNode b owner path hash blob partial p
             = (None, b ++ [(trieNodeKey (EncodeNodeKey owner path hash), blob)], p').
Proof.
  unfold writeNode, Pruner.addKey. destruct partial; simpl.
  - by eexists.
  - destruct (current _); by eexists.
Qed.

Lemma commit_flushed fuel : forall owner path hash b db e b' db',
  commit fuel owner path hash (b, db) = Ok (e, (b', db')) -> flushedOnly db db'.
Proof.
  induction fuel as [|fuel IH]; intros owner path hash b db e b' db' Hrun; [done|].
  cbn [commit] in Hrun. simpl in Hrun.
  destruct (dirties db !! gostring (EncodeNodeKey owner path hash)) as [n|];
    [|injection Hrun as <- <- <-; apply flushedOnly_refl].
  set (R := fun st st' : Batch * Database => flushedOnly st.2 st'.2).
  assert (Hrefl : forall s, R s s) by (intros s; apply flushedOnly_refl).
  assert (Htrans : forall s1 s2 s3, R s1 s2 -> R s2 s3 -> R s1 s3)
    by (intros s1 s2 s3; apply flushedOnly_trans).
  unfold iterateRefs in Hrun.
  match type of Hrun with
  | (forEach ?l ?f ?s ≫= _) = _ =>
      destruct (forEach l f s) as [[e1 [b1 db1]]| |] eqn:Hrefs; simpl in Hrun; try done
  end.
  apply (forEach_preorder R) in Hrefs; [|done|done|]; cycle 1.
  { intros [p h|] [b2 db2] e2 [b2' db2'] _ Hc; [|done]. by apply IH in Hc. }
  unfold R in Hrefs. simpl in Hrefs.
  destruct e1 as [e1|]; simpl in Hrun; [injection Hrun as <- <- <-; done|].
  match type of Hrun with
  | (forEach ?l ?f ?s ≫= _) = _ =>
      destruct (forEach l f s) as [[e2 [b2 db2]]| |] eqn:Hkids; simpl in Hrun; try done
  end.
  apply (forEach_preorder R) in Hkids; [|done|done|]; cycle 1.
  { intros child [b3 db3] e3 [b3' db3'] _ Hc.
    destruct (DecodeNodeKey _) as [[o p] h]. by apply IH in Hc. }
  unfold R in Hkids. simpl in Hkids.
  assert (H12 : flushedOnly db db2) by (by eapply flushedOnly_trans).
  destruct e2 as [e2|]; simpl in Hrun; [injection Hrun as <- <- <-; done|].
  destruct (writeNode_spec b2 owner path hash (rlpEncode (cnode n)) false (db_pruner db2))
    as [p' Hw].
  rewrite Hw in Hrun. simpl in Hrun.
  set (b3 := b2 ++ [(trieNodeKey (EncodeNodeKey owner path hash), rlpEncode (cnode n))]) in *.
  destruct (IdealBatchSize <=? ValueSize b3);
    [|injection Hrun as <- <- <-; apply (flushedOnly_trans _ _ _ H12);
      by apply flushedOnly_same_keys].
  pose proof (flushBatch_keeps b3 p' (diskdb db2)) as Hkeep.
  pose proof (flushBatch_has b3 p' (diskdb db2)) as Hhas.
  destruct (flushBatch b3 p' (diskdb db2)) as [[e3 b4] dk]. simpl in *.
  assert (H23 : flushedOnly db2 (set_diskdb dk (set_db_pruner p' db2)))
    by (by apply flushedOnly_same_keys).
  destruct e3 as [e3|].
  - injection Hrun as <- <- <-. by eapply flushedOnly_trans.
  - destruct (Replay b4 _) as [[e4 db4]| |] eqn:Hrep; simpl in Hrun; try done.
    injection Hrun as <- <- <-.
    apply Replay_flushed in Hrep as [_ Hrep]; [|intros kv Hin; by apply Hhas].
    eapply flushedOnly_trans; [exact H12|]. by eapply flushedOnly_trans.
Qed.


Lemma CommitWithMetadata_flushed fuel number hash root db e db' :
  CommitWithMetadata fuel number hash root db = Ok (e, db') -> flushedOnly db db'.
Proof.
  unfold CommitWithMetadata. intros Hrun.
  set (w := match preimages db with
            | Some pre => batchWrite (WritePreimages pre) (diskdb db)
            | None => (None, diskdb db)
            end) in Hrun.
  assert (Hw : forall dk, is_Some (store (diskdb db) !! dk) -> is_Some (store w.2 !! dk)).
  { intros dk Hdk. unfold w. destruct (preimages db); [|done]. by apply batchWrite_keeps. }
  destruct w as [e0 dk0]. simpl in Hw.
  assert (H0 : forall p, flushedOnly db (set_db_pruner p (set_diskdb dk0 db)))
    by (intros p; by apply flushedOnly_same_keys).
  destruct e0 as [e0|].
  { injection Hrun as <- <-. by apply flushedOnly_same_keys. }
  match type of Hrun with
  | (?m ≫= _) = _ => destruct m as [p1| |]; simpl in Hrun; try done
  end.
  destruct (commit fuel zeroHash [] root _) as [[e1 [b1 db1]]| |] eqn:Hc; simpl in Hrun;
    try done.
  apply commit_flushed in Hc.
  assert (H1 : flushedOnly db db1) by (eapply flushedOnly_trans; [apply (H0 p1) | exact Hc]).
  destruct e1 as [e1|]; [by injection Hrun as <- <-|].
  pose proof (flushBatch_keeps b1 (db_pruner db1) (diskdb db1)) as Hkeep.
  pose proof (flushBatch_has b1 (db_pruner db1) (diskdb db1)) as Hhas.
  destruct (flushBatch b1 (db_pruner db1) (diskdb db1)) as [[e2 b2] dk2]. simpl in *.
  assert (H2 : flushedOnly db1 (set_diskdb dk2 db1)) by (by apply flushedOnly_same_keys).
  destruct e2 as [e2|].
  { injection Hrun as <- <-. by eapply flushedOnly_trans. }
  destruct (Replay b2 _) as [[e3 db3]| |] eqn:Hrep; simpl in Hrun; try done.
  apply Replay_flushed in Hrep as [_ Hrep]; [|intros kv Hin; by apply Hhas].
  assert (H3 : flushedOnly db db3).
  { eapply flushedOnly_trans; [exact H1|]. by eapply flushedOnly_trans. }
  assert (H4 : forall e4 db4,
             (if negb (number =? 0) && bool_decide (hash <> zeroHash)
              then '(err, p, dk) ← Pruner.commitEnd (db_pruner db3) (diskdb db3);
                   Ok (err, set_diskdb dk (set_db_pruner p db3))
              else Ok (None, db3)) = Ok (e4, db4) -> flushedOnly db3 db4).
  { intros e4 db4 Hend. destruct (negb _ && _);
      [|injection Hend as <- <-; apply flushedOnly_refl].
    unfold Pruner.commitEnd in Hend.
    destruct (current (db_pruner db3)) as [c|];
      [|injection Hend as <- <-; by apply flushedOnly_same_keys].
    assert (Hgrow : forall dk, is_Some (store (diskdb db3) !! dk) ->
              is_Some (applyBatch (fin_puts (finalize c (partialKeys (db_pruner db3))
                                               (cleanKeys (db_pruner db3)) (store (diskdb db3))))
                         (store (diskdb db3)) !! dk))
      by (intros dk; apply applyBatch_keeps).
    destruct (fin_err _) as [e5|]; simpl in Hend.
    - injection Hend as <- <-. by apply flushedOnly_same_keys.
    - match type of Hend with
      | ((?m ≫= _) ≫= _) = _ => destruct m as [p5| |]; simpl in Hend; try done
      end.
      injection Hend as <- <-. by apply flushedOnly_same_keys. }
  match type of Hrun with
  | (?m ≫= _) = _ => destruct m as [[e4 db4]| |] eqn:Hend; simpl in Hrun; try done
  end.
  apply H4 in Hend.
  assert (H5 : flushedOnly db db4) by (by eapply flushedOnly_trans).
  destruct e4 as [e4|]; [by injection Hrun as <- <-|].
  injection Hrun as <- <-. eapply flushedOnly_trans; [exact H5|].
  apply flushedOnly_same_keys; by destruct (preimages db4).
Qed.

(** [Cap] that returns an error has not touched the cache. *)
Lemma Cap_error fuel limit db e db' :
  Cap fuel limit db = Ok (Some e, db') ->
  dirties db' = dirties db /\ oldest db' = oldest db /\ newest db' = newest db /\
  dirtiesSize db' = dirtiesSize db /\ childrenSize db' = childrenSize db /\
  preimages db' = preimages db /\ preimagesSize db' = preimagesSize db /\
  cleans db' = cleans db.
Proof.
  unfold Cap. intros Hrun.
  destruct (dirties db !! metaRoot) as [meta|]; simpl in Hrun; [|done].
  destruct (capPreimages _ db) as [[e0 b0] dk0].
  destruct e0 as [e0|]; [by injection Hrun as <- <-|].
  destruct (capWalk fuel limit (dirties db) _) as [[e1 s1]| |]; simpl in Hrun; try done.
  destruct e1 as [e1|]; [by injection Hrun as <- <-|].
  destruct (flushBatch _ _ _) as [[e2 b2] dk2].
  destruct e2 as [e2|]; [by injection Hrun as <- <-|].
  exfalso.
  match type of Hrun with
  | (?m ≫= _) = _ => destruct m as [db3| |]; simpl in Hrun; try done
  end.
  match type of Hrun with
  | (?m ≫= _) = _ => destruct m as [db4| |]; simpl in Hrun; try done
  end.
Qed.


Lemma forEach_invariant {A S} (P : S -> Prop) (f : A -> S -> Outcome (error * S)) l :
  (forall a s s', f a s = Ok (None, s') -> P s -> P s') ->
  forall s s', forEach l f s = Ok (None, s') -> P s -> P s'.
Proof.
  intros Hf. induction l as [|a l IH]; intros s s' Hrun HP.
  - by injection Hrun as <-.
  - cbn [forEach] in Hrun.
    destruct (f a s) as [[[e1|] s1]| |] eqn:Hfa; simpl in Hrun; try done.
    eapply IH; [exact Hrun|]. by eapply Hf.
Qed.

Lemma batchWrite_fault b d fs : faults d = true :: fs -> (batchWrite b d).1 <> None.
Proof. intros Hf. unfold batchWrite. by rewrite Hf. Qed.

Lemma flushBatch_fault b p d fs : faults d = true :: fs -> (flushBatch b p d).1.1 <> None.
Proof.
  intros Hf. unfold flushBatch. destruct (flushMarker p) as [[e|] extra]; [done|].
  pose proof (batchWrite_fault (b ++ extra) d fs Hf).
  by destruct (batchWrite (b ++ extra) d).
Qed.

Lemma capWalk_fault fuel limit d fs : forall s s',
  faults (cap_disk s) = true :: fs ->
  capWalk fuel limit d s = Ok (None, s') -> faults (cap_disk s') = true :: fs.
Proof.
  induction fuel as [|fuel IH]; intros s s' Hf Hrun; [done|].
  cbn [capWalk] in Hrun.
  destruct (_ && _); [|by injection Hrun as <-].
  destruct (d !! cap_oldest s) as [n|]; cbn [mbind Outcome_bind deref] in Hrun; [|done].
  destruct (DecodeNodeKey _) as [[owner path] hash].
  destruct (writeNode_spec (cap_batch s) owner path hash (rlpEncode (cnode n)) true
              (cap_pruner s)) as [p' Hw].
  rewrite Hw in Hrun.
  destruct (IdealBatchSize <=? ValueSize _).
  - pose proof (flushBatch_fault
                  (cap_batch s ++ [(trieNodeKey (EncodeNodeKey owner path hash),
                                    rlpEncode (cnode n))]) p' (cap_disk s) fs Hf) as Hfl.
    destruct (flushBatch _ p' (cap_disk s)) as [[[e|] b] dk]; simpl in *; done.
  - by apply IH in Hrun.
Qed.

Lemma commit_fault fuel fs : forall owner path hash st st',
  commit fuel owner path hash st = Ok (None, st') ->
  faults (diskdb st.2) = true :: fs -> faults (diskdb st'.2) = true :: fs.
Proof.
  induction fuel as [|fuel IH]; intros owner path hash [b db] st' Hrun Hf; [done|].
  cbn [commit] in Hrun. simpl in Hrun, Hf.
  destruct (dirties db !! gostring (EncodeNodeKey owner path hash)) as [n|];
    [|by injection Hrun as <-].
  unfold iterateRefs in Hrun.
  match type of Hrun with
  | (forEach ?l ?f ?s ≫= _) = _ =>
      destruct (forEach l f s) as [[[e1|] [b1 db1]]| |] eqn:Hrefs; simpl in Hrun; try done
  end.
  apply (forEach_invariant (fun st => faults (diskdb st.2) = true :: fs)) in Hrefs;
    [|intros [p h|] s s' Hc HP; [exact (IH _ _ _ _ _ Hc HP) | done] | done].
  match type of Hrun with
  | (forEach ?l ?f ?s ≫= _) = _ =>
      destruct (forEach l f s) as [[[e2|] [b2 db2]]| |] eqn:Hkids; simpl in Hrun; try done
  end.
  apply (forEach_invariant (fun st => faults (diskdb st.2) = true :: fs)) in Hkids;
    [| |done]; cycle 1.
  { intros child s s' Hc HP. destruct (DecodeNodeKey _) as [[o p] h].
    exact (IH _ _ _ _ _ Hc HP). }
  simpl in *.
  destruct (writeNode_spec b2 owner path hash (rlpEncode (cnode n)) false (db_pruner db2))
    as [p' Hw].
  rewrite Hw in Hrun. simpl in Hrun.
  destruct (IdealBatchSize <=? ValueSize _).
  - pose proof (flushBatch_fault
                  (b2 ++ [(trieNodeKey (EncodeNodeKey owner path hash), rlpEncode (cnode n))])
                  p' (diskdb db2) fs Hkids) as Hfl.
    destruct (flushBatch _ p' (diskdb db2)) as [[[e|] b3] dk]; simpl in *; done.
  - by injection Hrun as <-.
Qed.

(** C1, as the code has it.  [Cap] that returns an error has not touched
    the cache: the dirty map and the flush-list are what they were.
    [CommitWithMetadata] and [Commit] that return an error have dropped
    from the dirty map only nodes that are on the disk: every key that was
    dirty is still dirty or durable.  And a disk write that fails does
    make the call return an error. *)
Theorem flush_error_keeps_unwritten :
  (forall fuel limit db e db',
     Cap fuel limit db = Ok (Some e, db') ->
     dirties db' = dirties db /\ oldest db' = oldest db /\ newest db' = newest db) /\
  (forall fuel number hash root db e db',
     CommitWithMetadata fuel number hash root db = Ok (Some e, db') ->
     forall k, is_Some (dirties db !! k) ->
               is_Some (dirties db' !! k) \/ durable (store (diskdb db')) k) /\
  (forall fuel root db e db',
     Commit fuel root db = Ok (Some e, db') ->
     forall k, is_Some (dirties db !! k) ->
               is_Some (dirties db' !! k) \/ durable (store (diskdb db')) k) /\
  (forall fs fuel limit db r db',
     faults (diskdb db) = true :: fs -> Cap fuel limit db = Ok (r, db') -> r <> None) /\
  (forall fs fuel number hash root db r db',
     faults (diskdb db) = true :: fs ->
     CommitWithMetadata fuel number hash root db = Ok (r, db') -> r <> None).
Proof.
  assert (Hcommit : forall fuel number hash root db e db',
            CommitWithMetadata fuel number hash root db = Ok (Some e, db') ->
            forall k, is_Some (dirties db !! k) ->
                      is_Some (dirties db' !! k) \/ durable (store (diskdb db')) k).
  { intros fuel number hash root db e db' Hrun k Hk.
    apply CommitWithMetadata_flushed in Hrun as [Hf _].
    destruct (dirties db' !! k) as [c|] eqn:Hk'; [left; by eexists|].
    right. by apply Hf. }
  split_and!.
  - intros fuel limit db e db' Hrun. apply Cap_error in Hrun. tauto.
  - exact Hcommit.
  - intros fuel root db e db'. apply Hcommit.
  - intros fs fuel limit db r db' Hf Hrun Hr. subst r.
    unfold Cap in Hrun.
    destruct (dirties db !! metaRoot) as [meta|]; simpl in Hrun; [|done].
    assert (Hpre : (capPreimages (4 * 1024 * 1024 <? preimagesSize db) db).1.1 = None ->
                   faults (capPreimages (4 * 1024 * 1024 <? preimagesSize db) db).2
                   = true :: fs).
    { unfold capPreimages. destruct (_ <? preimagesSize db), (preimages db); try done.
      destruct (IdealBatchSize <? _); [|done].
      pose proof (batchWrite_fault (WritePreimages g) (diskdb db) fs Hf).
      by destruct (batchWrite _ _) as [[?|] ?]. }
    destruct (capPreimages _ db) as [[[e0|] b0] dk0]; [done|]. simpl in Hpre.
    specialize (Hpre eq_refl).
    destruct (capWalk fuel limit (dirties db) _) as [[[e1|] s1]| |] eqn:Hwalk;
      simpl in Hrun; try done.
    apply (capWalk_fault _ _ _ fs) in Hwalk; [|done].
    pose proof (flushBatch_fault (cap_batch s1) (cap_pruner s1) (cap_disk s1) fs Hwalk).
    destruct (flushBatch _ _ _) as [[[e2|] b2] dk2]; simpl in *; done.
  - intros fs fuel number hash root db r db' Hf Hrun Hr. subst r.
    unfold CommitWithMetadata in Hrun.
    set (w := match preimages db with
              | Some pre => batchWrite (WritePreimages pre) (diskdb db)
              | None => (None, diskdb db)
              end) in Hrun.
    assert (Hw : w.1 = None -> faults w.2 = true :: fs).
    { unfold w. destruct (preimages db); [|done].
      pose proof (batchWrite_fault (WritePreimages g) (diskdb db) fs Hf).
      by destruct (batchWrite _ _) as [[?|] ?]. }
    destruct w as [[e0|] dk0]; [done|]. simpl in Hw. specialize (Hw eq_refl).
    match type of Hrun with
    | (?m ≫= _) = _ => destruct m as [p1| |]; simpl in Hrun; try done
    end.
    destruct (commit fuel zeroHash [] root _) as [[[e1|] [b1 db1]]| |] eqn:Hc;
      simpl in Hrun; try done.
    apply (commit_fault _ fs) in Hc; [|done]. simpl in Hc.
    pose proof (flushBatch_fault b1 (db_pruner db1) (diskdb db1) fs Hc).
    destruct (flushBatch _ _ _) as [[[e2|] b2] dk2]; simpl in *; done.
Qed.

End WithEnv.
End FlushFacts.

Module FlushWitnesses.
Import Trie Examples.

(** The commit of the root over eleven large leaves: the first write
    succeeds and the leaves leave the dirty map; the second write fails. *)
Lemma leafy_commit_fails :
  @Commit stdEnv 10 hRoot leafyDb = Ok (Some "write failed"%string, leafyAfter).
Proof. vm_compute. reflexivity. Qed.

(** C1 as stated fails: [Commit] returns the error of a disk write after
    it has dropped nodes from the dirty map. *)
Lemma commit_error_after_uncache :
  ~ (forall (E : Env) fuel root db e db',
       @Commit E fuel root db = Ok (Some e, db') ->
       forall k, is_Some (dirties db !! k) -> is_Some (dirties db' !! k)).
Proof.
  intros H.
  specialize (H stdEnv 10%nat hRoot leafyDb _ _ leafy_commit_fails
                (keyOf zeroHash [nibble 0] (leafHash 0))).
  assert (Hin : is_Some (dirties leafyDb !! keyOf zeroHash [nibble 0] (leafHash 0))).
  { vm_compute. eexists. reflexivity. }
  apply H in Hin. vm_compute in Hin. destruct Hin as [c Hc]. discriminate.
Qed.

Lemma flush_error_keeps_unwritten_witness :
  @Commit stdEnv 10 hRoot leafyDb = Ok (Some "write failed"%string, leafyAfter) /\
  is_Some (dirties leafyDb !! keyOf zeroHash [nibble 0] (leafHash 0)) /\
  (is_Some (dirties leafyAfter !! keyOf zeroHash [nibble 0] (leafHash 0))
   \/ @durable stdEnv (store (diskdb leafyAfter)) (keyOf zeroHash [nibble 0] (leafHash 0))).
Proof.
  assert (Hin : is_Some (dirties leafyDb !! keyOf zeroHash [nibble 0] (leafHash 0))).
  { vm_compute. eexists. reflexivity. }
  split; [exact leafy_commit_fails|]. split; [exact Hin|].
  exact (proj1 (proj2 (proj2 (@FlushFacts.flush_error_keeps_unwritten stdEnv)))
           10%nat hRoot leafyDb _ leafyAfter leafy_commit_fails _ Hin).
Defined.

End FlushWitnesses.
Module CapFacts.
Section WithEnv.
Context `{E : Env}.
Import Trie.

Lemma flushChain_not_meta d k l : flushChain d k l -> metaRoot ∉ l.
Proof.
  revert k. induction l as [|x l IH]; intros k Hc; [apply not_elem_of_nil|].
  destruct Hc as (-> & Hx & Hrest). destruct (d !! x) as [c|]; [|done].
  apply not_elem_of_cons. split; [done | by eapply IH].
Qed.

Lemma flushChain_delete d x k l :
  x ∉ l -> flushChain d k l -> flushChain (delete x d) k l.
Proof.
  revert k. induction l as [|y l IH]; intros k Hx Hc; [done|].
  apply not_elem_of_cons in Hx as [Hxy Hxl].
  destruct Hc as (-> & Hy & Hrest). simpl. split_and!; [done | done |].
  rewrite lookup_delete_ne by done.
  destruct (d !! y) as [c|]; [|done]. by apply IH.
Qed.

Lemma chainCost_delete d x l : x ∉ l -> chainCost (delete x d) l = chainCost d l.
Proof.
  induction l as [|y l IH]; intros Hx; [done|].
  apply not_elem_of_cons in Hx as [Hxy Hxl].
  unfold chainCost in *. simpl. rewrite lookup_delete_ne by done. by rewrite IH.
Qed.

Lemma chainCost_app d l1 l2 : chainCost d (l1 ++ l2) = chainCost d l1 + chainCost d l2.
Proof.
  unfold chainCost. induction l1 as [|x l1 IH]; simpl; [lia|]. rewrite IH. lia.
Qed.

(** The first loop of [Cap] walks a prefix of the flush-list and takes the
    cost of each node it passes off the total; it stops within the limit
    or at the end of the list. *)
Lemma capWalk_chain fuel limit d : forall l s s',
  flushChain d (cap_oldest s) l ->
  capWalk fuel limit d s = Ok (None, s') ->
  exists l1 l2,
    l = l1 ++ l2 /\
    (length l1 < fuel)%nat /\
    flushChain d (cap_oldest s') l2 /\
    cap_size s' = cap_size s - chainCost d l1 /\
    (cap_size s' <= limit \/ l2 = []).
Proof.
  induction fuel as [|fuel IH]; intros l s s' Hc Hrun; [done|].
  cbn [capWalk] in Hrun.
  destruct (Z.ltb_spec limit (cap_size s)) as [Hlt|Hle]; cycle 1.
  { injection Hrun as <-. exists [], l. split_and!; try done; [simpl; lia | |].
    - unfold chainCost. simpl. lia.
    - by left. }
  case_bool_decide as Hmeta; cbn [negb andb] in Hrun.
  { injection Hrun as <-. exists [], l. split_and!; try done; [simpl; lia | |].
    - unfold chainCost. simpl. lia.
    - right. destruct l as [|x l]; [done|]. destruct Hc as (? & ? & _). congruence. }
  destruct l as [|x l]; [done|].
  destruct Hc as (Hx & Hxm & Hrest). rewrite Hx in *.
  destruct (d !! x) as [n|] eqn:Hn; [|done]. cbn [mbind Outcome_bind deref] in Hrun.
  destruct (DecodeNodeKey _) as [[owner path] hash].
  destruct (FlushFacts.writeNode_spec (cap_batch s) owner path hash (rlpEncode (cnode n)) true
              (cap_pruner s)) as [p' Hw].
  rewrite Hw in Hrun.
  destruct (IdealBatchSize <=? ValueSize _).
  - destruct (flushBatch _ p' (cap_disk s)) as [[[e|] b] dk]; [done|].
    apply IH with (l := l) in Hrun; [|done].
    destruct Hrun as (l1 & l2 & -> & Hlen & Hc2 & Hsize & Hstop).
    exists (x :: l1), l2. split_and!; try done; [simpl; lia|].
    rewrite Hsize. simpl. unfold chainCost at 2. simpl. rewrite Hn. simpl.
    fold (chainCost d l1). unfold nodeCost. lia.
  - apply IH with (l := l) in Hrun; [|done].
    destruct Hrun as (l1 & l2 & -> & Hlen & Hc2 & Hsize & Hstop).
    exists (x :: l1), l2. split_and!; try done; [simpl; lia|].
    rewrite Hsize. simpl. unfold chainCost at 2. simpl. rewrite Hn. simpl.
    fold (chainCost d l1). unfold nodeCost. lia.
Qed.


Lemma capWalk_total fuel limit d : forall l s,
  flushChain d (cap_oldest s) l -> (length l < fuel)%nat ->
  exists r, capWalk fuel limit d s = Ok r.
Proof.
  induction fuel as [|fuel IH]; intros l s Hc Hlen; [lia|].
  cbn [capWalk].
  destruct (limit <? cap_size s); [|by eexists].
  case_bool_decide as Hmeta; cbn [negb andb]; [by eexists|].
  destruct l as [|x l]; [done|].
  destruct Hc as (Hx & Hxm & Hrest). rewrite Hx in *.
  destruct (d !! x) as [n|] eqn:Hn; [|done]. cbn [mbind Outcome_bind deref].
  destruct (DecodeNodeKey _) as [[owner path] hash].
  destruct (FlushFacts.writeNode_spec (cap_batch s) owner path hash (rlpEncode (cnode n)) true
              (cap_pruner s)) as [p' Hw].
  rewrite Hw. simpl in Hlen.
  destruct (IdealBatchSize <=? ValueSize _).
  - destruct (flushBatch _ p' (cap_disk s)) as [[[e|] b] dk]; [by eexists|].
    apply (IH l); [done | lia].
  - apply (IH l); [done | lia].
Qed.

Lemma flushChain_head d k1 k2 l : flushChain d k1 l -> flushChain d k2 l -> k1 = k2.
Proof. destruct l; simpl; [congruence|]. intros (-> & _) (-> & _). done. Qed.

(** The second loop of [Cap] takes the nodes of the prefix out of the
    dirty map, and their cost off what is tracked. *)
Lemma capUncache_chain l2 target : forall l1 fuel db,
  flushChain (dirties db) (oldest db) (l1 ++ l2) ->
  NoDup (l1 ++ l2) ->
  flushChain (dirties db) target l2 ->
  (length l1 < fuel)%nat ->
  exists db',
    capUncache fuel target db = Ok db' /\
    oldest db' = target /\
    tracked db' = tracked db - chainCost (dirties db) l1 /\
    preimagesSize db' = preimagesSize db /\
    (forall k, k ∉ l1 -> dirties db' !! k = dirties db !! k) /\
    (forall k, k ∈ l1 -> dirties db' !! k = None).
Proof.
  induction l1 as [|x l1 IH]; intros fuel db Hc Hnd Ht Hlen;
    (destruct fuel as [|fuel]; [simpl in Hlen; lia|]); cbn [capUncache].
  - simpl in Hc. rewrite bool_decide_eq_true_2 by (by eapply flushChain_head).
    exists db. split_and!; try done.
    + by eapply flushChain_head.
    + unfold chainCost. simpl. lia.
    + intros k Hk. by apply elem_of_nil in Hk.
  - simpl in Hc, Hnd. destruct Hc as (Hx & Hxm & Hrest).
    apply NoDup_cons in Hnd as [Hxl Hnd].
    destruct (dirties db !! x) as [n|] eqn:Hn; [|done].
    assert (Hxt : x <> target).
    { intros ->. destruct l2 as [|y l2]; simpl in Ht; [done|].
      destruct Ht as (-> & _). apply Hxl, elem_of_app. right. by left. }
    rewrite bool_decide_eq_false_2 by congruence.
    rewrite Hx, Hn. cbn [mbind Outcome_bind deref].
    match goal with
    | |- exists db', capUncache fuel target ?db1 = _ /\ _ =>
        destruct (IH fuel db1) as (db' & Hrun & Hold & Htr & Hpre & Hkeep & Hgone)
    end.
    { simpl. by apply flushChain_delete. }
    { done. }
    { simpl. apply flushChain_delete; [|done]. intros Hin. apply Hxl, elem_of_app. by right. }
    { simpl in Hlen. lia. }
    exists db'. simpl in *. split_and!; try done.
    + rewrite Htr. unfold tracked. simpl.
      rewrite chainCost_delete by (intros Hin; apply Hxl, elem_of_app; by left).
      rewrite map_size_delete_Some by (by eexists).
      assert (size (dirties db) <> 0%nat).
      { intros Hz. apply map_size_empty_inv in Hz. rewrite Hz in Hn. done. }
      unfold chainCost at 2. simpl. rewrite Hn. simpl. fold (chainCost (dirties db) l1).
      unfold nodeCost.
      replace (Z.of_nat (pred (size (dirties db)))) with (Z.of_nat (size (dirties db)) - 1)
        by lia.
      rewrite Z.mul_sub_distr_r. lia.
    + intros k Hk. apply not_elem_of_cons in Hk as [Hkx Hk].
      rewrite Hkeep by done. by rewrite lookup_delete_ne.
    + intros k Hk. apply elem_of_cons in Hk as [->|Hk].
      * rewrite Hkeep by (intros Hin; apply Hxl, elem_of_app; by left).
        apply lookup_delete_eq.
      * by apply Hgone.
Qed.


Lemma update_tracked k f db db' :
  update k f db = Ok db' ->
  tracked db' = tracked db /\ oldest db' = oldest db /\ preimagesSize db' = preimagesSize db /\
  forall j, j <> k -> dirties db' !! j = dirties db !! j.
Proof.
  unfold update. destruct (dirties db !! k) as [c|] eqn:Hc; simpl; [|done].
  intros [= <-]. unfold tracked. simpl.
  rewrite map_size_insert_Some by (by eexists). split_and!; try done.
  intros j Hj. by rewrite lookup_insert_ne.
Qed.

(** X27.  The loop of [Cap] stops on one of two conditions.  On a database
    whose flush-list is well formed (from the oldest node it runs through
    distinct resident nodes to the meta root), a [Cap] that returns
    without an error leaves the total that [Size] reports at or below the
    limit, or it has flushed the whole list; and with fuel for the length
    of the list it does return. *)
Theorem Cap_within_limit_or_exhausted (fuel : nat) (limit : Z) (db : Database)
    (l : list string) :
  flushChain (dirties db) (oldest db) l ->
  NoDup l ->
  (forall db', Cap fuel limit db = Ok (None, db') ->
     exists total,
       Size db' = Ok (total, preimagesSize db') /\
       (total <= limit \/ oldest db' = metaRoot)) /\
  (is_Some (dirties db !! metaRoot) -> (length l < fuel)%nat ->
   exists r, Cap fuel limit db = Ok r).
Proof.
  intros Hchain Hnd.
  assert (Hmeta_l : metaRoot ∉ l) by (by eapply flushChain_not_meta).
  split.
  - intros db' Hrun. unfold Cap in Hrun.
    destruct (dirties db !! metaRoot) as [meta|] eqn:Hmeta; simpl in Hrun; [|done].
    destruct (capPreimages _ db) as [[[e0|] b0] dk0]; [done|].
    destruct (capWalk fuel limit (dirties db) _) as [[[e1|] s1]| |] eqn:Hwalk;
      simpl in Hrun; try done.
    apply (capWalk_chain _ _ _ l) in Hwalk; [|done].
    destruct Hwalk as (l1 & l2 & -> & Hlen & Hc2 & Hsize & Hstop). simpl in Hsize.
    destruct (flushBatch _ _ _) as [[[e2|] b2] dk2]; [done|].
    match type of Hrun with
    | (capUncache fuel _ ?dbm ≫= _) = _ => set (mid := dbm) in Hrun
    end.
    assert (Hmid : dirties mid = dirties db /\ oldest mid = oldest db /\
                   dirtiesSize mid = dirtiesSize db /\ childrenSize mid = childrenSize db).
    { unfold mid. destruct (_ <? preimagesSize db); [destruct (preimages db)|]; done. }
    destruct Hmid as (Hd & Ho & Hds & Hcs).
    destruct (capUncache_chain l2 (cap_oldest s1) l1 fuel mid)
      as (db3 & Hun & Hold3 & Htr3 & _ & Hkeep3 & _);
      [by rewrite Hd, Ho | done | by rewrite Hd | done |].
    rewrite Hun in Hrun. cbn [mbind Outcome_bind] in Hrun.
    assert (Hmeta3 : dirties db3 !! metaRoot = Some meta).
    { rewrite Hkeep3, Hd; [done|]. intros Hin. apply Hmeta_l, elem_of_app. by left. }
    assert (Htr : tracked mid = tracked db) by (unfold tracked; by rewrite Hd, Hds, Hcs).
    assert (Hfin : exists db4,
               (if bool_decide (oldest db3 = metaRoot) then Ok db3
                else update (oldest db3) (set_flushPrev metaRoot) db3) = Ok db4 /\
               tracked db4 = tracked db3 /\ oldest db4 = oldest db3 /\
               dirties db4 !! metaRoot = Some meta).
    { case_bool_decide as Hom.
      - exists db3. done.
      - destruct (update _ _ db3) as [db4| |] eqn:Hup; simpl in Hrun; try done.
        exists db4. apply update_tracked in Hup as (? & ? & _ & Hother).
        split_and!; try done. by rewrite Hother by done. }
    destruct Hfin as (db4 & Hup & Htr4 & Hold4 & Hmeta4).
    rewrite Hup in Hrun. cbn [mbind Outcome_bind] in Hrun.
    injection Hrun as <-.
    unfold Size. simpl. rewrite Hmeta4. simpl.
    eexists. split; [reflexivity|].
    destruct Hstop as [Hle| ->].
    + left. rewrite Hd in Htr3. unfold tracked in *. simpl in *.
      rewrite Z.mul_sub_distr_r in Hsize |- *. lia.
    + right. rewrite Hold4, Hold3. exact Hc2.
  - intros [meta Hmeta] Hlen. unfold Cap. rewrite Hmeta. cbn [mbind Outcome_bind deref].
    destruct (capPreimages _ db) as [[[e0|] b0] dk0]; [by eexists|].
    match goal with
    | |- exists r, (capWalk fuel limit (dirties db) ?s ≫= _) = _ =>
        destruct (capWalk_total fuel limit (dirties db) l s Hchain Hlen) as [[e1 s1] Hwalk];
        rewrite Hwalk; cbn [mbind Outcome_bind]
    end.
    destruct e1 as [e1|]; [by eexists|].
    apply (capWalk_chain _ _ _ l) in Hwalk; [|done].
    destruct Hwalk as (l1 & l2 & -> & Hlen1 & Hc2 & Hsize & Hstop).
    destruct (flushBatch _ _ _) as [[[e2|] b2] dk2]; [by eexists|].
    match goal with
    | |- exists r, (capUncache fuel _ ?dbm ≫= _) = _ => set (mid := dbm)
    end.
    assert (Hmid : dirties mid = dirties db /\ oldest mid = oldest db).
    { unfold mid. destruct (_ <? preimagesSize db); [destruct (preimages _)|]; done. }
    destruct Hmid as (Hd & Ho).
    destruct (capUncache_chain l2 (cap_oldest s1) l1 fuel mid)
      as (db3 & Hun & Hold3 & _ & _ & Hkeep3 & _);
      [by rewrite Hd, Ho | exact Hnd | by rewrite Hd | exact Hlen1 |].
    rewrite Hun. cbn [mbind Outcome_bind].
    case_bool_decide as Hom; [by eexists|].
    assert (Hin : is_Some (dirties db3 !! oldest db3)).
    { rewrite Hold3. destruct l2 as [|y l2]; simpl in Hc2; [by rewrite Hold3 in Hom|].
      destruct Hc2 as (-> & Hy & Hrest).
      rewrite Hkeep3, Hd.
      - destruct (dirties db !! y); [by eexists | done].
      - intros Hin. apply NoDup_app in Hnd as (_ & Hdisj & _).
        apply (Hdisj y Hin). by left. }
    destruct Hin as [c Hc]. unfold update. rewrite Hc. by eexists.
Qed.

End WithEnv.
End CapFacts.

Module CapWitnesses.
Import Trie Examples.

(** C2.  [Cap 0] on [orphanDb], the database [Dereference] leaves of
    [accountDb] with 34 bytes of children tracking that belong to no
    node: it returns without an error and has flushed the whole list, so
    that the meta root is all that is dirty and no node is left whose size
    could exceed the limit; yet [Size] reports 34 bytes, above the limit
    of 0. *)
Theorem Cap_zero_leaves_residue :
  @Size stdEnv orphanDb = Ok (170, 0) /\
  @Cap stdEnv 10 0 orphanDb = Ok (None, capped 0 orphanDb) /\
  dirties (capped 0 orphanDb)
  = {[ metaRoot := mkCachedNode nilNode 0 0 (Some ∅) metaRoot metaRoot ]} /\
  oldest (capped 0 orphanDb) = metaRoot /\
  dirtiesSize (capped 0 orphanDb) = 0 /\
  childrenSize (capped 0 orphanDb) = 34 /\
  @Size stdEnv (capped 0 orphanDb) = Ok (34, 0).
Proof. split_and!; vm_compute; reflexivity. Qed.

(** [Cap 200] on the two roots that share a leaf: the leaf and the first
    root are written, and 136 bytes remain tracked. *)
Lemma Cap_within_limit_or_exhausted_witness :
  flushChain (dirties sharedDb) (oldest sharedDb)
    [keyOf zeroHash [x00] hX; keyOf zeroHash [] hR1; keyOf zeroHash [] hR2] /\
  NoDup [keyOf zeroHash [x00] hX; keyOf zeroHash [] hR1; keyOf zeroHash [] hR2] /\
  @Cap stdEnv 10 200 sharedDb = Ok (None, capped 200 sharedDb) /\
  exists total,
    @Size stdEnv (capped 200 sharedDb) = Ok (total, preimagesSize (capped 200 sharedDb)) /\
    (total <= 200 \/ oldest (capped 200 sharedDb) = metaRoot).
Proof.
  assert (Hc : flushChain (dirties sharedDb) (oldest sharedDb)
                 [keyOf zeroHash [x00] hX; keyOf zeroHash [] hR1; keyOf zeroHash [] hR2]).
  { vm_compute. repeat split; discriminate. }
  assert (Hnd : NoDup [keyOf zeroHash [x00] hX; keyOf zeroHash [] hR1; keyOf zeroHash [] hR2]).
  { apply (bool_decide_eq_true_1 _). vm_compute. reflexivity. }
  assert (Hrun : @Cap stdEnv 10 200 sharedDb = Ok (None, capped 200 sharedDb))
    by (vm_compute; reflexivity).
  split; [exact Hc|]. split; [exact Hnd|]. split; [exact Hrun|].
  exact (proj1 (@CapFacts.Cap_within_limit_or_exhausted stdEnv 10 200 sharedDb _ Hc Hnd)
           _ Hrun).
Defined.

Example shared_capped_size : @Size stdEnv (capped 200 sharedDb) = Ok (136, 0).
Proof. vm_compute. reflexivity. Qed.

End CapWitnesses.

(** * More of the code *)

(** ** The pruner *)

Module PrunerRunFacts.
Section WithEnv.
Context `{E : Env}.
Import Pruner PrunerRun PrunerFacts.

Lemma insertByNumber_perm r l : insertByNumber r l ≡ₚ r :: l.
Proof.
  induction l as [|x l IH]; simpl; [done|].
  destruct (number r <? number x); [done|].
  rewrite IH. apply Permutation_swap.
Qed.

Lemma sortByNumber_perm l : sortByNumber l ≡ₚ l.
Proof.
  induction l as [|x l IH]; simpl; [done|].
  rewrite insertByNumber_perm. by rewrite IH.
Qed.

Lemma sorted_head_least r l x :
  StronglySorted before (r :: l) -> x ∈ r :: l -> number r <= number x.
Proof.
  intros Hs Hx. apply StronglySorted_inv in Hs as [_ Hall].
  apply elem_of_cons in Hx as [->|Hx]; [lia|].
  rewrite Forall_forall in Hall. specialize (Hall x Hx). unfold before in Hall. lia.
Qed.

Lemma sorted_numbers_NoDup l : StronglySorted before l -> NoDup (number <$> l).
Proof.
  induction 1 as [|x l Hs IH Hall]; simpl; [constructor|].
  constructor; [|done].
  intros Hin. apply list_elem_of_fmap in Hin as (y & Hy & Hin).
  rewrite Forall_forall in Hall. specialize (Hall y Hin). unfold before in Hall. lia.
Qed.

(** X1.  [removeRecord] of a record that is not tracked is fatal. *)
Theorem removeRecord_untracked (record : CommitRecord) (p : pruner) (d : Disk) :
  (forall r, r ∈ records p -> sameRecord r record = false) ->
  removeRecord record (p, d) = Panic.
Proof.
  intros Hno. unfold removeRecord.
  pose proof (removeLoop_skip record (length (records p)) 0 0 (records p)
                (length (records p)) false) as Hskip.
  rewrite Nat.add_0_r in Hskip. rewrite Hskip.
  - reflexivity.
  - intros j r _ Hj. apply Hno. by eapply list_elem_of_lookup_2.
  - simpl. lia.
Qed.

Lemma filter_sorted_prefix n l :
  StronglySorted before l ->
  exists rest, l = List.filter (fun r => number r <? n) l ++ rest /\
               Forall (fun r => n <= number r) rest.
Proof.
  induction 1 as [|x l Hs IH Hall]; [by exists []|].
  simpl. destruct (Z.ltb_spec (number x) n) as [Hlt|Hge].
  - destruct IH as (rest & Heq & Hrest). exists rest. split; [|done].
    simpl. by rewrite <- Heq.
  - exists (x :: l). split.
    + replace (List.filter _ l) with (@nil CommitRecord); [done|].
      symmetry. clear IH Hs. induction l as [|y l IHl]; [done|].
      apply Forall_cons in Hall as [Hy Hall]. simpl.
      unfold before in Hy. destruct (Z.ltb_spec (number y) n); [lia|]. by apply IHl.
    + constructor; [done|]. eapply Forall_impl; [exact Hall|].
      intros y Hy. unfold before in Hy. simpl. lia.
Qed.

(** X2.  On a record list in order, [filterRecords] returns the records of
    the head of the list: the tracked records are those followed by the
    records at or above the bound. *)
Theorem filterRecords_prefix (n : Z) (p : pruner) :
  checkRecords (records p) = true ->
  exists rest,
    records p = filterRecords n p ++ rest /\
    Forall (fun r => number r < n) (filterRecords n p) /\
    Forall (fun r => n <= number r) rest.
Proof.
  intros Hs. apply checkRecords_sorted in Hs.
  destruct (filter_sorted_prefix n _ Hs) as (rest & Heq & Hrest).
  exists rest. split_and!; [done | | done].
  unfold filterRecords. apply Forall_forall. intros r Hr.
  apply list_elem_of_In, filter_In in Hr as [_ Hr]. by apply Z.ltb_lt in Hr.
Qed.

Lemma checkRecords_tail r l : checkRecords (r :: l) = true -> checkRecords l = true.
Proof.
  intros H. apply checkRecords_sorted. apply checkRecords_sorted in H.
  by apply StronglySorted_inv in H as [? _].
Qed.

Lemma foldl_delete_sub {A} (f : A -> string) (gone : list A) :
  forall (s : gmap string (list byte)) key v,
    foldl (fun s k => delete (f k) s) s gone !! key = Some v -> s !! key = Some v.
Proof.
  induction gone as [|g gone IH]; intros s key v H; [done|].
  simpl in H. apply IH in H. apply lookup_delete_Some in H as [_ H]. done.
Qed.

(** One record leaves from the head of the list, whichever arm of
    [pruning] takes it out. *)
Lemma pruning_head r todo rs intr i p d :
  (forall s n h rec, readCommitRecord s n h = Some rec -> number rec = n /\ hash rec = h) ->
  records p = r :: rs ->
  checkRecords (records p) = true ->
  intr i = false ->
  exists d1,
    pruning (r :: todo) intr i (p, d) = pruning todo intr (S i) (set_records rs p, d1) /\
    store d1 !! gostring (commitRecordKey (number r) (hash r)) = None /\
    faults d1 = faults d /\
    (forall key v, store d1 !! key = Some v -> store d !! key = Some v).
Proof.
  intros Hread Hrec Hs Hi. cbn [pruning]. rewrite Hi.
  assert (Hsame : sameRecord r r = true) by (by apply sameRecord_true).
  assert (Hrm : forall d0, removeRecord r (p, d0)
                = Ok (set_records rs p, DeleteCommitRecord d0 (number r) (hash r))).
  { intros d0. by apply (removeRecord_tracked r p d0 [] r rs). }
  destruct (IsCanonical (number r) (hash r)); cbn [negb].
  - cbn [snd]. destruct (readCommitRecord (store d) (number r) (hash r)) as [record|] eqn:Hr.
    + destruct (Hread _ _ _ _ Hr) as [Hn Hh].
      unfold deleteStale.
      rewrite (removeRecord_tracked record p _ [] r rs Hrec Hs)
        by (apply sameRecord_true; by rewrite Hn, Hh).
      cbn [mbind Outcome_bind]. eexists. split; [reflexivity|].
      rewrite Hn, Hh. simpl. split; [apply lookup_delete_eq | split; [done|]].
      intros key v Hk. apply lookup_delete_Some in Hk as [_ Hk].
      by apply (foldl_delete_sub (fun k => gostring (trieNodeKey k))) in Hk.
    + rewrite Hrm. cbn [mbind Outcome_bind]. eexists. split; [reflexivity|].
      simpl. split; [apply lookup_delete_eq | split; [done|]].
      intros key v Hk. by apply lookup_delete_Some in Hk as [_ Hk].
  - rewrite Hrm. cbn [mbind Outcome_bind]. eexists. split; [reflexivity|].
    simpl. split; [apply lookup_delete_eq | split; [done|]].
    intros key v Hk. by apply lookup_delete_Some in Hk as [_ Hk].
Qed.

(** X3.  A run of [pruning] over the records at the head of a list in order
    (what [filterRecords] returns) takes them out one by one, oldest first,
    up to the first one the interrupt flag is found raised at: those
    records are no longer tracked and their metadata is gone from the disk,
    the others are tracked as before, and nothing has been written. *)
Theorem pruning_takes_head (rs rest : list CommitRecord) (intr : nat -> bool) (i : nat)
    (p : pruner) (d : Disk) :
  (forall s n h rec, readCommitRecord s n h = Some rec -> number rec = n /\ hash rec = h) ->
  records p = rs ++ rest ->
  checkRecords (records p) = true ->
  exists k d',
    (k <= length rs)%nat /\
    pruning rs intr i (p, d) = Ok (set_records (drop k rs ++ rest) p, d') /\
    (forall j, (j < k)%nat -> intr (i + j)%nat = false) /\
    ((k < length rs)%nat -> intr (i + k)%nat = true) /\
    (forall r, r ∈ take k rs ->
       store d' !! gostring (commitRecordKey (number r) (hash r)) = None) /\
    (forall key v, store d' !! key = Some v -> store d !! key = Some v) /\
    faults d' = faults d.
Proof.
  intros Hread. revert i p d.
  induction rs as [|r rs IH]; intros i p d Hrec Hs.
  - exists 0%nat, d. simpl in *. split_and!; try done; try lia.
    + rewrite <- Hrec. by destruct p.
    + intros r Hr. by apply elem_of_nil in Hr.
  - destruct (intr i) eqn:Hi.
    + exists 0%nat, d. cbn [pruning]. rewrite Hi. split_and!; try done; try (simpl; lia).
      * change (drop 0 (r :: rs)) with (r :: rs). rewrite <- Hrec. by destruct p.
      * intros _. by rewrite Nat.add_0_r.
      * intros r0 Hr. by apply elem_of_nil in Hr.
    + destruct (pruning_head r rs (rs ++ rest) intr i p d Hread Hrec Hs Hi)
        as (d1 & Hstep & Hgone & Hf & Hsub).
      assert (Hs1 : checkRecords (rs ++ rest) = true).
      { rewrite Hrec in Hs. by apply checkRecords_tail in Hs. }
      destruct (IH (S i) (set_records (rs ++ rest) p) d1 eq_refl Hs1)
        as (k & d' & Hk & Hrun & Hclear & Hstop & Hdel & Hsub' & Hf').
      exists (S k), d'. split_and!.
      * simpl. lia.
      * rewrite Hstep, Hrun. by destruct p.
      * intros [|j] Hj; [by rewrite Nat.add_0_r|].
        replace (i + S j)%nat with (S i + j)%nat by lia. apply Hclear. lia.
      * intros Hlt. replace (i + S k)%nat with (S i + k)%nat by lia. apply Hstop.
        simpl in Hlt. lia.
      * intros r0 Hr0. simpl in Hr0. apply elem_of_cons in Hr0 as [->|Hr0]; [|by apply Hdel].
        destruct (store d' !! _) as [v|] eqn:Hv; [|done].
        apply Hsub' in Hv. congruence.
      * intros key v Hv. by apply Hsub, Hsub'.
      * congruence.
Qed.

Lemma insertByNumber_sorted r l :
  StronglySorted before l -> number r ∉ number <$> l ->
  StronglySorted before (insertByNumber r l).
Proof.
  induction 1 as [|x l Hs IH Hall]; intros Hr; simpl.
  - repeat constructor.
  - rewrite fmap_cons in Hr. apply not_elem_of_cons in Hr as [Hrx Hr].
    destruct (Z.ltb_spec (number r) (number x)) as [Hlt|Hge].
    + constructor; [by constructor|]. constructor; [done|].
      eapply Forall_impl; [exact Hall|]. unfold before. intros; simpl in *; lia.
    + constructor; [by apply IH|].
      rewrite insertByNumber_perm. constructor; [|done]. unfold before. lia.
Qed.

Lemma sortByNumber_distinct l :
  NoDup (number <$> l) -> StronglySorted before (sortByNumber l).
Proof.
  induction l as [|x l IH]; intros Hnd; simpl; [constructor|].
  rewrite fmap_cons in Hnd. apply NoDup_cons in Hnd as [Hx Hnd].
  apply insertByNumber_sorted; [by apply IH|].
  by rewrite sortByNumber_perm.
Qed.

(** A sort of the records passes [checkRecords] exactly when no two of
    them have the same number. *)
Lemma checkRecords_sort l :
  checkRecords (sortByNumber l) = true <-> NoDup (number <$> l).
Proof.
  split.
  - intros H. apply checkRecords_sorted, sorted_numbers_NoDup in H.
    by rewrite sortByNumber_perm in H.
  - intros H. by apply checkRecords_sorted, sortByNumber_distinct.
Qed.

Lemma sorted_min l r0 rest :
  checkRecords l = true -> l = r0 :: rest -> forall r, r ∈ l -> number r0 <= number r.
Proof.
  intros Hs -> r Hr. apply checkRecords_sorted in Hs. by eapply sorted_head_least.
Qed.

(** X4.  [commitEnd] on an open record that [finalize] persists: when a
    tracked record has the number of the new one already, the call is
    fatal; otherwise the new record joins the tracked ones, which stay in
    order, [minRecord] is the smallest number among them, and the record
    and the two key buffers are cleared. *)
Theorem commitEnd_tracks (p : pruner) (d : Disk) (c : CommitRecord) :
  current p = Some c ->
  let f := finalize c (partialKeys p) (cleanKeys p) (store d) in
  fin_err f = None ->
  fin_exist f = true ->
  checkRecords (records p) = true ->
  (number (fin_record f) ∈ (number <$> records p) -> commitEnd p d = Panic) /\
  (number (fin_record f) ∉ (number <$> records p) ->
   exists p',
     commitEnd p d = Ok (None, p', mkDisk (applyBatch (fin_puts f) (store d)) (faults d)) /\
     records p' ≡ₚ fin_record f :: records p /\
     checkRecords (records p') = true /\
     (forall r, r ∈ records p' -> minRecord p' <= number r) /\
     (exists r, r ∈ records p' /\ minRecord p' = number r) /\
     current p' = None /\ partialKeys p' = [] /\ cleanKeys p' = []).
Proof.
  intros Hcur f Herr Hex Hs.
  assert (Hnd : NoDup (number <$> records p))
    by (by apply sorted_numbers_NoDup, checkRecords_sorted).
  assert (Hperm : sortByNumber (records p ++ [fin_record f]) ≡ₚ fin_record f :: records p).
  { rewrite sortByNumber_perm. by rewrite Permutation_app_comm. }
  unfold commitEnd. rewrite Hcur. fold f. rewrite Herr, Hex. cbn [records set_filtered set_iterated set_current].
  destruct (sortByNumber (records p ++ [fin_record f])) as [|r0 rs] eqn:Hsort.
  { apply Permutation_nil_l in Hperm. done. }
  split.
  - intros Hdup. rewrite <- Hsort.
    destruct (checkRecords (sortByNumber _)) eqn:Hchk; [|done].
    apply checkRecords_sort in Hchk. rewrite fmap_app in Hchk.
    apply NoDup_app in Hchk as (_ & Hdisj & _).
    exfalso. apply (Hdisj _ Hdup). simpl. by left.
  - intros Hfresh.
    assert (Hchk : checkRecords (r0 :: rs) = true).
    { rewrite <- Hsort. apply checkRecords_sort. rewrite fmap_app. apply NoDup_app.
      split_and!; [done | | simpl; apply NoDup_singleton].
      intros x Hx Hx'. simpl in Hx'. apply list_elem_of_singleton in Hx' as ->. done. }
    rewrite Hchk. cbn [mbind Outcome_bind].
    eexists. split; [reflexivity|]. simpl. split_and!; try done.
    + intros r Hr. by eapply sorted_min.
    + exists r0. split; [by left | done].
Qed.

(** X5.  [newPruner] returns unless two of the records it reads have the
    same number (or a hash is missing); the pruner it returns tracks
    exactly the records read, in order, with no record open, and
    [minRecord] is the smallest number, or the largest [uint64] when
    there is no record. *)
Theorem newPruner_tracks (maxRecords : Z) (numbers : list Z) (hashes : list Hash) :
  (length numbers <= length hashes)%nat ->
  (~ NoDup numbers -> newPruner maxRecords numbers hashes = Panic) /\
  (NoDup numbers ->
   exists p,
     newPruner maxRecords numbers hashes = Ok p /\
     records p ≡ₚ zip_with newCommitRecord numbers hashes /\
     checkRecords (records p) = true /\
     (forall r, r ∈ records p -> minRecord p <= number r) /\
     (numbers = [] -> minRecord p = 18446744073709551615) /\
     current p = None /\ MaximumRecords p = maxRecords).
Proof.
  intros Hlen.
  assert (Hnums : number <$> zip_with newCommitRecord numbers hashes = numbers).
  { revert hashes Hlen. induction numbers as [|n ns IH]; intros [|h hs] Hlen; simpl in *;
      try done; try lia. f_equal. apply IH. lia. }
  unfold newPruner.
  destruct (Nat.ltb_spec (length hashes) (length numbers)) as [?|_]; [lia|].
  split.
  - intros Hdup. destruct (checkRecords _) eqn:Hchk; [|done].
    apply checkRecords_sort in Hchk. rewrite Hnums in Hchk. done.
  - intros Hnd.
    assert (Hchk : checkRecords (sortByNumber (zip_with newCommitRecord numbers hashes)) = true).
    { apply checkRecords_sort. by rewrite Hnums. }
    rewrite Hchk. eexists. split; [reflexivity|]. simpl.
    split_and!; try done.
    + apply sortByNumber_perm.
    + intros r Hr.
      destruct (sortByNumber _) as [|r0 rs] eqn:Hsort; [by apply elem_of_nil in Hr|].
      by eapply sorted_min.
    + intros ->. done.
Qed.

(** X6.  In every state the loop is in between two turns of its
    [select], a run that has ended on its own included, [done] is nil
    exactly when [interrupt] is; a channel that is still open has its flag
    down, and a raised flag has its channel closed.  While the pruner is
    paused no run is in flight: the channel is not open and the flag is
    not down.  So a resume is fatal only when the pruner is not paused,
    and a pause only when it is. *)
Theorem loop_paused_excludes_run (s : loopState) :
  reachable s ->
  (done s = None <-> interrupt s = None) /\
  (done s = Some false -> interrupt s = Some false) /\
  (interrupt s = Some true -> done s = Some true) /\
  (paused s = true -> done s <> Some false /\ interrupt s <> Some false) /\
  (forall p, step ResumeReq p s = Panic <-> paused s = false) /\
  (forall p, step PauseReq p s = Panic <-> paused s = true).
Proof.
  intros Hr.
  assert (Hinv : (done s = None /\ interrupt s = None \/
                  done s = Some false /\ interrupt s = Some false /\ paused s = false \/
                  done s = Some true /\ interrupt s = Some false /\ paused s = false \/
                  done s = Some true /\ interrupt s = Some true)).
  { induction Hr as [|ev p s s' r Hr IH Hen Hstep|s Hr IH Hopen]; [by left| |].
    - destruct s as [pa dn it]. simpl in *.
      destruct ev as [n| | |]; simpl in Hstep.
      + injection Hstep as Hstep. unfold onSignal in Hstep. simpl in Hstep.
        destruct pa; [injection Hstep as <- _; exact IH|].
        case_bool_decide as Hdn; [injection Hstep as <- _; exact IH|].
        destruct (n <? minBlockConfirms); [injection Hstep as <- _; exact IH|].
        destruct (filterRecords _ p); injection Hstep as <- _; [exact IH|].
        simpl. right. by left.
      + destruct pa; [done|].
        destruct IH as [[-> ->]|[(-> & -> & _)|[(-> & -> & _)|[-> ->]]]];
          injection Hstep as <- _; simpl; tauto.
      + destruct pa; [|done]. simpl in Hstep.
        destruct IH as [[-> ->]|[(-> & -> & ?)|[(-> & -> & ?)|[-> ->]]]];
          try done; injection Hstep as <- _; simpl; tauto.
      + injection Hstep as <- _. by left.
    - destruct s as [pa dn it]. simpl in *. subst dn.
      destruct IH as [[? _]|[(_ & -> & ->)|[(? & _)|[? _]]]]; try done.
      right. right. by left. }
  split_and!.
  - destruct Hinv as [[-> ->]|[(-> & -> & _)|[(-> & -> & _)|[-> ->]]]]; by split.
  - destruct Hinv as [[-> ->]|[(-> & -> & _)|[(-> & -> & _)|[-> ->]]]]; done.
  - destruct Hinv as [[-> ->]|[(-> & -> & _)|[(-> & -> & _)|[-> ->]]]]; done.
  - intros Hp.
    destruct Hinv as [[-> ->]|[(_ & _ & Hn)|[(_ & _ & Hn)|[-> ->]]]];
      try (by split); by rewrite Hp in Hn.
  - intros p. simpl. destruct (paused s) eqn:Hp; simpl; [|done].
    split; [|done].
    destruct Hinv as [[_ ->]|[(_ & _ & Hn)|[(_ & _ & Hn)|[_ ->]]]]; done.
  - intros p. simpl. destruct (paused s); [done|].
    split; [|done]. by destruct (interrupt s) as [[|]|].
Qed.

(** X7.  The calls of [addKey] between [commitStart] and [commitEnd]: the
    keys of whole writes go to the open record, in order, the keys of
    partial writes to the partial buffer; the clean buffer and the tracked
    records are not touched, and [written] counts every call. *)
Theorem addKeys_routes (ks : list (list byte * bool)) (p : pruner) (c : CommitRecord) :
  current p = Some c ->
  let p' := addKeys ks p in
  current p' = Some (foldl recordAdd c (List.filter (fun kb => negb kb.2) ks).*1) /\
  partialKeys p' = partialKeys p ++ (List.filter (fun kb => kb.2) ks).*1 /\
  cleanKeys p' = cleanKeys p /\
  records p' = records p /\
  written p' = Nat.iter (length ks) (fun w => wrap64 (w + 1)) (written p).
Proof.
  revert p c. induction ks as [|[k b] ks IH]; intros p c Hcur.
  - simpl. split_and!; try done. by rewrite app_nil_r.
  - unfold addKeys. cbn [foldl fst snd]. fold (addKeys ks (addKey k b p).2).
    destruct b.
    + destruct (IH (addKey k true p).2 c) as (H1 & H2 & H3 & H4 & H5); [done|].
      cbv zeta in *. rewrite H1, H2, H3, H4, H5. simpl.
      split_and!; try done.
      * by rewrite <- app_assoc.
      * symmetry. apply (Nat.iter_succ_r (length ks) (fun w => wrap64 (w + 1))).
    + destruct (IH (addKey k false p).2 (recordAdd c k)) as (H1 & H2 & H3 & H4 & H5).
      { unfold addKey. simpl. by rewrite Hcur. }
      cbv zeta in *. rewrite H1, H2, H3, H4, H5. unfold addKey. simpl. rewrite Hcur. simpl.
      split_and!; try done.
      symmetry. apply (Nat.iter_succ_r (length ks) (fun w => wrap64 (w + 1))).
Qed.

End WithEnv.
End PrunerRunFacts.

Module AccessFacts.
Section WithEnv.
Context `{E : Env}.
Import Trie TrieAccess TrieFacts.

Lemma expandChildren_total cs :
  Forall (fun n => forall n' h, simplifyNode n = Some n' ->
                   exists m, expandNode h n' = Some m /\
                             exists n'', simplifyNode m = Some n'') cs ->
  forall cs', simplifyChildren simplifyNode cs = Some cs' ->
  exists ms, expandChildren (expandNode []) cs' = Some ms /\
             exists cs'', simplifyChildren simplifyNode ms = Some cs''.
Proof.
  induction 1 as [|c cs Hc Hcs IH]; intros cs' Hs; simpl in Hs.
  - injection Hs as <-. exists []. split; [done|]. by exists [].
  - destruct (simplifyChildren simplifyNode cs) as [rest'|] eqn:Hrest; cycle 1.
    { by destruct (match c with nilNode => _ | _ => _ end). }
    destruct (IH rest' eq_refl) as (ms & Hms & cs'' & Hcs'').
    destruct (match c with nilNode => Some nilNode | _ => simplifyNode c end) as [c'|] eqn:Hc';
      [|done].
    injection Hs as <-.
    assert (Hdec : c = nilNode \/ c <> nilNode) by (destruct c; (by left) || (by right)).
    destruct Hdec as [->|Hnil].
    + injection Hc' as <-. simpl. rewrite Hms. eexists. split; [reflexivity|].
      simpl. rewrite Hcs''. by eexists.
    + assert (Hsc : simplifyNode c = Some c') by (by destruct c).
      destruct (Hc c' [] Hsc) as (m & Hm & n'' & Hn'').
      assert (Hc'nil : c' <> nilNode).
      { intros ->. destruct c; simpl in Hsc; repeat case_match; congruence. }
      assert (Hmnil : m <> nilNode).
      { intros ->. destruct c'; simpl in Hm; repeat case_match; congruence. }
      cbn [expandChildren]. fold (expandChildren (expandNode [])).
      replace (match c' with nilNode => Some nilNode | _ => expandNode [] c' end)
        with (Some m) by (by destruct c').
      rewrite Hms. eexists. split; [reflexivity|].
      cbn [simplifyChildren]. fold (simplifyChildren simplifyNode).
      replace (match m with nilNode => Some nilNode | _ => simplifyNode m end)
        with (Some n'') by (by destruct m).
      rewrite Hcs''. by eexists.
Qed.

Lemma expand_simplified_node n : forall n' h,
  simplifyNode n = Some n' ->
  exists m, expandNode h n' = Some m /\ exists n'', simplifyNode m = Some n''.
Proof.
  induction n as [k v IH|cs IH|x|v| |k v IH|cs IH] using node_nested_ind;
    intros n' h Hs; simpl in Hs; try done.
  - injection Hs as <-. simpl. eexists. split; [done|]. by eexists.
  - injection Hs as <-. simpl. eexists. split; [done|]. by eexists.
  - destruct (simplifyNode v) as [v'|] eqn:Hv; [|done]. injection Hs as <-.
    destruct (IH v' [] eq_refl) as (m & Hm & n'' & Hn''). simpl. rewrite Hm.
    eexists. split; [reflexivity|]. simpl. rewrite Hn''. by eexists.
  - destruct (simplifyChildren simplifyNode cs) as [cs'|] eqn:Hcs; [|done].
    injection Hs as <-.
    destruct (expandChildren_total cs IH cs' Hcs) as (ms & Hms & cs'' & Hcs'').
    simpl. rewrite Hms. eexists. split; [reflexivity|]. simpl. rewrite Hcs''. by eexists.
Qed.

(** X8.  [obj] does not panic on an entry [insert] has cached: the node
    [simplifyNode] returned is expanded again, whatever the hash, and the
    expanded node can be simplified again. *)
Theorem obj_of_simplified (n : node) (c : cachedNode) (h : Hash) :
  simplifyNode n = Some (cnode c) ->
  exists m, obj c h = Some m /\ exists n'', simplifyNode m = Some n''.
Proof. intros Hs. unfold obj. by eapply expand_simplified_node. Qed.

Lemma forEach_no_panic {A S} (f : A -> S -> Outcome (error * S)) l :
  (forall a s, a ∈ l -> f a s <> Panic) -> forall s, forEach l f s <> Panic.
Proof.
  induction l as [|a l IH]; intros Hf s; [done|].
  cbn [forEach]. destruct (f a s) as [[[e|] s1]| |] eqn:Hfa; cbn [mbind Outcome_bind]; try done.
  - apply IH. intros a' s' Hin. apply Hf. by right.
  - exfalso. apply (Hf a s); [by left | done].
Qed.

(** X9.  On a node [simplifyNode] returned, so on every cached node,
    [iterateRefs] does not reach the panic of its type switch: it panics
    only where the callback does. *)
Theorem iterateRefs_panics_with_callback {S : Type} (n n' : node) (path : list byte)
    (onHashNode : list byte -> Hash -> S -> Outcome (error * S)) (s : S) :
  simplifyNode n = Some n' ->
  (forall p h s, onHashNode p h s <> Panic) ->
  iterateRefs n' path onHashNode s <> Panic.
Proof.
  intros Hs Hf. unfold iterateRefs. apply forEach_no_panic.
  intros [p h|] s' Hin; [apply Hf|].
  exfalso. by apply (simplifyNode_clean n n' Hs path).
Qed.

Lemma walkChildren_take walk path cs : forall i,
  walkChildren walk path cs i = walkChildren walk path (take (16 - i) cs) i.
Proof.
  induction cs as [|c cs IH]; intros i; [by rewrite take_nil|].
  rewrite walkChildren_cons.
  destruct (Nat.leb_spec 16 i) as [Hle|Hlt].
  - replace (16 - i)%nat with 0%nat by lia. done.
  - replace (16 - i)%nat with (S (16 - S i)) by lia. rewrite firstn_cons, walkChildren_cons.
    destruct (Nat.leb_spec 16 i); [lia|]. by rewrite IH.
Qed.

(** X10.  [iterateRefs] walks the first sixteen children of a full node and
    no other: the hash nodes it finds are those of the node cut after its
    sixteenth child, so the value slot is never walked. *)
Theorem iterateRefs_skips_value_slot {S : Type} (cs : list node) (path : list byte)
    (onHashNode : list byte -> Hash -> S -> Outcome (error * S)) (s : S) :
  walkRefs (rawFullNode cs) path = walkRefs (rawFullNode (take 16 cs)) path /\
  iterateRefs (rawFullNode cs) path onHashNode s
  = iterateRefs (rawFullNode (take 16 cs)) path onHashNode s.
Proof.
  assert (H : walkRefs (rawFullNode cs) path = walkRefs (rawFullNode (take 16 cs)) path).
  { cbn [walkRefs]. apply (walkChildren_take walkRefs path cs 0). }
  split; [done|]. unfold iterateRefs. by rewrite H.
Qed.

(** X11.  [insertPreimage] keeps the first preimage recorded for a hash: a
    second call for the same hash changes nothing, and the size counts the
    preimage once. *)
Theorem insertPreimage_first_wins (hash : Hash) (v1 v2 : list byte) (db : Database)
    (pre : gmap string (list byte)) :
  preimages db = Some pre ->
  pre !! gostring hash = None ->
  let db1 := insertPreimage hash v1 db in
  preimages db1 = Some (<[gostring hash := v1]> pre) /\
  preimagesSize db1 = preimagesSize db + 32 + Z.of_nat (length v1) /\
  insertPreimage hash v2 db1 = db1 /\
  dirties db1 = dirties db /\ diskdb db1 = diskdb db.
Proof.
  intros Hpre Hnone. unfold insertPreimage. rewrite Hpre, Hnone. simpl.
  rewrite lookup_insert_eq. split_and!; try done. unfold HashLength. lia.
Qed.

(** X12.  A lookup that finds a node can be repeated: the second call
    returns the same blob and leaves the database as the first did, which
    differs from the one before at most in the clean cache, and there only
    under the key looked up. *)
Theorem NodeByKey_stable (byteKey : list byte) (db db' : Database) (enc : list byte) :
  NodeByKey byteKey db = (enc, None, db') ->
  NodeByKey byteKey db' = (enc, None, db') /\
  dirties db' = dirties db /\ diskdb db' = diskdb db /\
  (forall k, k <> byteKey -> cleanGet (cleans db') k = cleanGet (cleans db) k).
Proof.
  unfold NodeByKey.
  destruct (cleanGet (cleans db) byteKey) as [|b0 bs] eqn:Hclean.
  - destruct (dirties db !! gostring byteKey) as [dirty|] eqn:Hd.
    + intros [= <- <-]. rewrite Hclean, Hd. done.
    + destruct (ReadTrieNode (diskdb db) byteKey) as [|b1 bs1] eqn:Hdisk; [done|].
      intros [= <- <-]. destruct (cleans db) as [cl|] eqn:Hcl.
      * simpl. rewrite lookup_insert_eq. simpl. split_and!; try done.
        intros k Hk. rewrite lookup_insert_ne; [done|].
        intros Heq. by apply CommonFacts.gostring_inj in Heq.
      * rewrite Hcl. simpl. rewrite Hd, Hdisk. done.
  - intros [= <- <-]. by rewrite Hclean.
Qed.

End WithEnv.
End AccessFacts.

Module CacheFacts.
Section WithEnv.
Context `{E : Env}.
Import Trie TrieAccess TrieFacts.

(** What [insert] does with a key that is not dirty. *)
Lemma insert_fresh owner path hash size n db n' :
  let key := gostring (EncodeNodeKey owner path hash) in
  dirties db !! key = None ->
  simplifyNode n = Some n' ->
  (oldest db = metaRoot \/ newest db = key \/ is_Some (dirties db !! newest db)) ->
  let ks := refKeys owner (walkRefs n' path) in
  let entry := mkCachedNode n' (wrap16 size) 0 None (newest db) metaRoot in
  let linked := bool_decide (oldest db <> metaRoot) in
  let relink k c := if linked && bool_decide (k = newest db) then set_flushNext key c else c in
  exists db',
    insert owner path hash size n db = Ok db' /\
    (forall k, k <> key ->
       dirties db' !! k = relink k <$> (bumped (occurrences k ks) <$> dirties db !! k)) /\
    dirties db' !! key = Some (relink key entry) /\
    newest db' = key /\
    oldest db' = (if linked then oldest db else key) /\
    dirtiesSize db' = dirtiesSize db + wrap16 (HashLength + csize entry) /\
    childrenSize db' = childrenSize db /\
    preimagesSize db' = preimagesSize db /\
    cleans db' = cleans db /\
    diskdb db' = diskdb db.
Proof.
  intros key Hnone Hn' Htail ks entry linked relink.
  unfold insert. fold key. rewrite Hnone, Hn'. cbn [deref mbind Outcome_bind].
  unfold iterateRefs.
  destruct (addParents_lookup owner (walkRefs n' path) (simplifyNode_clean n n' Hn' path) db)
    as (d' & Hrun & Hd').
  rewrite Hrun. cbn [mbind Outcome_bind]. fold entry. fold ks in Hd'.
  assert (Hd'key : d' !! key = None) by (now rewrite Hd', Hnone).
  subst relink linked. cbv beta.
  destruct (decide (oldest db = metaRoot)) as [Hold|Hold].
  + simpl. rewrite decide_True by done. simpl.
    rewrite (bool_decide_eq_false_2 (oldest db <> metaRoot)) by tauto. simpl.
    eexists. split; [reflexivity|]. simpl. split_and!; try done.
    * intros k Hk. rewrite lookup_insert_ne by done. rewrite Hd'.
      by destruct (dirties db !! k).
    * by rewrite lookup_insert_eq.
  + simpl. rewrite decide_False by done.
    rewrite (bool_decide_eq_true_2 (oldest db <> metaRoot)) by done. simpl.
    destruct Htail as [?|[Hnk|[t Ht]]]; [done| |].
    * rewrite (update_Some _ _ _ entry) by (simpl; rewrite Hnk; apply lookup_insert_eq).
      simpl. eexists. split; [reflexivity|]. simpl. split_and!; try done.
      -- intros k Hk. rewrite Hnk. rewrite !lookup_insert_ne by done.
         rewrite bool_decide_eq_false_2 by done. rewrite Hd'.
         by destruct (dirties db !! k).
      -- rewrite Hnk, bool_decide_eq_true_2 by done.
         by rewrite insert_insert_eq, lookup_insert_eq.
    * assert (Hne : newest db <> key) by (intros Heq; rewrite Heq, Hnone in Ht; done).
      rewrite (update_Some _ _ _ (bumped (occurrences (newest db) ks) t)); cycle 1.
      { simpl. rewrite lookup_insert_ne by done. by rewrite Hd', Ht. }
      simpl. eexists. split; [reflexivity|]. simpl. split_and!; try done.
      -- intros k Hk. destruct (decide (k = newest db)) as [->|Hkn].
         ++ rewrite lookup_insert_eq, Ht, bool_decide_eq_true_2 by done. done.
         ++ rewrite !lookup_insert_ne by done. rewrite bool_decide_eq_false_2 by done.
            rewrite Hd'. by destruct (dirties db !! k).
      -- rewrite lookup_insert_ne by done. rewrite lookup_insert_eq.
         by rewrite bool_decide_eq_false_2 by done.
Qed.

Lemma size_one_more {A} (d d' : gmap string A) key :
  d !! key = None ->
  (forall k, is_Some (d' !! k) <-> k = key \/ is_Some (d !! k)) ->
  size d' = S (size d).
Proof.
  intros Hnone Hdom.
  assert (Heq : dom d' = {[key]} ∪ dom d).
  { apply set_eq. intros k. rewrite elem_of_union, elem_of_singleton, !elem_of_dom.
    apply Hdom. }
  rewrite <- !size_dom, Heq, size_union, size_singleton; [done|].
  apply disjoint_singleton_l. rewrite elem_of_dom, Hnone. by intros [? ?].
Qed.

Lemma insert_fresh_keys owner path hash db db' :
  let key := gostring (EncodeNodeKey owner path hash) in
  dirties db !! key = None ->
  (forall k, k <> key -> exists f : cachedNode -> cachedNode,
                dirties db' !! k = f <$> dirties db !! k) ->
  is_Some (dirties db' !! key) ->
  forall k, is_Some (dirties db' !! k) <-> k = key \/ is_Some (dirties db !! k).
Proof.
  intros key Hnone Hother Hkey k. destruct (decide (k = key)) as [->|Hne].
  - split; [by left | done].
  - destruct (Hother k Hne) as [f Hf]. rewrite Hf, fmap_is_Some. split; [by right|].
    by intros [?|?].
Qed.

(** X13.  [insert] of a node that is not dirty makes the total [Size]
    reports grow by the size of the node, its hash and one [cachedNode],
    and leaves the size of the preimages alone. *)
Theorem insert_grows_Size (owner : Hash) (path : list byte) (hash : Hash) (sz : Z) (n n' : node)
    (db : Database) (total pre : Z) :
  dirties db !! gostring (EncodeNodeKey owner path hash) = None ->
  simplifyNode n = Some n' ->
  (oldest db = metaRoot \/ is_Some (dirties db !! newest db)) ->
  0 <= sz < 65504 ->
  Size db = Ok (total, pre) ->
  exists db',
    insert owner path hash sz n db = Ok db' /\
    Size db' = Ok (total + (HashLength + sz) + cachedNodeSize, pre).
Proof.
  intros Hnone Hn' Htail Hsize HS.
  destruct (insert_fresh owner path hash sz n db n' Hnone Hn')
    as (db' & Hrun & Hother & Hkey & _ & _ & Hds & Hcs & Hps & _); [tauto|].
  exists db'. split; [done|].
  unfold Size in *. destruct (dirties db !! metaRoot) as [meta|] eqn:Hmeta; [|done].
  simpl in HS. injection HS as <- <-.
  assert (Hmk : metaRoot <> gostring (EncodeNodeKey owner path hash))
    by (intros Heq; rewrite <- Heq, Hmeta in Hnone; done).
  rewrite (Hother _ Hmk), Hmeta. simpl.
  rewrite (size_one_more (dirties db) (dirties db') _ Hnone); cycle 1.
  { apply (insert_fresh_keys owner path hash db db'); [done | | by rewrite Hkey].
    intros k Hk. rewrite (Hother k Hk), <- option_fmap_compose. by eexists. }
  rewrite Hds, Hcs, Hps. simpl.
  assert (Hlen : forall b k c, lenChildren (children (if b : bool then set_flushNext k c else c))
                               = lenChildren (children c)) by (by intros [] ? ?).
  rewrite Hlen. unfold bumped. cbn [children set_parents].
  unfold HashLength in *. do 2 f_equal. unfold wrap16.
  rewrite (Z.mod_small sz) by lia. rewrite Z.mod_small by lia. lia.
Qed.

(** X14.  A node [insert] has cached is what a lookup of its key returns,
    encoded, when the clean cache holds nothing under that key; the lookup
    changes nothing. *)
Theorem insert_then_NodeByKey (owner : Hash) (path : list byte) (hash : Hash) (size : Z)
    (n n' : node) (db : Database) :
  let byteKey := EncodeNodeKey owner path hash in
  dirties db !! gostring byteKey = None ->
  simplifyNode n = Some n' ->
  (oldest db = metaRoot \/ is_Some (dirties db !! newest db)) ->
  cleanGet (cleans db) byteKey = [] ->
  exists db',
    insert owner path hash size n db = Ok db' /\
    NodeByKey byteKey db' = (rlpEncode n', None, db') /\
    (hash <> zeroHash -> Node owner path hash db' = (rlpEncode n', None, db')).
Proof.
  intros byteKey Hnone Hn' Htail Hclean.
  destruct (insert_fresh owner path hash size n db n' Hnone Hn')
    as (db' & Hrun & _ & Hkey & _ & _ & _ & _ & _ & Hcl & _); [tauto|].
  exists db'. split; [done|].
  assert (Hlook : NodeByKey byteKey db' = (rlpEncode n', None, db')).
  { unfold NodeByKey. rewrite Hcl, Hclean. fold byteKey in Hkey. rewrite Hkey.
    unfold rlp. by destruct (_ && _). }
  split; [done|]. intros Hh. unfold Node. by rewrite decide_False.
Qed.

End WithEnv.
End CacheFacts.

Module ShapeFacts.
Section WithEnv.
Context `{E : Env}.
Import Trie TrieAccess TrieFacts CacheFacts CapFacts.

(** A flush-list keeps its course when no entry on it changes its
    successor. *)
Lemma flushChain_ext (d d' : gmap string cachedNode) l : forall k,
  flushChain d k l ->
  (forall x c, x ∈ l -> d !! x = Some c ->
     exists c', d' !! x = Some c' /\ flushNext c' = flushNext c) ->
  flushChain d' k l.
Proof.
  induction l as [|x l IH]; intros k Hc Hsame; [done|].
  destruct Hc as (-> & Hx & Hrest). simpl. split_and!; [done | done |].
  destruct (d !! x) as [c|] eqn:Hc; [|done].
  destruct (Hsame x c) as (c' & -> & ->); [by left | done |].
  apply IH; [done|]. intros y cy Hy. apply Hsame. by right.
Qed.

(** A new tail: the old tail points to it, it points to the meta root. *)
Lemma flushChain_snoc (d d' : gmap string cachedNode) key e l : forall k,
  flushChain d k l ->
  NoDup l ->
  l <> [] ->
  key <> metaRoot ->
  d' !! key = Some e -> flushNext e = metaRoot ->
  (forall x c, x ∈ l -> d !! x = Some c ->
     exists c', d' !! x = Some c' /\
                flushNext c' = (if bool_decide (last l = Some x) then key else flushNext c)) ->
  flushChain d' k (l ++ [key]).
Proof.
  induction l as [|x l IH]; intros k Hc Hnd Hne Hkey He Hnext Hstep; [done|].
  destruct Hc as (-> & Hx & Hrest). apply NoDup_cons in Hnd as [Hxl Hnd].
  simpl. split_and!; [done | done |].
  destruct (d !! x) as [c|] eqn:Hc; [|done].
  destruct (Hstep x c) as (c' & -> & Hc'); [by left | done |].
  destruct l as [|y l].
  - simpl in *. rewrite bool_decide_eq_true_2 in Hc' by done. rewrite Hc'.
    split_and!; [done | done |]. rewrite He. by rewrite Hnext.
  - rewrite bool_decide_eq_false_2 in Hc'; cycle 1.
    { intros Hlast. apply Hxl. change (last (x :: y :: l)) with (last (y :: l)) in Hlast.
      by apply last_Some_elem_of in Hlast. }
    rewrite Hc'. apply IH; try done.
    intros z cz Hz Hcz. destruct (Hstep z cz) as (cz' & Hz' & Hnz); [by right | done |].
    exists cz'. split; [done|]. rewrite Hnz.
    change (last (x :: y :: l)) with (last (y :: l)). done.
Qed.

(** X15.  [insert] keeps the flush-list well formed: on a database whose
    flush-list is [l], the insertion of a node that is not dirty does not
    panic, and the flush-list becomes [l] with the new key at its end. *)
Theorem insert_keeps_wellFormed (owner : Hash) (path : list byte) (hash : Hash) (sz : Z)
    (n n' : node) (db : Database) (l : list string) :
  wellFormed db l ->
  dirties db !! gostring (EncodeNodeKey owner path hash) = None ->
  simplifyNode n = Some n' ->
  exists db',
    insert owner path hash sz n db = Ok db' /\
    wellFormed db' (l ++ [gostring (EncodeNodeKey owner path hash)]).
Proof.
  intros (Hchain & Hnd & Hlast & Hdom) Hnone Hn'.
  set (key := gostring (EncodeNodeKey owner path hash)) in *.
  assert (Hkm : key <> metaRoot).
  { intros Heq. assert (Hm : is_Some (dirties db !! metaRoot)) by (apply Hdom; by left).
    rewrite <- Heq, Hnone in Hm. by destruct Hm. }
  assert (Hkl : key ∉ l).
  { intros Hin. assert (Hm : is_Some (dirties db !! key)) by (apply Hdom; by right).
    rewrite Hnone in Hm. by destruct Hm. }
  assert (Htail : oldest db = metaRoot \/ newest db = key \/ is_Some (dirties db !! newest db)).
  { destruct l as [|x l]; [by left|]. right. right. apply Hdom. right.
    eapply last_Some_elem_of. by apply Hlast. }
  destruct (insert_fresh owner path hash sz n db n' Hnone Hn' Htail)
    as (db' & Hrun & Hother & Hkey & Hnew & Hold & _).
  exists db'. split; [done|]. fold key in Hother, Hkey, Hnew, Hold.
  assert (Hkeys : forall k, is_Some (dirties db' !! k) <-> k = key \/ is_Some (dirties db !! k)).
  { apply (insert_fresh_keys owner path hash db db'); [done | | fold key; by rewrite Hkey].
    fold key. intros k Hk. rewrite (Hother k Hk), <- option_fmap_compose. by eexists. }
  split_and!.
  - rewrite Hold. destruct l as [|x l].
    + simpl in Hchain. rewrite bool_decide_eq_false_2 by (rewrite Hchain; tauto).
      simpl. split_and!; [done | done |]. rewrite Hkey.
      rewrite bool_decide_eq_false_2 by (rewrite Hchain; tauto). simpl. done.
    + assert (Hlinked : oldest db <> metaRoot).
      { destruct Hchain as (-> & ? & _). done. }
      rewrite bool_decide_eq_true_2 by done.
      assert (Hnl : newest db ∈ x :: l) by (eapply last_Some_elem_of; by apply Hlast).
      rewrite (bool_decide_eq_false_2 (key = newest db)) in Hkey by (intros Heq; congruence).
      rewrite andb_false_r in Hkey.
      eapply (flushChain_snoc (dirties db) (dirties db') key _ (x :: l) _ Hchain Hnd);
        [done | exact Hkm | exact Hkey | done |].
      intros y c Hy Hc.
        assert (Hyk : y <> key) by (intros ->; done).
        rewrite (Hother y Hyk), Hc. simpl. eexists. split; [reflexivity|].
        rewrite (bool_decide_eq_true_2 (oldest db <> metaRoot)) by done. simpl.
        rewrite Hlast by done.
        destruct (decide (y = newest db)) as [->|Hyn].
        -- by rewrite !bool_decide_eq_true_2.
        -- rewrite !bool_decide_eq_false_2; [done | congruence | done].
  - apply NoDup_app. split_and!; [done | | apply NoDup_singleton].
    intros x Hx Hx'. apply list_elem_of_singleton in Hx' as ->. done.
  - intros _. by rewrite last_snoc, Hnew.
  - intros k. rewrite Hkeys, Hdom, elem_of_app, list_elem_of_singleton. tauto.
Qed.

End WithEnv.
End ShapeFacts.

Module CapMoreFacts.
Section WithEnv.
Context `{E : Env}.
Import Trie TrieAccess TrieFacts FlushFacts CapFacts ShapeFacts.

Lemma durable_keeps (s s' : gmap string (list byte)) k :
  (forall dk, is_Some (s !! dk) -> is_Some (s' !! dk)) -> durable s k -> durable s' k.
Proof. intros Hk (dk & raw & H1 & H2 & H3). exists dk, raw. split_and!; try done. by apply Hk. Qed.

Lemma queued_app b extra s k : queued b s k -> queued (b ++ extra) s k.
Proof.
  intros [Hd|(dk & v & raw & Hin & H1 & H2)]; [by left|].
  right. exists dk, v, raw. split_and!; try done. apply elem_of_app. by left.
Qed.

Lemma queued_flushed b p d b' d' k :
  flushBatch b p d = (None, b', d') -> queued b (store d) k -> durable (store d') k.
Proof.
  intros Hf Hq.
  assert (Hkeep : forall dk, is_Some (store d !! dk) -> is_Some (store d' !! dk)).
  { intros dk Hdk. pose proof (flushBatch_keeps b p d dk Hdk) as H. by rewrite Hf in H. }
  destruct Hq as [Hd|(dk & v & raw & Hin & H1 & H2)]; [by eapply durable_keeps|].
  exists dk, raw. split_and!; try done.
  pose proof (flushBatch_has b p d (dk, v)) as H. rewrite Hf in H. simpl in H.
  apply H; [done|].
  unfold flushBatch in Hf. destruct (flushMarker p) as [[e|] extra]; [done|].
  destruct (batchWrite (b ++ extra) d) as [e' d1]. injection Hf as _ <- _.
  apply elem_of_app. by left.
Qed.

(** The first loop of [Cap]: the nodes it passes are on the disk or in
    the batch, and the disk loses no key. *)
Lemma capWalk_queued fuel limit d : forall l s e s',
  flushChain d (cap_oldest s) l ->
  capWalk fuel limit d s = Ok (e, s') ->
  (forall dk, is_Some (store (cap_disk s) !! dk) -> is_Some (store (cap_disk s') !! dk)) /\
  (e = None ->
   exists l1 l2,
     l = l1 ++ l2 /\
     (length l1 < fuel)%nat /\
     flushChain d (cap_oldest s') l2 /\
     (forall k, queued (cap_batch s) (store (cap_disk s)) k ->
                queued (cap_batch s') (store (cap_disk s')) k) /\
     ((forall x, IsStateTrieNodeKey (trieNodeKey x) = (true, x)) ->
      forall k, k ∈ l1 -> reencodes k -> queued (cap_batch s') (store (cap_disk s')) k)).
Proof.
  induction fuel as [|fuel IH]; intros l s e s' Hc Hrun; [done|].
  cbn [capWalk] in Hrun.
  assert (Hstop : (e, s') = (None, s) ->
            (forall dk, is_Some (store (cap_disk s) !! dk) -> is_Some (store (cap_disk s') !! dk)) /\
            (e = None ->
             exists l1 l2,
               l = l1 ++ l2 /\ (length l1 < S fuel)%nat /\ flushChain d (cap_oldest s') l2 /\
               (forall k, queued (cap_batch s) (store (cap_disk s)) k ->
                          queued (cap_batch s') (store (cap_disk s')) k) /\
               ((forall x, IsStateTrieNodeKey (trieNodeKey x) = (true, x)) ->
                forall k, k ∈ l1 -> reencodes k ->
                          queued (cap_batch s') (store (cap_disk s')) k))).
  { intros [= -> ->]. split; [done|]. intros _. exists [], l.
    split_and!; try done; [simpl; lia|]. intros _ k Hk. by apply elem_of_nil in Hk. }
  destruct (limit <? cap_size s); cbn [andb] in Hrun; [|injection Hrun as <- <-; by apply Hstop].
  case_bool_decide as Hmeta; cbn [negb] in Hrun; [injection Hrun as <- <-; by apply Hstop|].
  clear Hstop.
  destruct l as [|x l]; [done|].
  destruct Hc as (Hx & Hxm & Hrest). rewrite Hx in *.
  destruct (d !! x) as [n|] eqn:Hn; [|done]. cbn [mbind Outcome_bind deref] in Hrun.
  destruct (DecodeNodeKey (list_byte_of_string x)) as [[owner path] hash] eqn:Hdec.
  destruct (writeNode_spec (cap_batch s) owner path hash (rlpEncode (cnode n)) true
              (cap_pruner s)) as [p' Hw].
  rewrite Hw in Hrun.
  set (b1 := cap_batch s ++ [(trieNodeKey (EncodeNodeKey owner path hash), rlpEncode (cnode n))])
    in *.
  assert (Hq1 : (forall y, IsStateTrieNodeKey (trieNodeKey y) = (true, y)) -> reencodes x ->
                queued b1 (store (cap_disk s)) x).
  { intros Hlaw Hre. right. unfold reencodes in Hre. rewrite Hdec in Hre.
    eexists _, _, _. split_and!; [|apply Hlaw | exact Hre].
    apply elem_of_app. right. by left. }
  destruct (IdealBatchSize <=? ValueSize b1).
  - destruct (flushBatch b1 p' (cap_disk s)) as [[[e1|] b2] dk] eqn:Hf.
    + injection Hrun as <- <-. simpl. split; [|done].
      intros dk0 Hdk0. pose proof (flushBatch_keeps b1 p' (cap_disk s) dk0 Hdk0) as H.
      by rewrite Hf in H.
    + assert (Hkeep : forall dk0, is_Some (store (cap_disk s) !! dk0) -> is_Some (store dk !! dk0)).
      { intros dk0 Hdk0. pose proof (flushBatch_keeps b1 p' (cap_disk s) dk0 Hdk0) as H.
        by rewrite Hf in H. }
      apply IH with (l := l) in Hrun; [|done]. simpl in Hrun.
      destruct Hrun as [Hk2 Hrun]. split; [intros dk0 Hdk0; by apply Hk2, Hkeep|].
      intros He. destruct (Hrun He) as (l1 & l2 & -> & Hlen & Hc2 & Hmono & Hin).
      exists (x :: l1), l2. split_and!; try done; [simpl; lia | |].
      * intros k Hk. apply Hmono. left. eapply queued_flushed; [exact Hf|].
        by apply queued_app.
      * intros Hlaw k Hk Hre. apply elem_of_cons in Hk as [->|Hk]; [|by apply Hin].
        apply Hmono. left. eapply queued_flushed; [exact Hf|]. by apply Hq1.
  - apply IH with (l := l) in Hrun; [|done]. simpl in Hrun.
    destruct Hrun as [Hk2 Hrun]. split; [done|].
    intros He. destruct (Hrun He) as (l1 & l2 & -> & Hlen & Hc2 & Hmono & Hin).
    exists (x :: l1), l2. split_and!; try done; [simpl; lia | |].
    + intros k Hk. apply Hmono. by apply queued_app.
    + intros Hlaw k Hk Hre. apply elem_of_cons in Hk as [->|Hk]; [|by apply Hin].
      apply Hmono. by apply Hq1.
Qed.

Lemma capUncache_frame fuel target : forall db db',
  capUncache fuel target db = Ok db' ->
  newest db' = newest db /\ cleans db' = cleans db /\ diskdb db' = diskdb db /\
  preimages db' = preimages db /\ db_pruner db' = db_pruner db.
Proof.
  induction fuel as [|fuel IH]; intros db db' Hrun; [done|].
  cbn [capUncache] in Hrun. case_bool_decide; [by injection Hrun as <-|].
  destruct (dirties db !! oldest db) as [n|]; [|done]. cbn [mbind Outcome_bind deref] in Hrun.
  apply IH in Hrun. simpl in Hrun. done.
Qed.

Lemma capPreimages_keeps flush db e b dk :
  capPreimages flush db = (e, b, dk) ->
  forall k, is_Some (store (diskdb db) !! k) -> is_Some (store dk !! k).
Proof.
  unfold capPreimages. intros Hrun k Hk.
  destruct flush; [|by injection Hrun as _ _ <-].
  destruct (preimages db) as [pre|]; [|by injection Hrun as _ _ <-].
  destruct (IdealBatchSize <? _); [|by injection Hrun as _ _ <-].
  pose proof (batchWrite_keeps (WritePreimages pre) (diskdb db) k Hk) as H.
  destruct (batchWrite _ _) as [[e0|] d0]; injection Hrun as _ _ <-; done.
Qed.

(** What a [Cap] that returns without an error has done. *)
Lemma Cap_success fuel limit db l db' :
  flushChain (dirties db) (oldest db) l ->
  NoDup l ->
  Cap fuel limit db = Ok (None, db') ->
  exists l1 l2,
    l = l1 ++ l2 /\
    flushChain (dirties db') (oldest db') l2 /\
    (forall k, k ∈ l1 -> dirties db' !! k = None) /\
    (forall k c, k ∉ l1 -> dirties db !! k = Some c ->
       exists c', dirties db' !! k = Some c' /\
                  c' = (if bool_decide (k = oldest db' /\ k <> metaRoot)
                        then set_flushPrev metaRoot c else c)) /\
    (forall k, dirties db !! k = None -> dirties db' !! k = None) /\
    newest db' = newest db /\ cleans db' = cleans db /\
    (forall dk, is_Some (store (diskdb db) !! dk) -> is_Some (store (diskdb db') !! dk)) /\
    ((forall x, IsStateTrieNodeKey (trieNodeKey x) = (true, x)) ->
     forall k, k ∈ l1 -> reencodes k -> durable (store (diskdb db')) k).
Proof.
  intros Hchain Hnd Hrun. unfold Cap in Hrun.
  destruct (dirties db !! metaRoot) as [meta|] eqn:Hmeta; simpl in Hrun; [|done].
  destruct (capPreimages _ db) as [[[e0|] b0] dk0] eqn:Hpre; [done|].
  destruct (capWalk fuel limit (dirties db) _) as [[[e1|] s1]| |] eqn:Hwalk;
    simpl in Hrun; try done.
  apply (capWalk_queued _ _ _ l) in Hwalk; [|done].
  destruct Hwalk as [Hkeep1 Hwalk].
  destruct (Hwalk eq_refl) as (l1 & l2 & -> & Hlen & Hc2 & _ & Hq). simpl in Hkeep1.
  destruct (flushBatch _ _ _) as [[[e2|] b2] dk2] eqn:Hf; [done|].
  match type of Hrun with
  | (capUncache fuel _ ?dbm ≫= _) = _ => set (mid := dbm) in Hrun
  end.
  assert (Hmid : dirties mid = dirties db /\ oldest mid = oldest db /\
                 newest mid = newest db /\ cleans mid = cleans db /\ diskdb mid = dk2).
  { unfold mid. destruct (_ <? preimagesSize db); [destruct (preimages _)|]; done. }
  destruct Hmid as (Hd & Ho & Hnw & Hcl & Hdk).
  destruct (capUncache_chain l2 (cap_oldest s1) l1 fuel mid)
    as (db3 & Hun & Hold3 & _ & _ & Hkeep3 & Hgone3);
    [by rewrite Hd, Ho | done | by rewrite Hd | done |].
  rewrite Hun in Hrun. cbn [mbind Outcome_bind] in Hrun.
  apply capUncache_frame in Hun as (Hnw3 & Hcl3 & Hdk3 & _).
  assert (Hfin : exists db4,
             (if bool_decide (oldest db3 = metaRoot) then Ok db3
              else update (oldest db3) (set_flushPrev metaRoot) db3) = Ok db4 /\
             oldest db4 = oldest db3 /\ newest db4 = newest db3 /\ cleans db4 = cleans db3 /\
             diskdb db4 = diskdb db3 /\
             forall k, dirties db4 !! k
                       = (fun c => if bool_decide (k = oldest db3 /\ k <> metaRoot)
                                   then set_flushPrev metaRoot c else c) <$> dirties db3 !! k).
  { case_bool_decide as Hom.
    - exists db3. split_and!; try done. intros k.
      rewrite bool_decide_eq_false_2 by (rewrite Hom; tauto).
      by destruct (dirties db3 !! k).
    - unfold update in Hrun |- *.
      destruct (dirties db3 !! oldest db3) as [c|] eqn:Hc; simpl in Hrun; [|done].
      eexists. split; [reflexivity|]. simpl. split_and!; try done.
      intros k. destruct (decide (k = oldest db3)) as [->|Hk].
      + rewrite lookup_insert_eq, Hc. simpl. by rewrite bool_decide_eq_true_2.
      + rewrite lookup_insert_ne by done. rewrite bool_decide_eq_false_2 by tauto.
        by destruct (dirties db3 !! k). }
  destruct Hfin as (db4 & Hup & Hold4 & Hnw4 & Hcl4 & Hdk4 & Hd4).
  rewrite Hup in Hrun. cbn [mbind Outcome_bind] in Hrun. injection Hrun as <-. simpl.
  assert (Hdisj : forall k, k ∈ l2 -> k ∉ l1).
  { intros k H2 H1. apply NoDup_app in Hnd as (_ & Hdisj & _). by apply (Hdisj k). }
  exists l1, l2. split_and!; try done.
  - rewrite Hold4, Hold3.
    apply (flushChain_ext (dirties db)); [done|].
    intros x c Hx Hc. rewrite Hd4, Hkeep3, Hd, Hc by (by apply Hdisj). simpl.
    eexists. split; [reflexivity|]. destruct (bool_decide (x = _ /\ _)); reflexivity.
  - intros k Hk. by rewrite Hd4, Hgone3.
  - intros k c Hk Hc. rewrite Hd4, Hkeep3, Hd, Hc by done. simpl.
    eexists. split; [reflexivity|]. by rewrite Hold4.
  - intros k Hk. rewrite Hd4.
    destruct (decide (k ∈ l1)) as [Hin|Hin]; [by rewrite Hgone3|].
    by rewrite Hkeep3, Hd, Hk.
  - congruence.
  - congruence.
  - intros dk Hdk0. rewrite Hdk4, Hdk3, Hdk.
    pose proof (flushBatch_keeps (cap_batch s1) (cap_pruner s1) (cap_disk s1) dk) as H.
    rewrite Hf in H. apply H, Hkeep1. by eapply capPreimages_keeps.
  - intros Hlaw k Hk Hre. rewrite Hdk4, Hdk3, Hdk.
    eapply queued_flushed; [exact Hf|]. by apply Hq.
Qed.

(** X16.  [Cap] keeps the flush-list well formed and flushes from its head:
    after a [Cap] that returns without an error the nodes of a prefix of
    the list have left the dirty map, in list order, the flush-list is the
    rest, every remaining entry is as it was but for the back link of the
    new head, and neither [newest] nor the clean cache has changed. *)
Theorem Cap_keeps_wellFormed (fuel : nat) (limit : Z) (db db' : Database) (l : list string) :
  wellFormed db l ->
  Cap fuel limit db = Ok (None, db') ->
  exists l1 l2,
    l = l1 ++ l2 /\
    wellFormed db' l2 /\
    (forall k, k ∈ l1 -> dirties db' !! k = None) /\
    (forall k, k ∉ l1 -> k <> oldest db' -> dirties db' !! k = dirties db !! k) /\
    (forall c, dirties db !! oldest db' = Some c -> oldest db' <> metaRoot ->
               dirties db' !! oldest db' = Some (set_flushPrev metaRoot c)) /\
    cleans db' = cleans db.
Proof.
  intros (Hchain & Hnd & Hlast & Hdom) Hrun.
  destruct (Cap_success fuel limit db l db' Hchain Hnd Hrun)
    as (l1 & l2 & -> & Hc2 & Hgone & Hkept & Hnone & Hnw & Hcl & _).
  assert (Hdisj : forall k, k ∈ l2 -> k ∉ l1).
  { intros k H2 H1. apply NoDup_app in Hnd as (_ & Hdisj & _). by apply (Hdisj k). }
  assert (Hml : metaRoot ∉ l1 ++ l2) by (by eapply flushChain_not_meta).
  exists l1, l2. split_and!; try done.
  - split_and!; try done.
    + by apply NoDup_app in Hnd as (_ & _ & ?).
    + intros Hne. rewrite Hnw, <- Hlast by (by destruct l1, l2).
      destruct l2 as [|y l2]; [done|]. by rewrite last_app_cons.
    + intros k. split.
      * intros [c' Hc']. destruct (dirties db !! k) as [c|] eqn:Hc; cycle 1.
        { by rewrite (Hnone k Hc) in Hc'. }
        assert (Hin : k = metaRoot \/ k ∈ l1 ++ l2) by (apply Hdom; by eexists).
        destruct Hin as [?|Hin]; [by left|]. apply elem_of_app in Hin as [Hin|Hin]; [|by right].
        by rewrite (Hgone k Hin) in Hc'.
      * intros Hk.
        assert (Hin : is_Some (dirties db !! k)).
        { apply Hdom. destruct Hk as [?|?]; [by left|]. right. apply elem_of_app. by right. }
        destruct Hin as [c Hc].
        destruct (Hkept k c) as (c' & Hc' & _); [|done|by eexists].
        destruct Hk as [->|Hk]; [|by apply Hdisj].
        intros Hin. apply Hml, elem_of_app. by left.
  - intros k Hk Hko. destruct (dirties db !! k) as [c|] eqn:Hc; [|by apply Hnone].
    destruct (Hkept k c Hk Hc) as (c' & -> & ->).
    by rewrite bool_decide_eq_false_2 by tauto.
  - intros c Hc Hom.
    assert (Hin : oldest db' ∉ l1).
    { destruct l2 as [|y l2]; [done|]. destruct Hc2 as (-> & _). apply Hdisj. by left. }
    destruct (Hkept _ c Hin Hc) as (c' & -> & ->).
    by rewrite bool_decide_eq_true_2.
Qed.

(** X17.  [Cap] writes before it drops: when every trie node key is
    recognised as one and the keys of the flush-list decode to what encodes
    them, every node a [Cap] has taken out of the dirty map is on the disk,
    and the disk has lost no key, whether [Cap] returns an error or not. *)
Theorem Cap_flushed (fuel : nat) (limit : Z) (db db' : Database) (l : list string) (r : error) :
  (forall x, IsStateTrieNodeKey (trieNodeKey x) = (true, x)) ->
  (forall k, k ∈ l -> reencodes k) ->
  flushChain (dirties db) (oldest db) l ->
  NoDup l ->
  Cap fuel limit db = Ok (r, db') ->
  flushedOnly db db'.
Proof.
  intros Hlaw Hre Hchain Hnd Hrun. destruct r as [e|].
  - pose proof (Cap_error fuel limit db e db' Hrun) as (Hd & _).
    apply flushedOnly_same_keys; [by rewrite Hd|].
    unfold Cap in Hrun.
    destruct (dirties db !! metaRoot) as [meta|]; simpl in Hrun; [|done].
    destruct (capPreimages _ db) as [[[e0|] b0] dk0] eqn:Hpre.
    { injection Hrun as _ <-. simpl. by eapply capPreimages_keeps. }
    destruct (capWalk fuel limit (dirties db) _) as [[e1 s1]| |] eqn:Hwalk;
      simpl in Hrun; try done.
    apply (capWalk_queued _ _ _ l) in Hwalk as [Hkeep1 _]; [|done]. simpl in Hkeep1.
    assert (Hk1 : forall dk, is_Some (store (diskdb db) !! dk) ->
                             is_Some (store (cap_disk s1) !! dk)).
    { intros dk Hdk. apply Hkeep1. by eapply capPreimages_keeps. }
    destruct e1 as [e1|]; [injection Hrun as _ <-; done|].
    destruct (flushBatch _ _ _) as [[[e2|] b2] dk2] eqn:Hf.
    + injection Hrun as _ <-. simpl. intros dk Hdk.
      pose proof (flushBatch_keeps (cap_batch s1) (cap_pruner s1) (cap_disk s1) dk) as H.
      rewrite Hf in H. by apply H, Hk1.
    + destruct (capUncache _ _ _) as [db3| |]; simpl in Hrun; try done.
      destruct (if bool_decide _ then _ else _) as [db4| |]; simpl in Hrun; done.
  - destruct (Cap_success fuel limit db l db' Hchain Hnd Hrun)
      as (l1 & l2 & -> & _ & _ & Hkept & _ & _ & _ & Hdisk & Hdur).
    split; [|done]. intros k [c Hc] Hnone.
    destruct (decide (k ∈ l1)) as [Hin|Hin].
    + apply Hdur; [done | done |]. apply Hre, elem_of_app. by left.
    + destruct (Hkept k c Hin Hc) as (c' & Hc' & _). congruence.
Qed.

End WithEnv.
End CapMoreFacts.

Module CommitMoreFacts.
Section WithEnv.
Context `{E : Env}.
Import Trie TrieAccess TrieFacts FlushFacts.

(** [commit] keeps what its three steps keep: queueing a node, a flush
    that fails, and a flush followed by the replay of the batch. *)
Lemma commit_preserves (P : Batch * Database -> Prop) :
  (forall b db owner path hash blob,
     P (b, db) ->
     P (let '(_, b', p) := writeNode b owner path hash blob false (db_pruner db) in
        (b', set_db_pruner p db))) ->
  (forall b db e b' dk,
     P (b, db) -> flushBatch b (db_pruner db) (diskdb db) = (Some e, b', dk) ->
     P (b', set_diskdb dk db)) ->
  (forall b db b' dk e db',
     P (b, db) -> flushBatch b (db_pruner db) (diskdb db) = (None, b', dk) ->
     Replay b' (set_diskdb dk db) = Ok (e, db') -> P ([], db')) ->
  forall fuel owner path hash st e st',
    commit fuel owner path hash st = Ok (e, st') -> P st -> P st'.
Proof.
  intros Hwrite Hfail Hflush.
  induction fuel as [|fuel IH]; intros owner path hash [b db] e [b' db'] Hrun; [done|].
  cbn [commit] in Hrun. simpl in Hrun.
  destruct (dirties db !! gostring (EncodeNodeKey owner path hash)) as [n|];
    [|by injection Hrun as <- <- <-].
  set (R := fun st st' : Batch * Database => P st -> P st').
  assert (Hrefl : forall s, R s s) by (intros s H; exact H).
  assert (Htrans : forall s1 s2 s3, R s1 s2 -> R s2 s3 -> R s1 s3)
    by (intros s1 s2 s3 H1 H2 H; apply H2, H1, H).
  unfold iterateRefs in Hrun.
  match type of Hrun with
  | (forEach ?l ?f ?s ≫= _) = _ =>
      destruct (forEach l f s) as [[e1 [b1 db1]]| |] eqn:Hrefs; simpl in Hrun; try done
  end.
  apply (forEach_preorder R) in Hrefs; [|done|done|]; cycle 1.
  { intros [p h|] s2 e2 s2' _ Hc; [|done]. intros HP. by eapply IH. }
  destruct e1 as [e1|]; simpl in Hrun; [injection Hrun as <- <- <-; done|].
  match type of Hrun with
  | (forEach ?l ?f ?s ≫= _) = _ =>
      destruct (forEach l f s) as [[e2 [b2 db2]]| |] eqn:Hkids; simpl in Hrun; try done
  end.
  apply (forEach_preorder R) in Hkids; [|done|done|]; cycle 1.
  { intros child s3 e3 s3' _ Hc.
    destruct (DecodeNodeKey _) as [[o p] h]. intros HP. by eapply IH. }
  intros HP. apply Hrefs, Hkids in HP.
  destruct e2 as [e2|]; simpl in Hrun; [injection Hrun as <- <- <-; done|].
  specialize (Hwrite b2 db2 owner path hash (rlpEncode (cnode n)) HP).
  destruct (writeNode_spec b2 owner path hash (rlpEncode (cnode n)) false (db_pruner db2))
    as [p' Hw].
  rewrite Hw in Hrun, Hwrite. simpl in Hrun.
  set (b3 := b2 ++ [(trieNodeKey (EncodeNodeKey owner path hash), rlpEncode (cnode n))]) in *.
  destruct (IdealBatchSize <=? ValueSize b3); [|by injection Hrun as <- <- <-].
  destruct (flushBatch b3 p' (diskdb db2)) as [[e3 b4] dk] eqn:Hf.
  destruct e3 as [e3|].
  - injection Hrun as <- <- <-. by apply (Hfail b3 (set_db_pruner p' db2) e3 b4 dk).
  - destruct (Replay b4 _) as [[e4 db4]| |] eqn:Hrep; simpl in Hrun; try done.
    injection Hrun as <- <- <-.
    by apply (Hflush b3 (set_db_pruner p' db2) b4 dk e4 db4).
Qed.

Lemma update_frame k f db db' :
  update k f db = Ok db' ->
  db_pruner db' = db_pruner db /\ preimages db' = preimages db /\
  forall j, dirties db !! j = None -> dirties db' !! j = None.
Proof.
  unfold update. destruct (dirties db !! k) as [c|] eqn:Hc; simpl; [|done].
  intros [= <-]. simpl. split_and!; try done.
  intros j Hj. rewrite lookup_insert_ne; [done|]. intros ->. congruence.
Qed.

Lemma unlink_frame key n db db' :
  unlink key n db = Ok db' ->
  db_pruner db' = db_pruner db /\ preimages db' = preimages db /\
  forall j, dirties db !! j = None -> dirties db' !! j = None.
Proof.
  unfold unlink. repeat case_decide.
  - intros Hu%update_frame. exact Hu.
  - intros Hu%update_frame. exact Hu.
  - destruct (update (flushPrev n) _ db) as [db1| |] eqn:H1; simpl; try done.
    intros (Hp & Hpre & Hk)%update_frame. apply update_frame in H1 as (Hp1 & Hpre1 & Hk1).
    split_and!; [congruence | congruence |]. intros j Hj. by apply Hk, Hk1.
Qed.

(** [cleaner.Put] takes the node it is called for out of the dirty map,
    adds none, and leaves the pruner and the preimages alone. *)
Lemma cleanerPut_frame key blob db e db' :
  cleanerPut key blob db = Ok (e, db') ->
  db_pruner db' = db_pruner db /\ preimages db' = preimages db /\
  (forall j, dirties db !! j = None -> dirties db' !! j = None) /\
  (forall raw, IsStateTrieNodeKey key = (true, raw) -> dirties db' !! gostring raw = None).
Proof.
  unfold cleanerPut. destruct (IsStateTrieNodeKey key) as [ok raw] eqn:Hkey.
  destruct ok; simpl; [|intros [= <- <-]; split_and!; try done].
  destruct (dirties db !! gostring raw) as [n|] eqn:Hn.
  - destruct (unlink (gostring raw) n db) as [db1| |] eqn:Hu; simpl; try done.
    apply unlink_frame in Hu as (Hp & Hpre & Hk).
    intros Hrun.
    assert (Hd : dirties db' = delete (gostring raw) (dirties db1) /\
                 db_pruner db' = db_pruner db1 /\ preimages db' = preimages db1).
    { destruct (cleans db1); by injection Hrun as <- <-. }
    destruct Hd as (Hd & Hp' & Hpre'). split_and!; try congruence.
    + intros j Hj. rewrite Hd. apply lookup_delete_None. right. by apply Hk.
    + intros raw' [= <-]. rewrite Hd. apply lookup_delete_eq.
  - intros [= <- <-]. split_and!; try done. by intros raw' [= <-].
Qed.

Lemma Replay_frame b : forall db e db',
  Replay b db = Ok (e, db') ->
  db_pruner db' = db_pruner db /\ preimages db' = preimages db /\
  (forall j, dirties db !! j = None -> dirties db' !! j = None).
Proof.
  unfold Replay. induction b as [|[k v] b IH]; intros db e db' Hrun.
  - by injection Hrun as <- <-.
  - cbn [forEach fst snd] in Hrun.
    destruct (cleanerPut k v db) as [[e1 db1]| |] eqn:Hput; simpl in Hrun; try done.
    apply cleanerPut_frame in Hput as (Hp1 & Hpre1 & Hk1 & _).
    destruct e1 as [e1|]; simpl in Hrun.
    + by injection Hrun as <- <-.
    + apply IH in Hrun as (Hp & Hpre & Hk). split_and!; try congruence.
      intros j Hj. by apply Hk, Hk1.
Qed.

(** The replay of a batch that begins with trie nodes takes each of them
    out of the dirty map. *)
Lemma Replay_removes b1 b2 : forall db e db',
  nodesOnly b1 ->
  Replay (b1 ++ b2) db = Ok (e, db') ->
  forall dk v raw, (dk, v) ∈ b1 -> IsStateTrieNodeKey dk = (true, raw) ->
                   dirties db' !! gostring raw = None.
Proof.
  unfold Replay. induction b1 as [|[k v] b1 IH]; intros db e db' Hall Hrun dk v0 raw Hin Hraw.
  - by apply elem_of_nil in Hin.
  - apply Forall_cons in Hall as [Hk Hall]. simpl in Hk.
    cbn [app forEach fst snd] in Hrun.
    destruct (cleanerPut k v db) as [[e1 db1]| |] eqn:Hput; simpl in Hrun; try done.
    assert (He1 : e1 = None).
    { unfold cleanerPut in Hput. destruct (IsStateTrieNodeKey k) as [ok raw0].
      simpl in Hk. subst ok. simpl in Hput.
      destruct (dirties db !! gostring raw0); [|by injection Hput as <- _].
      destruct (unlink _ _ _); simpl in Hput; try done. by injection Hput as <- _. }
    subst e1. simpl in Hrun.
    apply elem_of_cons in Hin as [[= <- <-]|Hin].
    + apply cleanerPut_frame in Hput as (_ & _ & _ & Hgone).
      apply (Replay_frame (b1 ++ b2)) in Hrun as (_ & _ & Hkeep).
      by apply Hkeep, Hgone.
    + by eapply IH.
Qed.

Lemma nodesOnly_snoc b key blob :
  (forall x, IsStateTrieNodeKey (trieNodeKey x) = (true, x)) ->
  nodesOnly b -> nodesOnly (b ++ [(trieNodeKey key, blob)]).
Proof.
  intros Hlaw Hb. apply Forall_app. split; [done|]. constructor; [|constructor].
  simpl. by rewrite Hlaw.
Qed.

(** The same for a [commit] that returns no error, which has then met
    no flush that failed. *)
Lemma commit_preserves_ok (P : Batch * Database -> Prop) :
  (forall b db owner path hash blob,
     P (b, db) ->
     P (let '(_, b', p) := writeNode b owner path hash blob false (db_pruner db) in
        (b', set_db_pruner p db))) ->
  (forall b db b' dk e db',
     P (b, db) -> flushBatch b (db_pruner db) (diskdb db) = (None, b', dk) ->
     Replay b' (set_diskdb dk db) = Ok (e, db') -> P ([], db')) ->
  forall fuel owner path hash st st',
    commit fuel owner path hash st = Ok (None, st') -> P st -> P st'.
Proof.
  intros Hwrite Hflush.
  induction fuel as [|fuel IH]; intros owner path hash [b db] [b' db'] Hrun HP; [done|].
  cbn [commit] in Hrun. simpl in Hrun.
  destruct (dirties db !! gostring (EncodeNodeKey owner path hash)) as [n|];
    [|by injection Hrun as <- <-].
  unfold iterateRefs in Hrun.
  match type of Hrun with
  | (forEach ?l ?f ?s ≫= _) = _ =>
      destruct (forEach l f s) as [[e1 [b1 db1]]| |] eqn:Hrefs; simpl in Hrun; try done
  end.
  destruct e1 as [e1|]; simpl in Hrun; [done|].
  apply (forEach_invariant P) in Hrefs; [| |exact HP]; cycle 1.
  { intros [p h|] s2 s2' Hc; [|done]. by eapply IH. }
  match type of Hrun with
  | (forEach ?l ?f ?s ≫= _) = _ =>
      destruct (forEach l f s) as [[e2 [b2 db2]]| |] eqn:Hkids; simpl in Hrun; try done
  end.
  destruct e2 as [e2|]; simpl in Hrun; [done|].
  apply (forEach_invariant P) in Hkids; [| |exact Hrefs]; cycle 1.
  { intros child s3 s3' Hc.
    destruct (DecodeNodeKey _) as [[o p] h]. by eapply IH. }
  specialize (Hwrite b2 db2 owner path hash (rlpEncode (cnode n)) Hkids).
  destruct (writeNode_spec b2 owner path hash (rlpEncode (cnode n)) false (db_pruner db2))
    as [p' Hw].
  rewrite Hw in Hrun, Hwrite. simpl in Hrun.
  set (b3 := b2 ++ [(trieNodeKey (EncodeNodeKey owner path hash), rlpEncode (cnode n))]) in *.
  destruct (IdealBatchSize <=? ValueSize b3); [|by injection Hrun as <- <-].
  destruct (flushBatch b3 p' (diskdb db2)) as [[e3 b4] dk] eqn:Hf.
  destruct e3 as [e3|]; [done|].
  destruct (Replay b4 _) as [[e4 db4]| |] eqn:Hrep; simpl in Hrun; try done.
  injection Hrun as <- <-.
  by apply (Hflush b3 (set_db_pruner p' db2) b4 dk e4 db4).
Qed.

Lemma commit_nodesOnly fuel owner path hash st st' :
  (forall x, IsStateTrieNodeKey (trieNodeKey x) = (true, x)) ->
  commit fuel owner path hash st = Ok (None, st') -> nodesOnly st.1 -> nodesOnly st'.1.
Proof.
  intros Hlaw. apply (commit_preserves_ok (fun st => nodesOnly st.1)).
  - intros b db o p h blob Hb.
    destruct (writeNode_spec b o p h blob false (db_pruner db)) as [p' ->]. simpl.
    by apply nodesOnly_snoc.
  - intros. simpl. constructor.
Qed.

(** What [commit] leaves of the node it is called for: the node has left
    the dirty map, or waits in the batch. *)
Lemma commit_root fuel owner path hash b db b' db' :
  (forall x, IsStateTrieNodeKey (trieNodeKey x) = (true, x)) ->
  nodesOnly b ->
  commit fuel owner path hash (b, db) = Ok (None, (b', db')) ->
  nodesOnly b' /\
  (dirties db' !! gostring (EncodeNodeKey owner path hash) = None \/
   exists v, (trieNodeKey (EncodeNodeKey owner path hash), v) ∈ b').
Proof.
  intros Hlaw Hb Hrun.
  split; [by apply (commit_nodesOnly _ _ _ _ _ _ Hlaw Hrun)|].
  destruct fuel as [|fuel]; [done|].
  cbn [commit] in Hrun. simpl in Hrun.
  destruct (dirties db !! gostring (EncodeNodeKey owner path hash)) as [n|] eqn:Hn;
    [|injection Hrun as <- <-; by left].
  unfold iterateRefs in Hrun.
  match type of Hrun with
  | (forEach ?l ?f ?s ≫= _) = _ =>
      destruct (forEach l f s) as [[e1 [b1 db1]]| |] eqn:Hrefs; simpl in Hrun; try done
  end.
  destruct e1 as [e1|]; simpl in Hrun; [done|].
  apply (forEach_invariant (fun st => nodesOnly st.1)) in Hrefs; [| |done]; cycle 1.
  { intros [p h|] s2 s2' Hc; [|done]. by apply (commit_nodesOnly _ _ _ _ _ _ Hlaw Hc). }
  match type of Hrun with
  | (forEach ?l ?f ?s ≫= _) = _ =>
      destruct (forEach l f s) as [[e2 [b2 db2]]| |] eqn:Hkids; simpl in Hrun; try done
  end.
  destruct e2 as [e2|]; simpl in Hrun; [done|].
  apply (forEach_invariant (fun st => nodesOnly st.1)) in Hkids; [| |done]; cycle 1.
  { intros child s3 s3' Hc. destruct (DecodeNodeKey _) as [[o p] h].
    by apply (commit_nodesOnly _ _ _ _ _ _ Hlaw Hc). }
  simpl in Hkids.
  destruct (writeNode_spec b2 owner path hash (rlpEncode (cnode n)) false (db_pruner db2))
    as [p' Hw].
  rewrite Hw in Hrun. simpl in Hrun.
  set (b3 := b2 ++ [(trieNodeKey (EncodeNodeKey owner path hash), rlpEncode (cnode n))]) in *.
  assert (Hin : (trieNodeKey (EncodeNodeKey owner path hash), rlpEncode (cnode n)) ∈ b3)
    by (apply elem_of_app; right; by left).
  destruct (IdealBatchSize <=? ValueSize b3);
    [|injection Hrun as <- <-; right; by eexists].
  destruct (flushBatch b3 p' (diskdb db2)) as [[e3 b4] dk] eqn:Hf.
  destruct e3 as [e3|]; [done|].
  destruct (Replay b4 _) as [[e4 db4]| |] eqn:Hrep; simpl in Hrun; try done.
  injection Hrun as <- <-. left.
  assert (Hb4 : exists extra, b4 = b3 ++ extra).
  { unfold flushBatch in Hf. destruct (flushMarker p') as [[e5|] extra]; [done|].
    destruct (batchWrite _ _) as [e6 d6]. injection Hf as _ <- _. by eexists. }
  destruct Hb4 as [extra ->].
  eapply (Replay_removes b3 extra); [|exact Hrep|exact Hin|apply Hlaw].
  by apply nodesOnly_snoc.
Qed.

(** X18.  After a [Commit] that returns without an error the root it was
    called for is no longer dirty, and is on the disk if it was dirty
    before, when every trie node key is recognised as one. *)
Theorem Commit_root_flushed (fuel : nat) (number : Z) (hash root : Hash) (db db' : Database) :
  (forall x, IsStateTrieNodeKey (trieNodeKey x) = (true, x)) ->
  CommitWithMetadata fuel number hash root db = Ok (None, db') ->
  dirties db' !! gostring (EncodeNodeKey zeroHash [] root) = None /\
  (is_Some (dirties db !! gostring (EncodeNodeKey zeroHash [] root)) ->
   durable (store (diskdb db')) (gostring (EncodeNodeKey zeroHash [] root))).
Proof.
  intros Hlaw Hrun.
  assert (Hgone : dirties db' !! gostring (EncodeNodeKey zeroHash [] root) = None); cycle 1.
  { split; [done|]. intros Hin.
    by apply (CommitWithMetadata_flushed _ _ _ _ _ _ _ Hrun). }
  unfold CommitWithMetadata in Hrun.
  destruct (match preimages db with Some _ => _ | None => _ end) as [[e0|] dk0]; [done|].
  match type of Hrun with
  | (?m ≫= _) = _ => destruct m as [p1| |]; simpl in Hrun; try done
  end.
  destruct (commit fuel zeroHash [] root _) as [[e1 [b1 db1]]| |] eqn:Hc; simpl in Hrun;
    try done.
  destruct e1 as [e1|]; [done|].
  apply commit_root in Hc as [Hb1 Hroot]; [|done|constructor].
  destruct (flushBatch b1 (db_pruner db1) (diskdb db1)) as [[e2 b2] dk2] eqn:Hf.
  destruct e2 as [e2|]; [done|].
  destruct (Replay b2 _) as [[e3 db3]| |] eqn:Hrep; simpl in Hrun; try done.
  assert (H3 : dirties db3 !! gostring (EncodeNodeKey zeroHash [] root) = None).
  { destruct Hroot as [Hnone|[v Hin]].
    - apply Replay_frame in Hrep as (_ & _ & Hkeep). by apply Hkeep.
    - assert (Hb2 : exists extra, b2 = b1 ++ extra).
      { unfold flushBatch in Hf. destruct (flushMarker _) as [[e5|] extra]; [done|].
        destruct (batchWrite _ _) as [e6 d6]. injection Hf as _ <- _. by eexists. }
      destruct Hb2 as [extra ->].
      eapply (Replay_removes b1 extra); [done|exact Hrep|exact Hin|apply Hlaw]. }
  match type of Hrun with
  | (?m ≫= _) = _ => destruct m as [[e4 db4]| |] eqn:Hend; simpl in Hrun; try done
  end.
  assert (H4 : dirties db4 = dirties db3).
  { destruct (negb _ && _); [|by injection Hend as _ <-].
    destruct (Pruner.commitEnd _ _) as [[[e5 p5] d5]| |]; simpl in Hend; try done.
    by injection Hend as _ <-. }
  destruct e4 as [e4|]; [done|]. injection Hrun as <-. simpl.
  destruct (preimages db4); simpl; by rewrite H4.
Qed.

End WithEnv.
End CommitMoreFacts.

Module RecordFacts.
Section WithEnv.
Context `{E : Env}.
Import Trie TrieAccess TrieFacts FlushFacts CommitMoreFacts.

Lemma commit_keeps_record fuel owner path hash st e st' :
  commit fuel owner path hash st = Ok (e, st') ->
  preimages st.2 = None /\ is_Some (current (db_pruner st.2)) ->
  preimages st'.2 = None /\ is_Some (current (db_pruner st'.2)).
Proof.
  apply (commit_preserves
           (fun st => preimages st.2 = None /\ is_Some (current (db_pruner st.2)))).
  - intros b db o p h blob [Hpre [c Hc]]. simpl in Hpre, Hc.
    unfold writeNode, Pruner.addKey. simpl.
    rewrite Hc. simpl. split; [done | by eexists].
  - intros b db e0 b' dk HP _. exact HP.
  - intros b db b' dk e0 db' [Hpre Hc] _ Hrep.
    apply Replay_frame in Hrep as (Hp & Hpre' & _). simpl in *.
    rewrite Hp, Hpre'. done.
Qed.

Lemma commit_keeps_pre fuel owner path hash st e st' :
  commit fuel owner path hash st = Ok (e, st') -> preimages st'.2 = preimages st.2.
Proof.
  intros Hrun.
  refine (commit_preserves (fun s => preimages s.2 = preimages st.2) _ _ _
            fuel owner path hash st e st' Hrun eq_refl).
  - intros b db o p h blob Hb. unfold writeNode, Pruner.addKey. simpl.
    by repeat case_match.
  - intros b db e0 b' dk HP _. exact HP.
  - intros b db b' dk e0 db' HP _ Hrep.
    apply Replay_frame in Hrep as (_ & Hpre' & _). simpl in *. congruence.
Qed.

(** X19.  A [CommitWithMetadata] that has opened a commit record and then
    returns an error leaves the record open, and the next
    [CommitWithMetadata] that writes metadata dies in [commitStart]
    (preimages are not recorded). *)
Theorem failed_commit_blocks_next (fuel : nat) (number : Z) (hash root : Hash)
    (db db' : Database) (e : string) :
  preimages db = None ->
  number <> 0 -> hash <> zeroHash ->
  current (db_pruner db) = None ->
  Z.of_nat (length (records (db_pruner db))) < MaximumRecords (db_pruner db) ->
  CommitWithMetadata fuel number hash root db = Ok (Some e, db') ->
  is_Some (current (db_pruner db')) /\
  forall fuel' number' hash' root',
    number' <> 0 -> hash' <> zeroHash ->
    CommitWithMetadata fuel' number' hash' root' db' = Panic.
Proof.
  intros Hpre Hn Hh Hcur Hcap Hrun.
  assert (Hopen : preimages db' = None /\ is_Some (current (db_pruner db'))); cycle 1.
  { destruct Hopen as [Hpre' [c Hc]]. split; [by eexists|].
    intros fuel' n' h' root' Hn' Hh'. unfold CommitWithMetadata. rewrite Hpre'.
    apply Z.eqb_neq in Hn'. rewrite Hn'. rewrite bool_decide_eq_true_2 by done.
    cbn [negb andb]. unfold Pruner.commitStart. cbn [db_pruner set_diskdb]. by rewrite Hc. }
  unfold CommitWithMetadata in Hrun. rewrite Hpre in Hrun.
  apply Z.eqb_neq in Hn. rewrite Hn in Hrun. rewrite bool_decide_eq_true_2 in Hrun by done.
  cbn [negb andb] in Hrun. unfold Pruner.commitStart in Hrun.
  cbn [db_pruner set_diskdb] in Hrun. rewrite Hcur in Hrun.
  destruct (Z.leb_spec (MaximumRecords (db_pruner db))
              (Z.of_nat (length (records (db_pruner db))))) as [?|_]; [lia|].
  cbn [mbind Outcome_bind] in Hrun.
  destruct (commit fuel zeroHash [] root _) as [[e1 [b1 db1]]| |] eqn:Hc; simpl in Hrun;
    try done.
  apply commit_keeps_record in Hc; [|by split; [|eexists]]. simpl in Hc.
  destruct e1 as [e1|]; [by injection Hrun as _ <-|].
  destruct (flushBatch b1 (db_pruner db1) (diskdb db1)) as [[e2 b2] dk2] eqn:Hf.
  destruct e2 as [e2|]; [by injection Hrun as _ <-|].
  destruct (Replay b2 _) as [[e3 db3]| |] eqn:Hrep; simpl in Hrun; try done.
  apply Replay_frame in Hrep as (Hp3 & Hpre3 & _). simpl in Hp3, Hpre3.
  destruct Hc as [Hpre1 [c Hc1]].
  unfold Pruner.commitEnd in Hrun. rewrite Hp3, Hc1 in Hrun.
  destruct (fin_err _) as [e5|] eqn:Herr; simpl in Hrun.
  - injection Hrun as _ <-. simpl. split; [congruence | by eexists].
  - destruct (if fin_exist _ then _ else _) as [p5| |]; simpl in Hrun; done.
Qed.

End WithEnv.
End RecordFacts.

Module RefFacts.
Section WithEnv.
Context `{E : Env}.
Import Trie TrieAccess TrieFacts FlushFacts CommitMoreFacts.

Lemma size_same_keys {A} (d d' : gmap string A) :
  (forall k, is_Some (d' !! k) <-> is_Some (d !! k)) -> size d' = size d.
Proof.
  intros Hdom. rewrite <- !size_dom. f_equal. apply set_eq. intros k.
  rewrite !elem_of_dom. apply Hdom.
Qed.

(** What [reference] does with an edge the parent does not have yet. *)
Lemma reference_fresh owner child parent parentPath db c p :
  let childKey := gostring (EncodeNodeKey owner [] child) in
  let parentKey := gostring (EncodeNodeKey zeroHash parentPath parent) in
  dirties db !! childKey = Some c ->
  dirties db !! parentKey = Some p ->
  (forall cs, children p = Some cs -> cs !! childKey = None) ->
  exists db' c' p',
    reference owner child parent parentPath db = Ok db' /\
    dirties db' !! childKey = Some c' /\
    parents c' = wrap32 (parents c + 1) /\
    dirties db' !! parentKey = Some p' /\
    children p' = Some (<[childKey := 1]> (default ∅ (children p))) /\
    (forall k, k <> childKey -> k <> parentKey -> dirties db' !! k = dirties db !! k) /\
    (forall k, is_Some (dirties db' !! k) <-> is_Some (dirties db !! k)) /\
    childrenSize db' = childrenSize db + (HashLength + 2)
                       + (match children p with Some _ => 0 | None => cachedNodeChildrenSize end) /\
    dirtiesSize db' = dirtiesSize db /\ preimagesSize db' = preimagesSize db /\
    oldest db' = oldest db /\ newest db' = newest db.
Proof.
  intros childKey parentKey Hc Hp Hfresh.
  unfold reference. fold childKey parentKey. rewrite Hc, Hp.
  cbn [mbind Outcome_bind deref].
  assert (Hkeys : forall (d : gmap string cachedNode) k1 k2 x1 x2,
            is_Some (d !! k1) -> is_Some (d !! k2) ->
            forall k, is_Some (<[k2 := x2]> (<[k1 := x1]> d) !! k) <-> is_Some (d !! k)).
  { intros d k1 k2 x1 x2 H1 H2 k.
    destruct (decide (k = k2)) as [->|?]; [rewrite lookup_insert_eq; split; by eauto|].
    rewrite lookup_insert_ne by done.
    destruct (decide (k = k1)) as [->|?]; [rewrite lookup_insert_eq; split; by eauto|].
    by rewrite lookup_insert_ne. }
  destruct (children p) as [cs|] eqn:Hcs.
  - rewrite (Hfresh cs eq_refl).
    rewrite bool_decide_eq_false_2 by (by intros [? ?]). cbn [andb].
    rewrite (update_Some _ _ _ c Hc). cbn [mbind Outcome_bind].
    destruct (decide (parentKey = childKey)) as [Heq|Hne].
    + assert (c = p) as -> by congruence.
      rewrite (update_Some _ _ _ (set_parents (wrap32 (parents p + 1)) p))
        by (simpl; rewrite Heq; apply lookup_insert_eq).
      cbn [mbind Outcome_bind dirties set_dirties children set_parents set_children].
      rewrite Hcs. cbn [childCount default]. rewrite (Hfresh cs eq_refl). cbn [default].
      eexists _, _, _. split; [repeat (rewrite lookup_insert_eq
               || cbn [deref children set_children childCount default mbind Outcome_bind
                         dirties set_dirties]);
       change (wrap16 (0 + 1) =? 1) with true; cbv iota; reflexivity|]. simpl.
      rewrite Heq, !lookup_insert_eq. split_and!; try done.
      * intros k Hk1 Hk2. by rewrite !lookup_insert_ne.
      * intros k. apply Hkeys; rewrite <- ?Heq; by eauto.
      * unfold HashLength. lia.
    + rewrite (update_Some _ _ _ p) by (simpl; by rewrite lookup_insert_ne).
      cbn [mbind Outcome_bind dirties set_dirties children set_parents set_children].
      rewrite Hcs. cbn [childCount default]. rewrite (Hfresh cs eq_refl). cbn [default].
      eexists _, _, _. split; [repeat (rewrite lookup_insert_eq
               || cbn [deref children set_children childCount default mbind Outcome_bind
                         dirties set_dirties]);
       change (wrap16 (0 + 1) =? 1) with true; cbv iota; reflexivity|]. simpl.
      rewrite lookup_insert_eq, lookup_insert_ne, lookup_insert_eq by done.
      split_and!; try done.
      * intros k Hk1 Hk2. by rewrite !lookup_insert_ne.
      * intros k. apply Hkeys; by eauto.
      * unfold HashLength. lia.
  - rewrite (update_Some _ _ _ p Hp). cbn [mbind Outcome_bind].
    cbn [dirties set_dirties set_childrenSize].
    destruct (decide (parentKey = childKey)) as [Heq|Hne].
    + assert (c = p) as -> by congruence.
      rewrite (update_Some _ _ _ (set_children (Some ∅) p))
        by (simpl; rewrite Heq; apply lookup_insert_eq).
      cbn [mbind Outcome_bind dirties set_dirties].
      rewrite (update_Some _ _ _ (set_parents (wrap32 (parents (set_children (Some ∅) p) + 1))
                                    (set_children (Some ∅) p)))
        by (simpl; rewrite Heq; apply lookup_insert_eq).
      cbn [mbind Outcome_bind dirties set_dirties children set_parents set_children
             childCount default].
      rewrite lookup_empty. cbn [default].
      eexists _, _, _. split; [repeat (rewrite lookup_insert_eq
               || cbn [deref children set_children childCount default mbind Outcome_bind
                         dirties set_dirties]);
       change (wrap16 (0 + 1) =? 1) with true; cbv iota; reflexivity|]. simpl.
      rewrite Heq, !lookup_insert_eq. split_and!; try done.
      * intros k Hk1 Hk2. by rewrite !lookup_insert_ne.
      * intros k. rewrite !insert_insert_eq.
        destruct (decide (k = childKey)) as [->|?]; [rewrite lookup_insert_eq|
                                                     by rewrite lookup_insert_ne].
        rewrite <- Heq, Hp. split; by eauto.
      * unfold HashLength, cachedNodeChildrenSize. lia.
    + rewrite (update_Some _ _ _ c) by (simpl; by rewrite lookup_insert_ne).
      cbn [mbind Outcome_bind dirties set_dirties].
      rewrite (update_Some _ _ _ (set_children (Some ∅) p))
        by (simpl; rewrite lookup_insert_ne by done; apply lookup_insert_eq).
      cbn [mbind Outcome_bind dirties set_dirties children set_parents set_children
             childCount default].
      rewrite lookup_empty. cbn [default].
      eexists _, _, _. split; [repeat (rewrite lookup_insert_eq
               || cbn [deref children set_children childCount default mbind Outcome_bind
                         dirties set_dirties]);
       change (wrap16 (0 + 1) =? 1) with true; cbv iota; reflexivity|]. simpl.
      rewrite lookup_insert_eq, lookup_insert_ne, lookup_insert_eq by done.
      split_and!; try done.
      * intros k Hk1 Hk2. by rewrite !lookup_insert_ne.
      * intros k.
        destruct (decide (k = parentKey)) as [->|?];
          [rewrite lookup_insert_eq, Hp; split; by eauto|].
        rewrite lookup_insert_ne by done.
        destruct (decide (k = childKey)) as [->|?];
          [rewrite lookup_insert_eq, Hc; split; by eauto|].
        by rewrite !lookup_insert_ne.
      * unfold HashLength, cachedNodeChildrenSize. lia.
Qed.

(** X20.  The first reference from a parent to a resident child: the child
    has one parent more, the parent has the child among its children with a
    count of one, the size of the children tracking grows by the 34 bytes of
    the edge, and by the 48 of the map when the parent had none; no other
    node changes and none is added or dropped. *)
Theorem Reference_new_edge (owner child parent : Hash) (parentPath : list byte)
    (db : Database) (c p : cachedNode) :
  let childKey := gostring (EncodeNodeKey owner [] child) in
  let parentKey := gostring (EncodeNodeKey zeroHash parentPath parent) in
  dirties db !! childKey = Some c ->
  dirties db !! parentKey = Some p ->
  (forall cs, children p = Some cs -> cs !! childKey = None) ->
  exists db' c' p',
    Reference owner child parent parentPath db = Ok db' /\
    dirties db' !! childKey = Some c' /\
    parents c' = wrap32 (parents c + 1) /\
    dirties db' !! parentKey = Some p' /\
    childCount (children p') childKey = 1 /\
    (forall k, k <> childKey -> childCount (children p') k = childCount (children p) k) /\
    (forall k, k <> childKey -> k <> parentKey -> dirties db' !! k = dirties db !! k) /\
    childrenSize db' = childrenSize db + 34
                       + (match children p with Some _ => 0 | None => 48 end) /\
    dirtiesSize db' = dirtiesSize db.
Proof.
  intros childKey parentKey Hc Hp Hfresh.
  destruct (reference_fresh owner child parent parentPath db c p Hc Hp Hfresh)
    as (db' & c' & p' & Hrun & Hc' & Hpar & Hp' & Hch & Hother & _ & Hcs & Hds & _).
  exists db', c', p'. fold childKey parentKey in Hc', Hp', Hch, Hother.
  split_and!; try done.
  - rewrite Hch. simpl. by rewrite lookup_insert_eq.
  - intros k Hk. rewrite Hch. simpl. rewrite lookup_insert_ne by done.
    by destruct (children p).
Qed.

(** X21.  A first reference from the meta root to a resident root leaves the
    totals [Size] reports as they are: the 34 bytes the edge adds to the
    children tracking are the ones [Size] takes off for the meta root. *)
Theorem Reference_root_keeps_Size (owner child parent : Hash) (parentPath : list byte)
    (db : Database) (meta : cachedNode) (cs : gmap string Z) (total pre : Z) :
  gostring (EncodeNodeKey zeroHash parentPath parent) = metaRoot ->
  is_Some (dirties db !! gostring (EncodeNodeKey owner [] child)) ->
  dirties db !! metaRoot = Some meta ->
  children meta = Some cs ->
  cs !! gostring (EncodeNodeKey owner [] child) = None ->
  Size db = Ok (total, pre) ->
  exists db',
    Reference owner child parent parentPath db = Ok db' /\
    Size db' = Ok (total, pre).
Proof.
  intros Hmk [c Hc] Hmeta Hcs Hfresh HS.
  destruct (reference_fresh owner child parent parentPath db c meta Hc)
    as (db' & c' & p' & Hrun & _ & _ & Hp' & Hch & _ & Hkeys & Hcsz & Hds & Hps & _).
  { by rewrite Hmk. }
  { intros cs' Hcs'. congruence. }
  exists db'. split; [done|]. rewrite Hmk in Hp'.
  unfold Size in *. rewrite Hmeta in HS. rewrite Hp'. simpl in *.
  injection HS as <- <-.
  rewrite (size_same_keys _ _ Hkeys), Hch, Hcs, Hcsz, Hds, Hps. simpl.
  rewrite map_size_insert_None by done. rewrite Hcs.
  unfold HashLength. do 2 f_equal. lia.
Qed.

Lemma dropsOnly_refl db : dropsOnly db db.
Proof. by split_and!. Qed.

Lemma dropsOnly_trans db1 db2 db3 : dropsOnly db1 db2 -> dropsOnly db2 db3 -> dropsOnly db1 db3.
Proof.
  intros (H1 & H2 & H3 & H4 & H5 & H6) (G1 & G2 & G3 & G4 & G5 & G6).
  split_and!; try congruence. intros j Hj. by apply G6, H6.
Qed.

Lemma dropsOnly_insert k c db :
  is_Some (dirties db !! k) -> dropsOnly db (set_dirties (<[k := c]> (dirties db)) db).
Proof.
  intros [c0 Hc0]. split_and!; try done. simpl. intros j Hj.
  rewrite lookup_insert_ne; [done|]. intros ->. congruence.
Qed.

Lemma update_dropsOnly k f db db' : update k f db = Ok db' -> dropsOnly db db'.
Proof.
  unfold update. destruct (dirties db !! k) as [c|] eqn:Hc; simpl; [|done].
  intros [= <-]. by apply dropsOnly_insert.
Qed.

Lemma unlink_dropsOnly key n db db' : unlink key n db = Ok db' -> dropsOnly db db'.
Proof.
  unfold unlink. repeat case_decide.
  - apply update_dropsOnly.
  - apply update_dropsOnly.
  - destruct (update (flushPrev n) _ db) as [db1| |] eqn:H1; simpl; try done.
    intros H2%update_dropsOnly. apply update_dropsOnly in H1.
    by eapply dropsOnly_trans.
Qed.

Lemma dropEdge_dropsOnly pk ck db db' : dropEdge pk ck db = Ok db' -> dropsOnly db db'.
Proof.
  unfold dropEdge. destruct (dirties db !! pk) as [p|] eqn:Hp; simpl; [|done].
  destruct (children p) as [cs|]; [|intros [= <-]; apply dropsOnly_refl].
  destruct (0 <? _); [|intros [= <-]; apply dropsOnly_refl].
  destruct (_ =? 0); intros [= <-].
  - split_and!; try done. simpl. intros j Hj.
    rewrite lookup_insert_ne; [done|]. intros ->. congruence.
  - apply dropsOnly_insert. by eexists.
Qed.

(** [dereference] only drops. *)
Lemma dereference_dropsOnly fuel :
  forall childOwner childHash childPath parentOwner parentHash parentPath db db',
    dereference fuel childOwner childHash childPath parentOwner parentHash parentPath db = Ok db' ->
    dropsOnly db db'.
Proof.
  induction fuel as [|fuel IH]; intros co ch cp po ph pp db db' Hrun; [done|].
  rewrite dereference_S in Hrun.
  destruct (dropEdge _ _ db) as [db1| |] eqn:Hedge; cbn [mbind Outcome_bind] in Hrun; try done.
  apply dropEdge_dropsOnly in Hedge.
  destruct (dirties db1 !! gostring (EncodeNodeKey co cp ch)) as [child|] eqn:Hchild;
    [|by injection Hrun as <-].
  cbv zeta in Hrun. cbn [parents set_parents] in Hrun.
  pose proof (dropsOnly_insert (gostring (EncodeNodeKey co cp ch))
                (set_parents (decParents (parents child)) child) db1 (mk_is_Some _ _ Hchild))
    as H2.
  pose proof (dropsOnly_trans _ _ _ Hedge H2) as H12.
  destruct (decParents (parents child) =? 0); [|by injection Hrun as <-].
  destruct (unlink _ _ _) as [db3| |] eqn:Hu; cbn [mbind Outcome_bind] in Hrun; try done.
  apply unlink_dropsOnly in Hu. pose proof (dropsOnly_trans _ _ _ H12 Hu) as H13.
  unfold iterateRefs in Hrun.
  match type of Hrun with
  | (forEach ?l ?f ?s ≫= _) = _ =>
      destruct (forEach l f s) as [[e4 db4]| |] eqn:Hrefs; cbn [mbind Outcome_bind] in Hrun;
        try done
  end.
  apply (forEach_preorder dropsOnly) in Hrefs.
  - pose proof (dropsOnly_trans _ _ _ H13 Hrefs) as H14.
    injection Hrun as <-. eapply dropsOnly_trans; [exact H14|].
    unfold dropNode. destruct (children _); simpl; (split_and!; try done);
      intros j Hj; apply lookup_delete_None; by right.
  - apply dropsOnly_refl.
  - apply dropsOnly_trans.
  - intros [p h|] s e s' _ Hstep; [|done].
    destruct (dereference fuel _ _ _ _ _ _ s) as [s2| |] eqn:Hd;
      cbn [mbind Outcome_bind] in Hstep; try done.
    injection Hstep as _ <-. by eapply IH.
Qed.

(** X22.  [Dereference] only drops: it adds no node to the dirty map, so the
    map does not grow, and it leaves the disk, the clean cache, the
    preimages and the pruner as they are. *)
Theorem Dereference_only_drops (fuel : nat) (root : Hash) (db db' : Database) :
  Dereference fuel root db = Ok db' ->
  dropsOnly db db' /\ (size (dirties db') <= size (dirties db))%nat.
Proof.
  intros Hrun.
  assert (Hd : dropsOnly db db').
  { unfold Dereference in Hrun. destruct (decide (root = zeroHash)).
    { injection Hrun as <-. apply dropsOnly_refl. }
    destruct (dereference fuel _ _ _ _ _ _ db) as [db1| |] eqn:Hd;
      cbn [mbind Outcome_bind] in Hrun; try done.
    injection Hrun as <-. apply dereference_dropsOnly in Hd.
    eapply dropsOnly_trans; [exact Hd|]. by split_and!. }
  split; [done|]. destruct Hd as (_ & _ & _ & _ & _ & H5).
  rewrite <- !size_dom. apply subseteq_size. intros k. rewrite !elem_of_dom.
  intros [c Hc]. destruct (dirties db !! k) eqn:Hk; [by eexists|].
  rewrite (H5 k Hk) in Hc. done.
Qed.

End WithEnv.
End RefFacts.

Module UncacheFacts.
Section WithEnv.
Context `{E : Env}.
Import Trie TrieAccess TrieFacts FlushFacts CapFacts CommitMoreFacts RecordFacts.

Lemma update_sizes k f db db' :
  update k f db = Ok db' ->
  dirtiesSize db' = dirtiesSize db /\ childrenSize db' = childrenSize db /\
  cleans db' = cleans db /\ size (dirties db') = size (dirties db).
Proof.
  unfold update. destruct (dirties db !! k) as [c|] eqn:Hc; simpl; [|done].
  intros [= <-]. simpl. split_and!; try done.
  apply map_size_insert_Some. by eexists.
Qed.

Lemma unlink_sizes key n db db' :
  unlink key n db = Ok db' ->
  dirtiesSize db' = dirtiesSize db /\ childrenSize db' = childrenSize db /\
  cleans db' = cleans db /\ size (dirties db') = size (dirties db).
Proof.
  unfold unlink. repeat case_decide.
  - intros Hu%update_sizes. exact Hu.
  - intros Hu%update_sizes. exact Hu.
  - destruct (update (flushPrev n) _ db) as [db1| |] eqn:H1; simpl; try done.
    intros (? & ? & ? & ?)%update_sizes. apply update_sizes in H1 as (? & ? & ? & ?).
    split_and!; congruence.
Qed.

(** X23.  [cleaner.Put] on the key of a dirty node: the node leaves the
    dirty map and its blob goes to the clean cache; the total [Size]
    reports drops by the whole cost of the node, the share of its children
    map being taken off [dirtiesSize], not off [childrenSize]. *)
Theorem cleanerPut_takes_cost (key blob raw : list byte) (db db' : Database) (n : cachedNode)
    (e : error) :
  IsStateTrieNodeKey key = (true, raw) ->
  dirties db !! gostring raw = Some n ->
  cleanerPut key blob db = Ok (e, db') ->
  e = None /\
  dirties db' !! gostring raw = None /\
  tracked db' = tracked db - nodeCost n /\
  dirtiesSize db' = dirtiesSize db - (HashLength + csize n) - childrenCost n /\
  childrenSize db' = childrenSize db /\
  cleans db' = (fun cl => <[gostring raw := blob]> cl) <$> cleans db.
Proof.
  intros Hkey Hn. unfold cleanerPut. rewrite Hkey. cbn [negb]. rewrite Hn.
  destruct (unlink (gostring raw) n db) as [db1| |] eqn:Hu; cbn [mbind Outcome_bind]; try done.
  pose proof (unlink_keys _ _ _ _ Hu) as [_ Hk].
  apply unlink_sizes in Hu as (Hds & Hcs & Hcl & Hsz).
  assert (Hin : is_Some (dirties db1 !! gostring raw)) by (apply Hk; by eexists).
  intros Hrun.
  assert (Hdb' : e = None /\
                 dirties db' = delete (gostring raw) (dirties db1) /\
                 dirtiesSize db' = dirtiesSize db1 - (HashLength + csize n) - childrenCost n /\
                 childrenSize db' = childrenSize db1 /\
                 cleans db' = (fun cl => <[gostring raw := blob]> cl) <$> cleans db1).
  { destruct (cleans db1) eqn:Hcl1; injection Hrun as <- <-; simpl; by rewrite ?Hcl1. }
  destruct Hdb' as (-> & Hd & Hds' & Hcs' & Hcl').
  split_and!; try done.
  - rewrite Hd. apply lookup_delete_eq.
  - unfold tracked. rewrite Hd, Hds', Hcs', Hds, Hcs.
    rewrite map_size_delete_Some by done. rewrite Hsz.
    assert (size (dirties db) <> 0%nat).
    { intros Hz. apply map_size_empty_inv in Hz. rewrite Hz in Hn. done. }
    unfold nodeCost.
    replace (Z.of_nat (pred (size (dirties db)))) with (Z.of_nat (size (dirties db)) - 1) by lia.
    rewrite Z.mul_sub_distr_r. lia.
  - by rewrite Hds', Hds.
  - by rewrite Hcs', Hcs.
  - by rewrite Hcl', Hcl.
Qed.

(** X24.  On a database whose flush-list is well formed, [Nodes] returns
    the keys of the flush-list, each once. *)
Theorem Nodes_flush_list (db : Database) (l : list string) :
  wellFormed db l -> Nodes db ≡ₚ l.
Proof.
  intros (Hchain & Hnd & _ & Hdom).
  apply NoDup_Permutation; [|done|].
  - unfold Nodes. apply NoDup_filter, NoDup_fst_map_to_list.
  - intros k. unfold Nodes. rewrite list_elem_of_filter.
    assert (Hk : k ∈ (map_to_list (dirties db)).*1 <-> is_Some (dirties db !! k)).
    { rewrite list_elem_of_fmap. split.
      - intros ([k' c] & -> & Hin). apply elem_of_map_to_list in Hin. by eexists.
      - intros [c Hc]. exists (k, c). split; [done|]. by apply elem_of_map_to_list. }
    rewrite Hk, Hdom.
    pose proof (flushChain_not_meta _ _ _ Hchain) as Hml.
    split.
    + intros [Hne [?|?]]; done.
    + intros Hin. split; [by intros ->|by right].
Qed.

Lemma cleanerPut_disk key blob db e db' :
  cleanerPut key blob db = Ok (e, db') -> diskdb db' = diskdb db.
Proof.
  unfold cleanerPut. destruct (IsStateTrieNodeKey key) as [ok raw].
  destruct ok; simpl; [|by intros [= <- <-]].
  destruct (dirties db !! gostring raw) as [n|]; [|by intros [= <- <-]].
  destruct (unlink (gostring raw) n db) as [db1| |] eqn:Hu; simpl; try done.
  apply unlink_keys in Hu as [Hd _].
  destruct (cleans db1); intros [= <- <-]; done.
Qed.

Lemma Replay_disk b : forall db e db', Replay b db = Ok (e, db') -> diskdb db' = diskdb db.
Proof.
  unfold Replay. induction b as [|[k v] b IH]; intros db e db' Hrun.
  - by injection Hrun as <- <-.
  - cbn [forEach fst snd] in Hrun.
    destruct (cleanerPut k v db) as [[e1 db1]| |] eqn:Hput; simpl in Hrun; try done.
    apply cleanerPut_disk in Hput.
    destruct e1 as [e1|]; simpl in Hrun; [by injection Hrun as <- <-|].
    apply IH in Hrun. congruence.
Qed.

(** X25.  A [Commit] that returns without an error has written every
    preimage that was recorded to the disk, and starts the preimage cache
    afresh. *)
Theorem Commit_flushes_preimages (fuel : nat) (number : Z) (hash root : Hash)
    (db db' : Database) (pre : gmap string (list byte)) :
  preimages db = Some pre ->
  CommitWithMetadata fuel number hash root db = Ok (None, db') ->
  preimages db' = Some ∅ /\ preimagesSize db' = 0 /\
  forall h v, pre !! gostring h = Some v ->
              is_Some (store (diskdb db') !! gostring (preimageKey h)).
Proof.
  intros Hpre Hrun. unfold CommitWithMetadata in Hrun. rewrite Hpre in Hrun.
  pose proof (batchWrite_has (WritePreimages pre) (diskdb db)) as Hhas.
  destruct (batchWrite (WritePreimages pre) (diskdb db)) as [e0 dk0]. simpl in Hhas.
  destruct e0 as [e0|]; [done|].
  match type of Hrun with
  | (?m ≫= _) = _ => destruct m as [p1| |]; simpl in Hrun; try done
  end.
  destruct (commit fuel zeroHash [] root _) as [[e1 [b1 db1]]| |] eqn:Hc; simpl in Hrun;
    try done.
  pose proof (commit_keeps_pre _ _ _ _ _ _ _ Hc) as Hpre1. simpl in Hpre1.
  apply commit_flushed in Hc as [_ Hc]. simpl in Hc.
  destruct e1 as [e1|]; [done|].
  pose proof (flushBatch_keeps b1 (db_pruner db1) (diskdb db1)) as Hkeep.
  destruct (flushBatch b1 (db_pruner db1) (diskdb db1)) as [[e2 b2] dk2]. simpl in *.
  destruct e2 as [e2|]; [done|].
  destruct (Replay b2 _) as [[e3 db3]| |] eqn:Hrep; simpl in Hrun; try done.
  pose proof (Replay_disk _ _ _ _ Hrep) as Hd3. simpl in Hd3.
  apply Replay_frame in Hrep as (_ & Hpre3 & _). simpl in Hpre3.
  match type of Hrun with
  | (?m ≫= _) = _ => destruct m as [[e4 db4]| |] eqn:Hend; simpl in Hrun; try done
  end.
  assert (H4 : preimages db4 = preimages db3 /\
               forall dk, is_Some (store (diskdb db3) !! dk) -> is_Some (store (diskdb db4) !! dk)).
  { destruct (negb _ && _); [|by injection Hend as _ <-].
    unfold Pruner.commitEnd in Hend.
    destruct (current (db_pruner db3)) as [c|]; [|by injection Hend as _ <-].
    destruct (fin_err _) as [e5|]; simpl in Hend.
    - injection Hend as _ <-. simpl. split; [done|]. intros dk. apply applyBatch_keeps.
    - destruct (if fin_exist _ then _ else _) as [p5| |]; simpl in Hend; try done.
      injection Hend as _ <-. simpl. split; [done|]. intros dk. apply applyBatch_keeps. }
  destruct H4 as [Hpre4 Hk4].
  destruct e4 as [e4|]; [done|]. injection Hrun as <-.
  rewrite Hpre4, Hpre3, Hpre1, Hpre. simpl. split_and!; try done.
  intros h v Hv. apply Hk4. rewrite Hd3. apply Hkeep, Hc.
  apply (Hhas (preimageKey h, v) eq_refl).
  unfold WritePreimages. apply list_elem_of_fmap.
  exists (gostring h, v). split.
  - simpl. unfold gostring. by rewrite list_byte_of_string_of_list_byte.
  - by apply elem_of_map_to_list.
Qed.

End WithEnv.
End UncacheFacts.

Module CapIdleFacts.
Section WithEnv.
Context `{E : Env}.
Import Trie TrieAccess TrieFacts FlushFacts CapFacts.

(** X26.  A [Cap] on a database that is within the limit already (and
    whose preimages are below their own threshold) flushes no node: every
    node stays dirty, only the back link of the oldest one is reset, and
    [Size] reports what it did before. *)
Theorem Cap_within_limit_idle (fuel : nat) (limit : Z) (db db' : Database) (total pre : Z)
    (r : error) :
  Size db = Ok (total, pre) ->
  total <= limit ->
  pre <= 4 * 1024 * 1024 ->
  Cap (S fuel) limit db = Ok (r, db') ->
  (forall k, k <> oldest db -> dirties db' !! k = dirties db !! k) /\
  (forall k, is_Some (dirties db' !! k) <-> is_Some (dirties db !! k)) /\
  oldest db' = oldest db /\ newest db' = newest db /\ cleans db' = cleans db /\
  Size db' = Ok (total, pre).
Proof.
  intros HS Hle Hpre Hrun. unfold Size in HS. unfold Cap in Hrun.
  destruct (dirties db !! metaRoot) as [meta|] eqn:Hmeta; [|done].
  cbn [mbind Outcome_bind deref] in HS, Hrun. injection HS as Ht Hp.
  assert (Hcp : capPreimages (4 * 1024 * 1024 <? preimagesSize db) db = (None, [], diskdb db)).
  { unfold capPreimages. destruct (Z.ltb_spec (4 * 1024 * 1024) (preimagesSize db)); [lia|done]. }
  rewrite Hcp in Hrun. cbn [capWalk cap_size] in Hrun.
  match type of Hrun with
  | context [limit <? ?b] => destruct (Z.ltb_spec limit b) as [Hlt|_]
  end.
  { exfalso. lia. }
  cbn [andb mbind Outcome_bind cap_batch cap_pruner cap_disk cap_oldest] in Hrun.
  destruct (flushBatch _ _ _) as [[[e2|] b2] dk2].
  { injection Hrun as <- <-. unfold Size. simpl. rewrite Hmeta. simpl.
    split_and!; try done. by rewrite Ht, Hp. }
  assert (Hmid : forall x, (if 4 * 1024 * 1024 <? preimagesSize db
                            then match preimages x with
                                 | Some _ => set_preimagesSize 0 (set_preimages (Some ∅) x)
                                 | None => x
                                 end
                            else x) = x).
  { intros x. destruct (Z.ltb_spec (4 * 1024 * 1024) (preimagesSize db)); [lia|done]. }
  assert (Hmid' : forall x : Database, preimages x = preimages db ->
            match (4 * 1024 * 1024 <? preimagesSize db), preimages x with
            | true, Some _ => set_preimagesSize 0 (set_preimages (Some ∅) x)
            | _, _ => x
            end = x).
  { intros x _. destruct (Z.ltb_spec (4 * 1024 * 1024) (preimagesSize db)); [lia|done]. }
  rewrite Hmid' in Hrun by done.
  cbn [capUncache oldest set_diskdb set_db_pruner] in Hrun.
  rewrite bool_decide_eq_true_2 in Hrun by done.
  cbn [mbind Outcome_bind oldest set_diskdb set_db_pruner] in Hrun.
  case_bool_decide as Hom.
  - cbn [mbind Outcome_bind] in Hrun. injection Hrun as <- <-.
    unfold Size. simpl. rewrite Hmeta. simpl. split_and!; try done. by rewrite Ht, Hp.
  - unfold update in Hrun. cbn [dirties set_diskdb set_db_pruner] in Hrun.
    destruct (dirties db !! oldest db) as [c|] eqn:Hc; [|done].
    cbn [mbind Outcome_bind deref] in Hrun. injection Hrun as <- <-.
    unfold Size. simpl. rewrite lookup_insert_ne by done. rewrite Hmeta. simpl.
    rewrite map_size_insert_Some by (by eexists).
    split_and!; try done.
    + intros k Hk. by rewrite lookup_insert_ne.
    + intros k. destruct (decide (k = oldest db)) as [->|Hk].
      * rewrite lookup_insert_eq, Hc. split; by eexists.
      * by rewrite lookup_insert_ne.
    + by rewrite Ht, Hp.
Qed.

End WithEnv.
End CapIdleFacts.

(** ** Instances *)

Module PrunerRunWitnesses.
Import Pruner PrunerRun Examples MoreExamples.

(** The record of block 10 is not among the records [rec20]. *)
Lemma removeRecord_untracked_witness :
  (forall r, r ∈ records (prunerOf 10 [rec20]) -> sameRecord r rec10 = false) /\
  @removeRecord stdEnv rec10 (prunerOf 10 [rec20], recordDisk) = Panic.
Proof.
  assert (H : forall r, r ∈ records (prunerOf 10 [rec20]) -> sameRecord r rec10 = false).
  { intros r Hr. apply list_elem_of_singleton in Hr. subst r. reflexivity. }
  split; [exact H|].
  exact (@PrunerRunFacts.removeRecord_untracked stdEnv rec10 (prunerOf 10 [rec20]) recordDisk H).
Defined.

Lemma filterRecords_prefix_witness :
  checkRecords (records (prunerOf 10 [rec10; rec20])) = true /\
  exists rest,
    records (prunerOf 10 [rec10; rec20]) = filterRecords 15 (prunerOf 10 [rec10; rec20]) ++ rest /\
    Forall (fun r => number r < 15) (filterRecords 15 (prunerOf 10 [rec10; rec20])) /\
    Forall (fun r => 15 <= number r) rest.
Proof.
  split; [reflexivity|].
  exact (PrunerRunFacts.filterRecords_prefix 15 (prunerOf 10 [rec10; rec20]) eq_refl).
Defined.

Lemma stdEnv_reads_back :
  forall s n h rec, @readCommitRecord stdEnv s n h = Some rec -> number rec = n /\ hash rec = h.
Proof.
  intros s n h rec. simpl.
  destruct (s !! _); intros [= <-]; split; reflexivity.
Defined.

(** A run over the record of block 10, which is tracked before the one
    of block 20. *)
Lemma pruning_takes_head_witness :
  (forall s n h rec, @readCommitRecord stdEnv s n h = Some rec -> number rec = n /\ hash rec = h) /\
  records (prunerOf 10 [rec10; rec20]) = [rec10] ++ [rec20] /\
  checkRecords (records (prunerOf 10 [rec10; rec20])) = true /\
  exists k d',
    (k <= length [rec10])%nat /\
    @pruning stdEnv [rec10] (fun _ => false) 0 (prunerOf 10 [rec10; rec20], recordDisk)
    = Ok (set_records (drop k [rec10] ++ [rec20]) (prunerOf 10 [rec10; rec20]), d') /\
    (forall j, (j < k)%nat -> (fun _ : nat => false) (0 + j)%nat = false) /\
    ((k < length [rec10])%nat -> (fun _ : nat => false) (0 + k)%nat = true) /\
    (forall r, r ∈ take k [rec10] ->
       store d' !! gostring (@commitRecordKey stdEnv (number r) (hash r)) = None) /\
    (forall key v, store d' !! key = Some v -> store recordDisk !! key = Some v) /\
    faults d' = faults recordDisk.
Proof.
  split; [exact stdEnv_reads_back|]. split; [reflexivity|]. split; [reflexivity|].
  exact (@PrunerRunFacts.pruning_takes_head stdEnv [rec10] [rec20] (fun _ => false) 0
           (prunerOf 10 [rec10; rec20]) recordDisk stdEnv_reads_back eq_refl eq_refl).
Defined.

(** The record of block 30 joins those of the blocks 10 and 20. *)
Lemma commitEnd_tracks_witness :
  current openPruner = Some rec30 /\
  fin_err (@finalize stdEnv rec30 (partialKeys openPruner) (cleanKeys openPruner)
             (store emptyDisk)) = None /\
  fin_exist (@finalize stdEnv rec30 (partialKeys openPruner) (cleanKeys openPruner)
               (store emptyDisk)) = true /\
  checkRecords (records openPruner) = true /\
  (number rec30 ∉ (number <$> records openPruner)) /\
  exists p' d',
    @commitEnd stdEnv openPruner emptyDisk = Ok (None, p', d') /\
    records p' ≡ₚ rec30 :: records openPruner /\
    checkRecords (records p') = true /\
    current p' = None.
Proof.
  assert (Hfresh : number rec30 ∉ (number <$> records openPruner)).
  { vm_compute. intros H. repeat (apply elem_of_cons in H as [H|H]; [discriminate|]).
    by apply elem_of_nil in H. }
  split; [reflexivity|]. split; [reflexivity|]. split; [reflexivity|]. split; [reflexivity|].
  split; [exact Hfresh|].
  destruct (proj2 (@PrunerRunFacts.commitEnd_tracks stdEnv openPruner emptyDisk rec30
                     eq_refl eq_refl eq_refl eq_refl) Hfresh)
    as (p' & Hrun & Hperm & Hchk & _ & _ & Hcur & _).
  exists p'. eexists. split; [exact Hrun|]. split; [exact Hperm|]. split; [exact Hchk|exact Hcur].
Defined.

(** Two records read in the wrong order are tracked in order. *)
Lemma newPruner_tracks_witness :
  (length [20; 10] <= length [hashOf "2"; hashOf "1"])%nat /\
  exists p,
    @newPruner 10 [20; 10] [hashOf "2"; hashOf "1"] = Ok p /\
    records p ≡ₚ zip_with newCommitRecord [20; 10] [hashOf "2"; hashOf "1"] /\
    checkRecords (records p) = true.
Proof.
  assert (Hlen : (length [20; 10] <= length [hashOf "2"; hashOf "1"])%nat) by (simpl; lia).
  assert (Hnd : NoDup [20; 10]).
  { apply (bool_decide_eq_true_1 _). vm_compute. reflexivity. }
  split; [exact Hlen|].
  destruct (proj2 (PrunerRunFacts.newPruner_tracks 10 [20; 10] [hashOf "2"; hashOf "1"] Hlen)
              Hnd) as (p & Hrun & Hperm & Hchk & _).
  exists p. split; [exact Hrun|]. split; [exact Hperm|exact Hchk].
Defined.

(** A signal that starts a run over [rec10], then a pause. *)
Lemma pausedLoop_reachable : reachable pausedLoop.
Proof.
  apply (reach_step PauseReq (prunerOf 10 [rec10; rec20])
           (mkLoop false (Some false) (Some false)) pausedLoop None).
  - apply (reach_step (Signal 3615) (prunerOf 10 [rec10; rec20]) (mkLoop false None None)
             (mkLoop false (Some false) (Some false)) (Some [rec10])).
    + apply reach_start.
    + reflexivity.
    + reflexivity.
  - reflexivity.
  - reflexivity.
Defined.

(** A signal that starts a run over [rec10], and the run coming to its
    end before the loop takes its next turn. *)
Lemma endedLoop_reachable : reachable (mkLoop false (Some true) (Some false)).
Proof.
  apply (reach_close (mkLoop false (Some false) (Some false))); [|reflexivity].
  apply (reach_step (Signal 3615) (prunerOf 10 [rec10; rec20]) (mkLoop false None None)
           (mkLoop false (Some false) (Some false)) (Some [rec10])).
  - apply reach_start.
  - reflexivity.
  - reflexivity.
Qed.

Lemma loop_paused_excludes_run_witness :
  reachable pausedLoop /\
  (done pausedLoop = None <-> interrupt pausedLoop = None) /\
  (done pausedLoop = Some false -> interrupt pausedLoop = Some false) /\
  (interrupt pausedLoop = Some true -> done pausedLoop = Some true) /\
  (paused pausedLoop = true ->
   done pausedLoop <> Some false /\ interrupt pausedLoop <> Some false) /\
  (forall p, step ResumeReq p pausedLoop = Panic <-> paused pausedLoop = false) /\
  (forall p, step PauseReq p pausedLoop = Panic <-> paused pausedLoop = true).
Proof.
  split; [exact pausedLoop_reachable|].
  exact (PrunerRunFacts.loop_paused_excludes_run pausedLoop pausedLoop_reachable).
Defined.

(** A whole write and a partial one while the record of block 30 is open. *)
Lemma addKeys_routes_witness :
  current openPruner = Some rec30 /\
  current (@addKeys stdEnv [([x02], false); ([x03], true)] openPruner)
  = Some (foldl (@recordAdd stdEnv) rec30 [[x02]]) /\
  partialKeys (@addKeys stdEnv [([x02], false); ([x03], true)] openPruner) = [[x03]].
Proof.
  split; [reflexivity|].
  destruct (@PrunerRunFacts.addKeys_routes stdEnv [([x02], false); ([x03], true)] openPruner
              rec30 eq_refl) as (H1 & H2 & _).
  split; [exact H1 | exact H2].
Defined.

End PrunerRunWitnesses.

Module TrieMoreWitnesses.
Import Trie TrieAccess Examples MoreExamples.

Lemma stdEnv_recognises :
  forall x, @IsStateTrieNodeKey stdEnv (@trieNodeKey stdEnv x) = (true, x).
Proof. intros x. reflexivity. Defined.

(** The entry of the root [hR1] in [sharedDb]. *)
Lemma obj_of_simplified_witness :
  @simplifyNode stdEnv (fullNode [hashNode hX; valueNode [x01]])
  = Some (cnode (entryOf (keyOf zeroHash [] hR1) sharedDb)) /\
  exists m, obj (entryOf (keyOf zeroHash [] hR1) sharedDb) hR1 = Some m /\
            exists n'', @simplifyNode stdEnv m = Some n''.
Proof.
  assert (H : @simplifyNode stdEnv (fullNode [hashNode hX; valueNode [x01]])
              = Some (cnode (entryOf (keyOf zeroHash [] hR1) sharedDb)))
    by (vm_compute; reflexivity).
  split; [exact H|].
  exact (@AccessFacts.obj_of_simplified stdEnv _ _ hR1 H).
Defined.

(** The callback of [insert] on the root [hR1]. *)
Lemma iterateRefs_panics_with_callback_witness :
  @simplifyNode stdEnv (fullNode [hashNode hX; valueNode [x01]])
  = Some (rawFullNode [hashNode hX; valueNode [x01]]) /\
  (forall p h s, @addParent stdEnv zeroHash p h s <> Panic) /\
  @iterateRefs stdEnv Database (rawFullNode [hashNode hX; valueNode [x01]]) []
    (@addParent stdEnv zeroHash) sharedDb <> Panic.
Proof.
  assert (H : forall p h s, @addParent stdEnv zeroHash p h s <> Panic).
  { intros p h s. rewrite TrieFacts.addParent_eq. discriminate. }
  split; [reflexivity|]. split; [exact H|].
  exact (@AccessFacts.iterateRefs_panics_with_callback stdEnv Database
           (fullNode [hashNode hX; valueNode [x01]]) _ [] _ sharedDb eq_refl H).
Defined.

Lemma insertPreimage_first_wins_witness :
  preimages cachingDb = Some ∅ /\
  (∅ : gmap string (list byte)) !! gostring hA = None /\
  preimagesSize (insertPreimage hA [x01; x02] cachingDb) = preimagesSize cachingDb + 32 + 2 /\
  insertPreimage hA [x03] (insertPreimage hA [x01; x02] cachingDb)
  = insertPreimage hA [x01; x02] cachingDb.
Proof.
  split; [reflexivity|]. split; [reflexivity|].
  destruct (AccessFacts.insertPreimage_first_wins hA [x01; x02] [x03] cachingDb ∅
              eq_refl eq_refl) as (_ & H2 & H3 & _).
  split; [exact H2 | exact H3].
Defined.

(** A lookup that is served from the disk and fills the clean cache. *)
Lemma NodeByKey_stable_witness :
  @NodeByKey stdEnv (encodeKey zeroHash [] hA) storedDb
  = ([x01; x02], None,
     set_cleans (Some {[ gostring (encodeKey zeroHash [] hA) := [x01; x02] ]}) storedDb) /\
  @NodeByKey stdEnv (encodeKey zeroHash [] hA)
    (set_cleans (Some {[ gostring (encodeKey zeroHash [] hA) := [x01; x02] ]}) storedDb)
  = ([x01; x02], None,
     set_cleans (Some {[ gostring (encodeKey zeroHash [] hA) := [x01; x02] ]}) storedDb).
Proof.
  assert (H : @NodeByKey stdEnv (encodeKey zeroHash [] hA) storedDb
              = ([x01; x02], None,
                 set_cleans (Some {[ gostring (encodeKey zeroHash [] hA) := [x01; x02] ]})
                   storedDb)) by (vm_compute; reflexivity).
  split; [exact H|].
  exact (proj1 (@AccessFacts.NodeByKey_stable stdEnv _ _ _ _ H)).
Defined.

Lemma insert_grows_Size_witness :
  dirties db0 !! gostring (@EncodeNodeKey stdEnv zeroHash [] hA) = None /\
  @simplifyNode stdEnv (valueNode [x01; x02]) = Some (valueNode [x01; x02]) /\
  (oldest db0 = metaRoot \/ is_Some (dirties db0 !! newest db0)) /\
  0 <= 10 < 65504 /\
  @Size stdEnv db0 = Ok (0, 0) /\
  exists db',
    @insert stdEnv zeroHash [] hA 10 (valueNode [x01; x02]) db0 = Ok db' /\
    @Size stdEnv db' = Ok (0 + (HashLength + 10) + @cachedNodeSize stdEnv, 0).
Proof.
  assert (H1 : dirties db0 !! gostring (@EncodeNodeKey stdEnv zeroHash [] hA) = None)
    by (vm_compute; reflexivity).
  assert (H3 : oldest db0 = metaRoot \/ is_Some (dirties db0 !! newest db0))
    by (left; reflexivity).
  assert (H4 : 0 <= 10 < 65504) by lia.
  assert (H5 : @Size stdEnv db0 = Ok (0, 0)) by (vm_compute; reflexivity).
  split; [exact H1|]. split; [reflexivity|]. split; [exact H3|]. split; [exact H4|].
  split; [exact H5|].
  exact (@CacheFacts.insert_grows_Size stdEnv zeroHash [] hA 10 (valueNode [x01; x02])
           (valueNode [x01; x02]) db0 0 0 H1 eq_refl H3 H4 H5).
Defined.

Lemma insert_then_NodeByKey_witness :
  dirties db0 !! gostring (@EncodeNodeKey stdEnv zeroHash [] hA) = None /\
  @simplifyNode stdEnv (valueNode [x01; x02]) = Some (valueNode [x01; x02]) /\
  (oldest db0 = metaRoot \/ is_Some (dirties db0 !! newest db0)) /\
  cleanGet (cleans db0) (@EncodeNodeKey stdEnv zeroHash [] hA) = [] /\
  exists db',
    @insert stdEnv zeroHash [] hA 10 (valueNode [x01; x02]) db0 = Ok db' /\
    @NodeByKey stdEnv (@EncodeNodeKey stdEnv zeroHash [] hA) db' = ([x01; x02], None, db').
Proof.
  assert (H1 : dirties db0 !! gostring (@EncodeNodeKey stdEnv zeroHash [] hA) = None)
    by (vm_compute; reflexivity).
  assert (H3 : oldest db0 = metaRoot \/ is_Some (dirties db0 !! newest db0))
    by (left; reflexivity).
  split; [exact H1|]. split; [reflexivity|]. split; [exact H3|]. split; [reflexivity|].
  destruct (@CacheFacts.insert_then_NodeByKey stdEnv zeroHash [] hA 10 (valueNode [x01; x02])
              (valueNode [x01; x02]) db0 H1 eq_refl H3 eq_refl) as (db' & Hrun & Hlook & _).
  exists db'. split; [exact Hrun | exact Hlook].
Defined.

(** The flush-list of [sharedDb]: the leaf, then the two roots. *)
Lemma sharedDb_wellFormed :
  wellFormed sharedDb [keyOf zeroHash [x00] hX; keyOf zeroHash [] hR1; keyOf zeroHash [] hR2].
Proof.
  split_and!.
  - vm_compute. repeat split; discriminate.
  - apply (bool_decide_eq_true_1 _). vm_compute. reflexivity.
  - intros _. vm_compute. reflexivity.
  - intros k. rewrite <- elem_of_dom.
    assert (Hdom : dom (dirties sharedDb)
                   = {[ metaRoot; keyOf zeroHash [x00] hX; keyOf zeroHash [] hR1;
                        keyOf zeroHash [] hR2 ]}) by (vm_compute; reflexivity).
    rewrite Hdom. rewrite !elem_of_union, !elem_of_singleton, !elem_of_cons, elem_of_nil.
    tauto.
Defined.

Lemma insert_keeps_wellFormed_witness :
  wellFormed sharedDb [keyOf zeroHash [x00] hX; keyOf zeroHash [] hR1; keyOf zeroHash [] hR2] /\
  dirties sharedDb !! gostring (@EncodeNodeKey stdEnv zeroHash [] hA) = None /\
  @simplifyNode stdEnv (valueNode [x01; x02]) = Some (valueNode [x01; x02]) /\
  exists db',
    @insert stdEnv zeroHash [] hA 10 (valueNode [x01; x02]) sharedDb = Ok db' /\
    wellFormed db' ([keyOf zeroHash [x00] hX; keyOf zeroHash [] hR1; keyOf zeroHash [] hR2]
                    ++ [gostring (@EncodeNodeKey stdEnv zeroHash [] hA)]).
Proof.
  assert (H2 : dirties sharedDb !! gostring (@EncodeNodeKey stdEnv zeroHash [] hA) = None)
    by (vm_compute; reflexivity).
  split; [exact sharedDb_wellFormed|]. split; [exact H2|]. split; [reflexivity|].
  exact (@ShapeFacts.insert_keeps_wellFormed stdEnv zeroHash [] hA 10 (valueNode [x01; x02])
           (valueNode [x01; x02]) sharedDb _ sharedDb_wellFormed H2 eq_refl).
Defined.

Lemma Cap_keeps_wellFormed_witness :
  wellFormed sharedDb [keyOf zeroHash [x00] hX; keyOf zeroHash [] hR1; keyOf zeroHash [] hR2] /\
  @Cap stdEnv 10 200 sharedDb = Ok (None, capped 200 sharedDb) /\
  exists l1 l2,
    [keyOf zeroHash [x00] hX; keyOf zeroHash [] hR1; keyOf zeroHash [] hR2] = l1 ++ l2 /\
    wellFormed (capped 200 sharedDb) l2 /\
    (forall k, k ∈ l1 -> dirties (capped 200 sharedDb) !! k = None).
Proof.
  assert (Hrun : @Cap stdEnv 10 200 sharedDb = Ok (None, capped 200 sharedDb))
    by (vm_compute; reflexivity).
  split; [exact sharedDb_wellFormed|]. split; [exact Hrun|].
  destruct (@CapMoreFacts.Cap_keeps_wellFormed stdEnv 10 200 sharedDb (capped 200 sharedDb) _
              sharedDb_wellFormed Hrun) as (l1 & l2 & Hl & Hwf & Hgone & _).
  exists l1, l2. split; [exact Hl|]. split; [exact Hwf | exact Hgone].
Defined.

Lemma sharedDb_reencodes :
  forall k, k ∈ [keyOf zeroHash [x00] hX; keyOf zeroHash [] hR1; keyOf zeroHash [] hR2] ->
            @reencodes stdEnv k.
Proof.
  intros k Hk.
  repeat (apply elem_of_cons in Hk as [Hk|Hk]; [subst k; vm_compute; reflexivity|]).
  by apply elem_of_nil in Hk.
Defined.

Lemma Cap_flushed_witness :
  (forall x, @IsStateTrieNodeKey stdEnv (@trieNodeKey stdEnv x) = (true, x)) /\
  (forall k, k ∈ [keyOf zeroHash [x00] hX; keyOf zeroHash [] hR1; keyOf zeroHash [] hR2] ->
             @reencodes stdEnv k) /\
  flushChain (dirties sharedDb) (oldest sharedDb)
    [keyOf zeroHash [x00] hX; keyOf zeroHash [] hR1; keyOf zeroHash [] hR2] /\
  NoDup [keyOf zeroHash [x00] hX; keyOf zeroHash [] hR1; keyOf zeroHash [] hR2] /\
  @Cap stdEnv 10 200 sharedDb = Ok (None, capped 200 sharedDb) /\
  @flushedOnly stdEnv sharedDb (capped 200 sharedDb).
Proof.
  assert (Hrun : @Cap stdEnv 10 200 sharedDb = Ok (None, capped 200 sharedDb))
    by (vm_compute; reflexivity).
  destruct sharedDb_wellFormed as (Hc & Hnd & _).
  split; [exact stdEnv_recognises|]. split; [exact sharedDb_reencodes|].
  split; [exact Hc|]. split; [exact Hnd|]. split; [exact Hrun|].
  exact (@CapMoreFacts.Cap_flushed stdEnv 10 200 sharedDb (capped 200 sharedDb) _ None
           stdEnv_recognises sharedDb_reencodes Hc Hnd Hrun).
Defined.

End TrieMoreWitnesses.

Module CommitMoreWitnesses.
Import Trie TrieAccess Examples MoreExamples.

Lemma Commit_root_flushed_witness :
  (forall x, @IsStateTrieNodeKey stdEnv (@trieNodeKey stdEnv x) = (true, x)) /\
  @CommitWithMetadata stdEnv 10 0 zeroHash hA rootedDb
  = Ok (None, ran (@Commit stdEnv 10 hA rootedDb)) /\
  dirties (ran (@Commit stdEnv 10 hA rootedDb)) !! gostring (@EncodeNodeKey stdEnv zeroHash [] hA)
  = None /\
  (is_Some (dirties rootedDb !! gostring (@EncodeNodeKey stdEnv zeroHash [] hA)) ->
   @durable stdEnv (store (diskdb (ran (@Commit stdEnv 10 hA rootedDb))))
     (gostring (@EncodeNodeKey stdEnv zeroHash [] hA))).
Proof.
  assert (Hrun : @CommitWithMetadata stdEnv 10 0 zeroHash hA rootedDb
                 = Ok (None, ran (@Commit stdEnv 10 hA rootedDb))) by (vm_compute; reflexivity).
  split; [exact TrieMoreWitnesses.stdEnv_recognises|]. split; [exact Hrun|].
  exact (@CommitMoreFacts.Commit_root_flushed stdEnv 10 0 zeroHash hA rootedDb _
           TrieMoreWitnesses.stdEnv_recognises Hrun).
Defined.

(** A commit of block 5 whose record cannot be persisted, and the commit
    of block 6 after it. *)
Lemma failed_commit_blocks_next_witness :
  preimages rootedDb = None /\
  5 <> 0 /\ hashOf "5" <> zeroHash /\
  current (db_pruner rootedDb) = None /\
  Z.of_nat (length (records (db_pruner rootedDb))) < MaximumRecords (db_pruner rootedDb) /\
  @CommitWithMetadata badEnv 10 5 (hashOf "5") hA rootedDb
  = Ok (Some "record not persisted"%string,
        ran (@CommitWithMetadata badEnv 10 5 (hashOf "5") hA rootedDb)) /\
  @CommitWithMetadata badEnv 10 6 (hashOf "6") hA
    (ran (@CommitWithMetadata badEnv 10 5 (hashOf "5") hA rootedDb)) = Panic.
Proof.
  assert (H2 : 5 <> 0) by lia.
  assert (H3 : hashOf "5" <> zeroHash) by (vm_compute; discriminate).
  assert (H5 : Z.of_nat (length (records (db_pruner rootedDb)))
               < MaximumRecords (db_pruner rootedDb)) by (vm_compute; reflexivity).
  assert (Hrun : @CommitWithMetadata badEnv 10 5 (hashOf "5") hA rootedDb
                 = Ok (Some "record not persisted"%string,
                       ran (@CommitWithMetadata badEnv 10 5 (hashOf "5") hA rootedDb)))
    by (vm_compute; reflexivity).
  split; [reflexivity|]. split; [exact H2|]. split; [exact H3|]. split; [reflexivity|].
  split; [exact H5|]. split; [exact Hrun|].
  apply (proj2 (@RecordFacts.failed_commit_blocks_next badEnv 10 5 (hashOf "5") hA rootedDb _ _
                  eq_refl H2 H3 eq_refl H5 Hrun)).
  - lia.
  - vm_compute. discriminate.
Defined.

(** The first reference of the leaf [hA] from the meta root. *)
Lemma Reference_new_edge_witness :
  dirties leafDb !! gostring (@EncodeNodeKey stdEnv zeroHash [] hA)
  = Some (entryOf (keyOf zeroHash [] hA) leafDb) /\
  dirties leafDb !! gostring (@EncodeNodeKey stdEnv zeroHash [] zeroHash)
  = Some (entryOf metaRoot leafDb) /\
  (forall cs, children (entryOf metaRoot leafDb) = Some cs ->
              cs !! gostring (@EncodeNodeKey stdEnv zeroHash [] hA) = None) /\
  exists db' c',
    @Reference stdEnv zeroHash hA zeroHash [] leafDb = Ok db' /\
    dirties db' !! gostring (@EncodeNodeKey stdEnv zeroHash [] hA) = Some c' /\
    parents c' = wrap32 (parents (entryOf (keyOf zeroHash [] hA) leafDb) + 1) /\
    childrenSize db' = childrenSize leafDb + 34 + 0.
Proof.
  assert (H1 : dirties leafDb !! gostring (@EncodeNodeKey stdEnv zeroHash [] hA)
               = Some (entryOf (keyOf zeroHash [] hA) leafDb)) by (vm_compute; reflexivity).
  assert (H2 : dirties leafDb !! gostring (@EncodeNodeKey stdEnv zeroHash [] zeroHash)
               = Some (entryOf metaRoot leafDb)) by (vm_compute; reflexivity).
  assert (H3 : forall cs, children (entryOf metaRoot leafDb) = Some cs ->
                          cs !! gostring (@EncodeNodeKey stdEnv zeroHash [] hA) = None).
  { intros cs Hcs. vm_compute in Hcs. injection Hcs as <-. reflexivity. }
  split; [exact H1|]. split; [exact H2|]. split; [exact H3|].
  destruct (@RefFacts.Reference_new_edge stdEnv zeroHash hA zeroHash [] leafDb _ _ H1 H2 H3)
    as (db' & c' & p' & Hrun & Hc' & Hpar & _ & _ & _ & _ & Hcs & _).
  exists db', c'. split; [exact Hrun|]. split; [exact Hc'|]. split; [exact Hpar|exact Hcs].
Defined.

Lemma Reference_root_keeps_Size_witness :
  gostring (@EncodeNodeKey stdEnv zeroHash [] zeroHash) = metaRoot /\
  is_Some (dirties leafDb !! gostring (@EncodeNodeKey stdEnv zeroHash [] hA)) /\
  dirties leafDb !! metaRoot = Some (entryOf metaRoot leafDb) /\
  children (entryOf metaRoot leafDb) = Some ∅ /\
  (∅ : gmap string Z) !! gostring (@EncodeNodeKey stdEnv zeroHash [] hA) = None /\
  @Size stdEnv leafDb = Ok (106, 0) /\
  exists db',
    @Reference stdEnv zeroHash hA zeroHash [] leafDb = Ok db' /\
    @Size stdEnv db' = Ok (106, 0).
Proof.
  assert (H2 : is_Some (dirties leafDb !! gostring (@EncodeNodeKey stdEnv zeroHash [] hA)))
    by (vm_compute; eexists; reflexivity).
  assert (H3 : dirties leafDb !! metaRoot = Some (entryOf metaRoot leafDb))
    by (vm_compute; reflexivity).
  assert (H4 : children (entryOf metaRoot leafDb) = Some ∅) by (vm_compute; reflexivity).
  assert (H6 : @Size stdEnv leafDb = Ok (106, 0)) by (vm_compute; reflexivity).
  split; [reflexivity|]. split; [exact H2|]. split; [exact H3|]. split; [exact H4|].
  split; [reflexivity|]. split; [exact H6|].
  exact (@RefFacts.Reference_root_keeps_Size stdEnv zeroHash hA zeroHash [] leafDb _ ∅ 106 0
           eq_refl H2 H3 H4 eq_refl H6).
Defined.

Lemma Dereference_only_drops_witness :
  @Dereference stdEnv 5 hR1 sharedDb = Ok (run (@Dereference stdEnv 5 hR1 sharedDb)) /\
  dropsOnly sharedDb (run (@Dereference stdEnv 5 hR1 sharedDb)) /\
  (size (dirties (run (@Dereference stdEnv 5 hR1 sharedDb))) <= size (dirties sharedDb))%nat.
Proof.
  assert (Hrun : @Dereference stdEnv 5 hR1 sharedDb
                 = Ok (run (@Dereference stdEnv 5 hR1 sharedDb))) by (vm_compute; reflexivity).
  split; [exact Hrun|].
  exact (@RefFacts.Dereference_only_drops stdEnv 5 hR1 sharedDb _ Hrun).
Defined.

(** The replay of the write of the leaf [hA]. *)
Lemma cleanerPut_takes_cost_witness :
  @IsStateTrieNodeKey stdEnv ("t"%byte :: encodeKey zeroHash [] hA)
  = (true, encodeKey zeroHash [] hA) /\
  dirties rootedDb !! gostring (encodeKey zeroHash [] hA)
  = Some (entryOf (keyOf zeroHash [] hA) rootedDb) /\
  @cleanerPut stdEnv ("t"%byte :: encodeKey zeroHash [] hA) [x01; x02] rootedDb
  = Ok (None, ran (@cleanerPut stdEnv ("t"%byte :: encodeKey zeroHash [] hA) [x01; x02]
                     rootedDb)) /\
  @tracked stdEnv (ran (@cleanerPut stdEnv ("t"%byte :: encodeKey zeroHash [] hA) [x01; x02]
                          rootedDb))
  = @tracked stdEnv rootedDb - @nodeCost stdEnv (entryOf (keyOf zeroHash [] hA) rootedDb).
Proof.
  assert (H2 : dirties rootedDb !! gostring (encodeKey zeroHash [] hA)
               = Some (entryOf (keyOf zeroHash [] hA) rootedDb)) by (vm_compute; reflexivity).
  assert (Hrun : @cleanerPut stdEnv ("t"%byte :: encodeKey zeroHash [] hA) [x01; x02] rootedDb
                 = Ok (None, ran (@cleanerPut stdEnv ("t"%byte :: encodeKey zeroHash [] hA)
                                    [x01; x02] rootedDb))) by (vm_compute; reflexivity).
  split; [reflexivity|]. split; [exact H2|]. split; [exact Hrun|].
  destruct (@UncacheFacts.cleanerPut_takes_cost stdEnv ("t"%byte :: encodeKey zeroHash [] hA)
              [x01; x02] (encodeKey zeroHash [] hA) rootedDb _ _ None eq_refl H2 Hrun)
    as (_ & _ & Ht & _).
  exact Ht.
Defined.

Lemma Nodes_flush_list_witness :
  wellFormed sharedDb [keyOf zeroHash [x00] hX; keyOf zeroHash [] hR1; keyOf zeroHash [] hR2] /\
  Nodes sharedDb ≡ₚ [keyOf zeroHash [x00] hX; keyOf zeroHash [] hR1; keyOf zeroHash [] hR2].
Proof.
  split; [exact TrieMoreWitnesses.sharedDb_wellFormed|].
  exact (UncacheFacts.Nodes_flush_list sharedDb _ TrieMoreWitnesses.sharedDb_wellFormed).
Defined.

(** A commit with one preimage recorded. *)
Lemma Commit_flushes_preimages_witness :
  preimages (insertPreimage hA [x01] cachingDb) = Some {[ gostring hA := [x01] ]} /\
  @CommitWithMetadata stdEnv 10 0 zeroHash hA (insertPreimage hA [x01] cachingDb)
  = Ok (None, ran (@Commit stdEnv 10 hA (insertPreimage hA [x01] cachingDb))) /\
  preimages (ran (@Commit stdEnv 10 hA (insertPreimage hA [x01] cachingDb))) = Some ∅ /\
  is_Some (store (diskdb (ran (@Commit stdEnv 10 hA (insertPreimage hA [x01] cachingDb))))
             !! gostring (@preimageKey stdEnv hA)).
Proof.
  assert (H1 : preimages (insertPreimage hA [x01] cachingDb) = Some {[ gostring hA := [x01] ]})
    by (vm_compute; reflexivity).
  assert (Hrun : @CommitWithMetadata stdEnv 10 0 zeroHash hA (insertPreimage hA [x01] cachingDb)
                 = Ok (None, ran (@Commit stdEnv 10 hA (insertPreimage hA [x01] cachingDb))))
    by (vm_compute; reflexivity).
  split; [exact H1|]. split; [exact Hrun|].
  destruct (@UncacheFacts.Commit_flushes_preimages stdEnv 10 0 zeroHash hA _ _ _ H1 Hrun)
    as (Hpre & _ & Hdisk).
  split; [exact Hpre|]. apply (Hdisk hA [x01]). apply lookup_singleton_eq.
Defined.

Lemma Cap_within_limit_idle_witness :
  @Size stdEnv sharedDb = Ok (378, 0) /\
  378 <= 1000 /\
  0 <= 4 * 1024 * 1024 /\
  @Cap stdEnv 10 1000 sharedDb = Ok (None, capped 1000 sharedDb) /\
  (forall k, is_Some (dirties (capped 1000 sharedDb) !! k) <-> is_Some (dirties sharedDb !! k)) /\
  @Size stdEnv (capped 1000 sharedDb) = Ok (378, 0).
Proof.
  assert (H1 : @Size stdEnv sharedDb = Ok (378, 0)) by (vm_compute; reflexivity).
  assert (H2 : 378 <= 1000) by lia.
  assert (H3 : 0 <= 4 * 1024 * 1024) by lia.
  assert (Hrun : @Cap stdEnv 10 1000 sharedDb = Ok (None, capped 1000 sharedDb))
    by (vm_compute; reflexivity).
  split; [exact H1|]. split; [exact H2|]. split; [exact H3|]. split; [exact Hrun|].
  destruct (@CapIdleFacts.Cap_within_limit_idle stdEnv 9 1000 sharedDb _ 378 0 None
              H1 H2 H3 Hrun) as (_ & Hk & _ & _ & _ & HS).
  split; [exact Hk | exact HS].
Defined.

End CommitMoreWitnesses.
